(** * license-manager: license lifecycle management commands

    A shallow embedding of three Django management commands of
    [license_manager.apps.subscriptions.management.commands]:

    - [send_license_expiration_reminders]       (module [Reminders]),
    - [send_subscription_plan_expiration_emails] (module [PlanExpiration]),
    - [retire_old_licenses]                      (module [Retire]),

    together with the properties of their license selection, their
    idempotency markers, their failure accounting and their argument
    parsing.

    Conventions of the embedding.

    - A [datetime] is an integer number of microseconds since the Unix
      epoch, in UTC; a [date] is an integer number of days since the epoch.
      Python confines [datetime] to the years 1 to 9999: the date
      arithmetic on the numbers of days given on the command line raises
      [OverflowError] where Python does.  The clocks show a time at least
      [DAYS_TO_RETIRE] days after [datetime.min].  The server's local time
      zone and Django's default time zone are UTC, so that a naive
      [datetime.now()] and a localized one count from the same midnight.
    - A Python [str] is a [string] that holds its UTF-8 encoding.  The
      parsing of the command line argument works on the characters of the
      string, of one or more bytes each, and knows every whitespace
      character of Unicode that Python's [str.isspace] accepts.
    - The relational store is three tables keyed by primary key; a foreign
      key is the key of the referenced row, and a Django lookup that spans a
      relation ([subscription_plan__customer_agreement__...]) is an inner
      join: a row whose reference dangles matches no filter.
    - The commands run in a state and error monad over a [World]: the
      tables and the chronological trace of the interactions with the
      outside (clock reads, enterprise API calls, Braze calls).  The outside
      is an [Env]: every external answer is a function of the trace so far,
      so that the same request can be answered differently at different
      moments.
    - Python exceptions are the constructors of [exn]; only subclasses of
      [Exception] are modelled. *)

From stdpp Require Import base option list gmap strings.
From Stdlib Require Import ZArith Lia Ascii String.

Local Open Scope Z_scope.

(** ** Time *)

Abbreviation datetime := Z (only parsing).
Abbreviation date := Z (only parsing).

(** Microseconds in one day: the length of [timedelta(days=1)]. *)
Definition DAY : Z := 86400000000.

(** [timedelta(days=n)], as a number of microseconds. *)
Definition timedelta (days : Z) : Z := days * DAY.

(** [dt.date()]: the calendar day of a datetime. *)
Definition to_date (dt : datetime) : date := dt / DAY.

(** [dt.replace(hour=0, minute=0, second=0, microsecond=0)]. *)
Definition replace_midnight (dt : datetime) : datetime := to_date dt * DAY.

(** The datetime Django compares a [DateTimeField] with when the lookup
    value is a [date]: midnight of that day. *)
Definition datetime_of_date (d : date) : datetime := d * DAY.

(** [date.min] and [date.max]: the first day of the year 1 and the last day
    of the year 9999, counted from the epoch. *)
Definition date_min : date := -719162.
Definition date_max : date := 2932896.

(** [datetime.min], 0001-01-01 00:00:00, and [datetime.max],
    9999-12-31 23:59:59.999999. *)
Definition datetime_min : datetime := datetime_of_date date_min.
Definition datetime_max : datetime := datetime_of_date (date_max + 1) - 1.

(** ** Data model *)

(** Modelled from the spec: the models and the status constants live in
    [subscriptions/models.py] and [subscriptions/constants.py], which are
    not among the sources.  A license's status is one of unassigned,
    assigned, activated, revoked; the fields of the three models are those
    the commands and their tests read and write. *)
Inductive Status := UNASSIGNED | ASSIGNED | ACTIVATED | REVOKED.

Global Instance Status_eq_dec : EqDecision Status.
Proof. solve_decision. Defined.

(** A UUID value is a 128-bit number. *)
Abbreviation UUID := N (only parsing).

Record License := mkLicense {
  uuid : UUID;
  status : Status;
  user_email : option string;
  lms_user_id : option Z;
  assigned_date : option datetime;
  revoked_date : option datetime;
  expiration_reminder_sent_date : option datetime;
  subscription_plan_expiration_email_sent_date : option datetime;
  subscription_plan : Z  (* foreign key: primary key of the plan *)
}.

Record SubscriptionPlan := mkSubscriptionPlan {
  title : string;
  start_date : datetime;
  expiration_date : datetime;
  is_active : bool;
  customer_agreement : Z  (* foreign key: primary key of the agreement *)
}.

Record CustomerAgreement := mkCustomerAgreement {
  enterprise_customer_uuid : UUID
}.

Record DB := mkDB {
  licenses : gmap Z License;
  subscription_plans : gmap Z SubscriptionPlan;
  customer_agreements : gmap Z CustomerAgreement
}.

(** The plan a license belongs to, through its foreign key. *)
Definition plan_of (d : DB) (l : License) : option SubscriptionPlan :=
  subscription_plans d !! subscription_plan l.

(** The customer agreement of a license's plan. *)
Definition agreement_of (d : DB) (l : License) : option CustomerAgreement :=
  p ← plan_of d l; customer_agreements d !! customer_agreement p.

(** Field updates. *)
Definition set_expiration_reminder_sent_date (v : option datetime) (l : License) : License :=
  mkLicense (uuid l) (status l) (user_email l) (lms_user_id l)
    (assigned_date l) (revoked_date l)
    v (subscription_plan_expiration_email_sent_date l) (subscription_plan l).

Definition set_subscription_plan_expiration_email_sent_date (v : option datetime) (l : License) : License :=
  mkLicense (uuid l) (status l) (user_email l) (lms_user_id l)
    (assigned_date l) (revoked_date l)
    (expiration_reminder_sent_date l) v (subscription_plan l).

Definition set_status (v : Status) (l : License) : License :=
  mkLicense (uuid l) v (user_email l) (lms_user_id l)
    (assigned_date l) (revoked_date l)
    (expiration_reminder_sent_date l) (subscription_plan_expiration_email_sent_date l)
    (subscription_plan l).

Definition set_revoked_date (v : option datetime) (l : License) : License :=
  mkLicense (uuid l) (status l) (user_email l) (lms_user_id l)
    (assigned_date l) v
    (expiration_reminder_sent_date l) (subscription_plan_expiration_email_sent_date l)
    (subscription_plan l).

(** Modelled from the spec: [License.clear_pii] lives in
    [subscriptions/models.py], which is not among the sources.  The spec
    speaks of jobs that scrub personally-identifiable information from
    licenses; the PII a license holds is the learner's email address and
    LMS user id.  The method changes the object only, the caller saves. *)
Definition clear_pii (l : License) : License :=
  mkLicense (uuid l) (status l) None None
    (assigned_date l) (revoked_date l)
    (expiration_reminder_sent_date l) (subscription_plan_expiration_email_sent_date l)
    (subscription_plan l).

(** Modelled from the spec: [License.reset_to_unassigned] lives in
    [subscriptions/models.py], which is not among the sources.  It returns
    the license to the pool of unassigned licenses: the status becomes
    [UNASSIGNED] and the PII and the assignment and revocation timestamps
    are scrubbed.  The notification markers are left alone. *)
Definition reset_to_unassigned (l : License) : License :=
  mkLicense (uuid l) UNASSIGNED None None None None
    (expiration_reminder_sent_date l) (subscription_plan_expiration_email_sent_date l)
    (subscription_plan l).

(** Modelled from the spec: the constant [DAYS_TO_RETIRE] of
    [subscriptions/constants.py], which is not among the sources; the help
    text of [retire_old_licenses] speaks of 90 days. *)
Definition DAYS_TO_RETIRE : Z := 90.

(** ** Exceptions, results, and the world *)

(** The exception classes the commands tell apart: [ValueError],
    [BrazeClientError], and [Exception_] for every other subclass of
    [Exception] (also the plain [Exception] the commands raise at the end
    of a run with failures). *)
Inductive exn := ValueError | BrazeClientError | Exception_.

Global Instance exn_eq_dec : EqDecision exn.
Proof. solve_decision. Defined.

Inductive result (A : Type) :=
| Ok (a : A)
| Raise (e : exn).
Arguments Ok {A} a.
Arguments Raise {A} e.

(** The interactions with the outside, as they are recorded in the trace.
    A call that can fail carries its outcome: [None] for a normal return,
    [Some e] for the exception raised. *)
Inductive Event :=
| ClockRead
| LogProcessing (enterprise_customer : string)
| EnterpriseApiCall (enterprise_customer : string) (outcome : option exn)
| BrazeAliasCall (license_pk : Z) (outcome : option exn)
| CampaignMessage (license_pk : Z) (outcome : option exn).

Global Instance Event_eq_dec : EqDecision Event.
Proof. solve_decision. Defined.

Record World := mkWorld {
  db : DB;
  trace : list Event
}.

(** The data the enterprise API returns for a customer: a dictionary. *)
Abbreviation EnterpriseCustomer := (gmap string string) (only parsing).

(** The external collaborators. *)
Record Env := mkEnv {
  (* Python's [uuid.UUID(s)]: [None] where it raises [ValueError] *)
  uuid_UUID : string → option UUID;
  (* [subscriptions.utils.localized_utcnow()] *)
  localized_utcnow : list Event → datetime;
  (* [datetime.now()] and [datetime.today()]: the naive local time *)
  datetime_now : list Event → datetime;
  (* Django settings *)
  BRAZE_LICENSE_EXPIRATION_REMINDER_CAMPAIGN : option string;
  BRAZE_SUBSCRIPTION_PLAN_EXPIRATION_CAMPAIGN : option string;
  (* [EnterpriseApiClient().get_enterprise_customer_data(uuid)] *)
  get_enterprise_customer_data : list Event → string → result EnterpriseCustomer;
  (* [api_utils.create_braze_alias_for_emails([email])] *)
  create_braze_alias_for_emails : list Event → option string → option exn;
  (* [braze_client.send_campaign_message(campaign, recipients, trigger_properties)] *)
  send_campaign_message :
    list Event → string → EnterpriseCustomer → License → option exn
}.

(** The state and error monad of the commands. *)
Definition M (A : Type) : Type := World → World * result A.

Global Instance M_ret : MRet M := λ A a w, (w, Ok a).
Global Instance M_bind : MBind M := λ A B f m w,
  match m w with
  | (w', Ok a) => f a w'
  | (w', Raise e) => (w', Raise e)
  end.

Definition raise {A} (e : exn) : M A := λ w, (w, Raise e).

(** [timedelta(days=days)]: Python raises [OverflowError] when the
    magnitude of the number of days exceeds 999999999. *)
Definition timedelta_days (days : Z) : M Z :=
  if bool_decide (-999999999 ≤ days ≤ 999999999) then mret (timedelta days)
  else raise Exception_.

(** [dt + delta] and [dt - delta] for a datetime and a timedelta: Python
    raises [OverflowError] when the result is not between [datetime.min]
    and [datetime.max]. *)
Definition datetime_add (dt : datetime) (delta : Z) : M datetime :=
  if bool_decide (datetime_min ≤ dt + delta ≤ datetime_max) then mret (dt + delta)
  else raise Exception_.

Definition datetime_sub (dt : datetime) (delta : Z) : M datetime :=
  if bool_decide (datetime_min ≤ dt - delta ≤ datetime_max) then mret (dt - delta)
  else raise Exception_.

(** Append an event to the trace. *)
Definition emit (e : Event) : M unit :=
  λ w, (mkWorld (db w) (trace w ++ [e]), Ok tt).

(** Read the tables. *)
Definition get_db : M DB := λ w, (w, Ok (db w)).

(** [localized_utcnow()]: a clock read. *)
Definition utcnow (env : Env) : M datetime :=
  λ w, (mkWorld (db w) (trace w ++ [ClockRead]), Ok (localized_utcnow env (trace w))).

(** [datetime.now()]: a clock read. *)
Definition now_naive (env : Env) : M datetime :=
  λ w, (mkWorld (db w) (trace w ++ [ClockRead]), Ok (datetime_now env (trace w))).

(** [obj.save()]: write the whole row of the object under its primary key. *)
Definition save (pk : Z) (obj : License) : M unit :=
  λ w, (mkWorld (mkDB (<[pk := obj]> (licenses (db w)))
                      (subscription_plans (db w)) (customer_agreements (db w)))
                (trace w), Ok tt).

(** [obj.save(update_fields=[f])]: write one column of the row of that
    primary key ([upd] sets the column to the object's value).  Django
    raises [DatabaseError] when no row has the key. *)
Definition save_update_fields (pk : Z) (upd : License → License) : M unit :=
  λ w, match licenses (db w) !! pk with
       | Some _ =>
           (mkWorld (mkDB (alter upd pk (licenses (db w)))
                          (subscription_plans (db w)) (customer_agreements (db w)))
                    (trace w), Ok tt)
       | None => (w, Raise Exception_)
       end.

(** ** Parsing the [--enterprise-customer-uuid] argument *)

(** A [string] holds the UTF-8 encoding of a Python [str].  The parsing
    tells apart the whitespace characters, the comma and the rest; it works
    on the characters of the string, each given by its encoding. *)

(** The string of the bytes [codes]. *)
Definition bytes (codes : list N) : string :=
  foldr (λ n s, String (ascii_of_N n) s) EmptyString codes.

(** The characters Python's [str.isspace] accepts, which are also what
    [\s] matches in a [str] pattern and what [str.strip()] removes, by
    their UTF-8 encodings: U+0009 to U+000D, U+001C to U+0020, U+0085,
    U+00A0, U+1680, U+2000 to U+200A, U+2028, U+2029, U+202F, U+205F and
    U+3000. *)
Definition whitespace : list string :=
  bytes <$>
    [ [0x09]; [0x0A]; [0x0B]; [0x0C]; [0x0D];
      [0x1C]; [0x1D]; [0x1E]; [0x1F]; [0x20];
      [0xC2; 0x85]; [0xC2; 0xA0];
      [0xE1; 0x9A; 0x80];
      [0xE2; 0x80; 0x80]; [0xE2; 0x80; 0x81]; [0xE2; 0x80; 0x82]; [0xE2; 0x80; 0x83];
      [0xE2; 0x80; 0x84]; [0xE2; 0x80; 0x85]; [0xE2; 0x80; 0x86]; [0xE2; 0x80; 0x87];
      [0xE2; 0x80; 0x88]; [0xE2; 0x80; 0x89]; [0xE2; 0x80; 0x8A];
      [0xE2; 0x80; 0xA8]; [0xE2; 0x80; 0xA9]; [0xE2; 0x80; 0xAF];
      [0xE2; 0x81; 0x9F];
      [0xE3; 0x80; 0x80] ]%N.

(** [str.isspace] on one character. *)
Definition isspace (c : string) : bool := existsb (String.eqb c) whitespace.

(** The character class [[,\s]]. *)
Definition is_sep (c : string) : bool := String.eqb c "," || isspace c.

(** The characters of a string, in order: a whitespace character is one
    character, of one, two or three bytes; the parsing looks no closer at
    any other character, which is left as its bytes, one by one.  No
    whitespace character begins another one, and none begins inside the
    encoding of another character, whose bytes after the first are
    continuation bytes. *)
Fixpoint chars (s : string) : list string :=
  match s with
  | EmptyString => []
  | String b1 s1 =>
      let one := String b1 EmptyString in
      match s1 with
      | EmptyString => one :: chars s1
      | String b2 s2 =>
          let two := String b1 (String b2 EmptyString) in
          match s2 with
          | EmptyString => if isspace two then two :: chars s2 else one :: chars s1
          | String b3 s3 =>
              let three := String b1 (String b2 (String b3 EmptyString)) in
              if isspace three then three :: chars s3
              else if isspace two then two :: chars s2
              else one :: chars s1
          end
      end
  end.

(** The string made of the characters [cs]. *)
Definition encode (cs : list string) : string := foldr String.append EmptyString cs.

Fixpoint lstrip (s : list string) : list string :=
  match s with
  | [] => []
  | c :: s' => if isspace c then lstrip s' else s
  end.

Fixpoint rstrip (s : list string) : list string :=
  match s with
  | [] => []
  | c :: s' =>
      match rstrip s' with
      | [] => if isspace c then [] else [c]
      | r => c :: r
      end
  end.

(** [s.strip()] *)
Definition strip (s : list string) : list string := rstrip (lstrip s).

(** [re.split(r'[,\s]+', s)]: the pieces of [s] between the maximal runs of
    separator characters, with an empty piece before a leading run and after
    a trailing one.  [in_run] tells that the previous character was a
    separator; the head of the result is the piece in progress. *)
Fixpoint re_split_from (in_run : bool) (s : list string) : list (list string) :=
  match s with
  | [] => [[]]
  | c :: s' =>
      if is_sep c then
        if in_run then re_split_from true s'
        else [] :: re_split_from true s'
      else
        match re_split_from false s' with
        | piece :: pieces => (c :: piece) :: pieces
        | [] => [[c]]
        end
  end.

Definition re_split (s : list string) : list (list string) := re_split_from false s.

Definition nonempty (s : list string) : bool :=
  match s with
  | [] => false
  | _ :: _ => true
  end.

(** The loop that checks every item with [uuid.UUID]; the first item that
    does not parse re-raises the [ValueError]. *)
Fixpoint check_uuids (env : Env) (items : list string) : result unit :=
  match items with
  | [] => Ok tt
  | item :: rest =>
      match uuid_UUID env item with
      | Some _ => check_uuids env rest
      | None => Raise ValueError
      end
  end.

(** The items are handed on as strings. *)
Definition _parse_enterprise_customer_uuids (env : Env) (uuids_string : string)
  : result (list string) :=
  let uuids := re_split (strip (chars uuids_string)) in
  let uuids := strip <$> filter (λ _uuid, nonempty (strip _uuid) = true) uuids in
  let uuids := encode <$> uuids in
  match check_uuids env uuids with
  | Ok _ => Ok uuids
  | Raise e => Raise e
  end.

(** ** Shared pieces of the two email commands *)

(** The dictionary a customer's processing returns. *)
Record Counts := mkCounts {
  success_count : nat;
  failure_count : nat
}.

(** The parsed command line options; [days] is [--days-before-expiration]
    for the reminders and [--days-since-expiration] for the plan
    expiration emails. *)
Record Options := mkOptions {
  opt_enterprise_customer_uuid : string;
  opt_days : Z;
  opt_dry_run : bool
}.

(** Run [m] and hand its outcome to the [except] clauses that follow. *)
Definition try {A} (m : M A) : M (result A) :=
  λ w, let '(w', r) := m w in (w', Ok r).

(** [EnterpriseApiClient().get_enterprise_customer_data(uuid)]; the
    [except Exception] clause around it logs and re-raises. *)
Definition call_enterprise_api (env : Env) (enterprise_customer_uuid : string)
  : M EnterpriseCustomer :=
  λ w, match get_enterprise_customer_data env (trace w) enterprise_customer_uuid with
       | Ok data =>
           (mkWorld (db w) (trace w ++ [EnterpriseApiCall enterprise_customer_uuid None]),
            Ok data)
       | Raise e =>
           (mkWorld (db w) (trace w ++ [EnterpriseApiCall enterprise_customer_uuid (Some e)]),
            Raise e)
       end.

Definition call_create_braze_alias (env : Env) (pk : Z) (email : option string) : M unit :=
  λ w, let r := create_braze_alias_for_emails env (trace w) email in
       (mkWorld (db w) (trace w ++ [BrazeAliasCall pk r]),
        match r with None => Ok tt | Some e => Raise e end).

Definition call_send_campaign_message (env : Env) (pk : Z) (campaign : string)
    (enterprise_customer : EnterpriseCustomer) (license_obj : License) : M unit :=
  λ w, let r := send_campaign_message env (trace w) campaign enterprise_customer license_obj in
       (mkWorld (db w) (trace w ++ [CampaignMessage pk r]),
        match r with None => Ok tt | Some e => Raise e end).

(** Django's coercion of a lookup value for a [UUIDField]: a string that
    [uuid.UUID] rejects raises [ValidationError]. *)
Definition uuid_lookup_value (env : Env) (s : string) : M UUID :=
  match uuid_UUID env s with
  | Some u => mret u
  | None => raise Exception_
  end.

(** The lookups both selections share:
    [status=ACTIVATED],
    [subscription_plan__customer_agreement__enterprise_customer_uuid=u],
    [subscription_plan__expiration_date__gte=window_start],
    [subscription_plan__expiration_date__lt=window_end]. *)
Definition activated_in_window (d : DB) (u : UUID)
    (expiration_window_start expiration_window_end : datetime) (l : License) : bool :=
  bool_decide (status l = ACTIVATED)
  && bool_decide (enterprise_customer_uuid <$> agreement_of d l = Some u)
  && from_option (λ p, bool_decide (expiration_window_start ≤ expiration_date p)) false (plan_of d l)
  && from_option (λ p, bool_decide (expiration_date p < expiration_window_end)) false (plan_of d l).

(** ** send_license_expiration_reminders *)

Module Reminders.

(** The filter of [_get_expiring_licenses]. *)
Definition expiring (d : DB) (u : UUID)
    (expiration_window_start expiration_window_end : datetime) (l : License) : bool :=
  activated_in_window d u expiration_window_start expiration_window_end l
  && bool_decide (expiration_reminder_sent_date l = None).

(** The queryset is lazy; the tables do not change between its creation
    and its uses ([exists], [count], one iteration), so the rows are
    computed once, as pairs of primary key and object. *)
Definition _get_expiring_licenses (env : Env) (enterprise_customer_uuid : string)
    (days_before_expiration : Z) : M (list (Z * License)) :=
  now ← utcnow env;
  delta ← timedelta_days days_before_expiration;
  target_expiration_date ← datetime_add now delta;
  let expiration_window_start := replace_midnight target_expiration_date in
  one_day ← timedelta_days 1;
  expiration_window_end ← datetime_add expiration_window_start one_day;
  u ← uuid_lookup_value env enterprise_customer_uuid;
  d ← get_db;
  mret (filter (λ row, expiring d u expiration_window_start expiration_window_end row.2)
               (map_to_list (licenses d))).

Definition _send_expiration_reminder_email (env : Env) (pk : Z) (license_obj : License)
    (enterprise_customer : EnterpriseCustomer) : M unit :=
  (* days_until_expiration = (expiration_date - localized_utcnow()).days *)
  _ ← utcnow env;
  match BRAZE_LICENSE_EXPIRATION_REMINDER_CAMPAIGN env with
  | Some (String c s) =>
      call_create_braze_alias env pk (user_email license_obj);;
      call_send_campaign_message env pk (String c s) enterprise_customer license_obj
  | _ => raise ValueError
  end.

(** The loop [for license_obj in licenses] of
    [_process_enterprise_customer]. *)
Fixpoint send_loop (env : Env) (enterprise_customer : EnterpriseCustomer)
    (licenses : list (Z * License)) (success_count failure_count : nat) : M Counts :=
  match licenses with
  | [] => mret (mkCounts success_count failure_count)
  | (pk, license_obj) :: rest =>
      r ← try (_send_expiration_reminder_email env pk license_obj enterprise_customer;;
               now ← utcnow env;
               save_update_fields pk (set_expiration_reminder_sent_date (Some now)));
      match r with
      | Ok _ => send_loop env enterprise_customer rest (S success_count) failure_count
      | Raise ValueError => raise ValueError
      | Raise BrazeClientError =>
          send_loop env enterprise_customer rest success_count (S failure_count)
      | Raise Exception_ =>
          send_loop env enterprise_customer rest success_count (S failure_count)
      end
  end.

Definition _process_enterprise_customer (env : Env) (enterprise_customer_uuid : string)
    (days_before_expiration : Z) (dry_run : bool) : M Counts :=
  emit (LogProcessing enterprise_customer_uuid);;
  licenses ← _get_expiring_licenses env enterprise_customer_uuid days_before_expiration;
  match licenses with
  | [] => mret (mkCounts 0 0)
  | _ :: _ =>
      if dry_run then mret (mkCounts 0 0)
      else
        enterprise_customer ← call_enterprise_api env enterprise_customer_uuid;
        send_loop env enterprise_customer licenses 0 0
  end.

(** The loop [for enterprise_customer_uuid in enterprise_customer_uuids]
    of [handle]; it returns the two totals. *)
Fixpoint customers_loop (env : Env) (days_before_expiration : Z) (dry_run : bool)
    (enterprise_customer_uuids : list string)
    (total_success_count total_failure_count : nat) : M (nat * nat) :=
  match enterprise_customer_uuids with
  | [] => mret (total_success_count, total_failure_count)
  | enterprise_customer_uuid :: rest =>
      r ← try (_process_enterprise_customer env enterprise_customer_uuid
                 days_before_expiration dry_run);
      match r with
      | Ok result =>
          customers_loop env days_before_expiration dry_run rest
            (total_success_count + success_count result)%nat
            (total_failure_count + failure_count result)%nat
      | Raise ValueError => raise ValueError
      | Raise _ =>
          customers_loop env days_before_expiration dry_run rest
            total_success_count (total_failure_count + 1)%nat
      end
  end.

Definition handle (env : Env) (options : Options) : M unit :=
  match _parse_enterprise_customer_uuids env (opt_enterprise_customer_uuid options) with
  | Raise e => raise e
  | Ok [] => raise ValueError
  | Ok enterprise_customer_uuids =>
      totals ← customers_loop env (opt_days options) (opt_dry_run options)
                 enterprise_customer_uuids 0 0;
      if bool_decide (0 < totals.2)%nat then raise Exception_ else mret tt
  end.

End Reminders.

(** ** send_subscription_plan_expiration_emails *)

Module PlanExpiration.

(** The filter of [_get_recently_expired_plan_licenses]. *)
Definition recently_expired (d : DB) (u : UUID)
    (expiration_window_start expiration_window_end : datetime) (l : License) : bool :=
  activated_in_window d u expiration_window_start expiration_window_end l
  && bool_decide (subscription_plan_expiration_email_sent_date l = None).

Definition _get_recently_expired_plan_licenses (env : Env)
    (enterprise_customer_uuid : string) (days_since_expiration : Z)
    : M (list (Z * License)) :=
  now ← utcnow env;
  let expiration_window_end := replace_midnight now in
  delta ← timedelta_days days_since_expiration;
  expiration_window_start ← datetime_sub expiration_window_end delta;
  u ← uuid_lookup_value env enterprise_customer_uuid;
  d ← get_db;
  mret (filter (λ row, recently_expired d u expiration_window_start expiration_window_end row.2)
               (map_to_list (licenses d))).

Definition _send_subscription_expiration_email (env : Env) (pk : Z) (license_obj : License)
    (enterprise_customer : EnterpriseCustomer) : M unit :=
  (* delta = localized_utcnow().date() - expiration_date.date() *)
  _ ← utcnow env;
  match BRAZE_SUBSCRIPTION_PLAN_EXPIRATION_CAMPAIGN env with
  | Some (String c s) =>
      call_create_braze_alias env pk (user_email license_obj);;
      call_send_campaign_message env pk (String c s) enterprise_customer license_obj
  | _ => raise ValueError
  end.

Fixpoint send_loop (env : Env) (enterprise_customer : EnterpriseCustomer)
    (licenses : list (Z * License)) (success_count failure_count : nat) : M Counts :=
  match licenses with
  | [] => mret (mkCounts success_count failure_count)
  | (pk, license_obj) :: rest =>
      r ← try (_send_subscription_expiration_email env pk license_obj enterprise_customer;;
               now ← utcnow env;
               save_update_fields pk
                 (set_subscription_plan_expiration_email_sent_date (Some now)));
      match r with
      | Ok _ => send_loop env enterprise_customer rest (S success_count) failure_count
      | Raise ValueError => raise ValueError
      | Raise BrazeClientError =>
          send_loop env enterprise_customer rest success_count (S failure_count)
      | Raise Exception_ =>
          send_loop env enterprise_customer rest success_count (S failure_count)
      end
  end.

Definition _process_enterprise_customer (env : Env) (enterprise_customer_uuid : string)
    (days_since_expiration : Z) (dry_run : bool) : M Counts :=
  emit (LogProcessing enterprise_customer_uuid);;
  licenses ← _get_recently_expired_plan_licenses env enterprise_customer_uuid
               days_since_expiration;
  match licenses with
  | [] => mret (mkCounts 0 0)
  | _ :: _ =>
      if dry_run then mret (mkCounts 0 0)
      else
        enterprise_customer ← call_enterprise_api env enterprise_customer_uuid;
        send_loop env enterprise_customer licenses 0 0
  end.

(** The loop of [handle]; it returns [total_success_count],
    [total_failure_count] and [enterprise_level_failures]. *)
Fixpoint customers_loop (env : Env) (days_since_expiration : Z) (dry_run : bool)
    (enterprise_customer_uuids : list string)
    (total_success_count total_failure_count enterprise_level_failures : nat)
    : M (nat * nat * nat) :=
  match enterprise_customer_uuids with
  | [] => mret (total_success_count, total_failure_count, enterprise_level_failures)
  | enterprise_customer_uuid :: rest =>
      r ← try (_process_enterprise_customer env enterprise_customer_uuid
                 days_since_expiration dry_run);
      match r with
      | Ok result =>
          customers_loop env days_since_expiration dry_run rest
            (total_success_count + success_count result)%nat
            (total_failure_count + failure_count result)%nat
            enterprise_level_failures
      | Raise ValueError => raise ValueError
      | Raise _ =>
          customers_loop env days_since_expiration dry_run rest
            total_success_count total_failure_count (enterprise_level_failures + 1)%nat
      end
  end.

Definition handle (env : Env) (options : Options) : M unit :=
  match _parse_enterprise_customer_uuids env (opt_enterprise_customer_uuid options) with
  | Raise e => raise e
  | Ok [] => raise ValueError
  | Ok enterprise_customer_uuids =>
      totals ← customers_loop env (opt_days options) (opt_dry_run options)
                 enterprise_customer_uuids 0 0 0;
      if bool_decide (0 < totals.1.2 + totals.2)%nat then raise Exception_ else mret tt
  end.

End PlanExpiration.

(** ** retire_old_licenses *)

Module Retire.

(** [user_email__isnull=False,
     subscription_plan__expiration_date__lt=ready_for_retirement_date] *)
Definition expired_for_retirement (d : DB) (ready_for_retirement_date : date)
    (l : License) : bool :=
  bool_decide (user_email l ≠ None)
  && from_option
       (λ p, bool_decide (expiration_date p < datetime_of_date ready_for_retirement_date))
       false (plan_of d l).

(** [status=REVOKED, user_email__isnull=False, revoked_date__isnull=False,
     revoked_date__date__lt=ready_for_retirement_date] *)
Definition revoked_for_retirement (ready_for_retirement_date : date) (l : License) : bool :=
  bool_decide (status l = REVOKED)
  && bool_decide (user_email l ≠ None)
  && bool_decide (revoked_date l ≠ None)
  && from_option (λ t, bool_decide (to_date t < ready_for_retirement_date))
       false (revoked_date l).

(** [status=ASSIGNED, assigned_date__isnull=False,
     assigned_date__date__lt=ready_for_retirement_date] *)
Definition assigned_for_retirement (ready_for_retirement_date : date) (l : License) : bool :=
  bool_decide (status l = ASSIGNED)
  && bool_decide (assigned_date l ≠ None)
  && from_option (λ t, bool_decide (to_date t < ready_for_retirement_date))
       false (assigned_date l).

(** The three loops.  [clear_historical_pii] rewrites the rows of the
    history table, which is not part of the model. *)
Fixpoint retire_expired (env : Env) (expired_licenses : list (Z * License)) : M unit :=
  match expired_licenses with
  | [] => mret tt
  | (pk, expired_license) :: rest =>
      let expired_license := clear_pii expired_license in
      let expired_license := set_status REVOKED expired_license in
      now ← now_naive env;
      let expired_license := set_revoked_date (Some now) expired_license in
      save pk expired_license;;
      retire_expired env rest
  end.

Fixpoint retire_revoked (revoked_licenses : list (Z * License)) : M unit :=
  match revoked_licenses with
  | [] => mret tt
  | (pk, revoked_license) :: rest =>
      save pk (clear_pii revoked_license);;
      retire_revoked rest
  end.

Fixpoint retire_assigned (assigned_licenses : list (Z * License)) : M unit :=
  match assigned_licenses with
  | [] => mret tt
  | (pk, assigned_license) :: rest =>
      save pk (reset_to_unassigned assigned_license);;
      retire_assigned rest
  end.

(** [License.objects.filter(...)], evaluated when the loop starts. *)
Definition query (P : DB → License → bool) : M (list (Z * License)) :=
  d ← get_db;
  mret (filter (λ row, P d row.2) (map_to_list (licenses d))).

Definition handle (env : Env) : M unit :=
  today ← now_naive env;
  let ready_for_retirement_date := to_date today - DAYS_TO_RETIRE in
  expired_licenses_for_retirement ←
    query (λ d, expired_for_retirement d ready_for_retirement_date);
  retire_expired env expired_licenses_for_retirement;;
  revoked_licenses_for_retirement ←
    query (λ _, revoked_for_retirement ready_for_retirement_date);
  retire_revoked revoked_licenses_for_retirement;;
  assigned_licenses_for_retirement ←
    query (λ _, assigned_for_retirement ready_for_retirement_date);
  retire_assigned assigned_licenses_for_retirement.

End Retire.

(** ** Vocabulary of the properties *)

(** The number of campaign messages Braze accepted for a license: the
    emails sent to its learner. *)
Definition emails_sent (pk : Z) (tr : list Event) : nat :=
  count_occ Event_eq_dec tr (CampaignMessage pk None).

(** A sequence of runs of a command, each with its own environment and
    options, from a world [w]; the outcome of a run does not influence the
    next one. *)
Fixpoint runs (command : Env → Options → M unit) (script : list (Env * Options))
    (w : World) : World :=
  match script with
  | [] => w
  | (env, options) :: rest => runs command rest (command env options w).1
  end.

(** A Braze call for license [pk] that raised [e]. *)
Definition send_raised (pk : Z) (e : exn) (tr : list Event) : Prop :=
  BrazeAliasCall pk (Some e) ∈ tr ∨ CampaignMessage pk (Some e) ∈ tr.

Definition is_failed_send (e : Event) : bool :=
  match e with
  | BrazeAliasCall _ (Some _) | CampaignMessage _ (Some _) => true
  | _ => false
  end.

(** The number of Braze calls that raised. *)
Definition failed_sends (tr : list Event) : nat :=
  List.length (List.filter is_failed_send tr).

(** The customers whose processing was started, in order. *)
Definition processed (tr : list Event) : list string :=
  omap (λ e, match e with LogProcessing u => Some u | _ => None end) tr.

(** A license row that exists and whose marker is still null. *)
Definition unmarked (marker : License → option Z) (d : DB) (pk : Z) : Prop :=
  ∃ l, licenses d !! pk = Some l ∧ marker l = None.

(** The idempotency invariant: no license was sent more than one email,
    and none whose marker is still null was sent any. *)
Definition once_marked (marker : License → option Z) (w : World) : Prop :=
  ∀ pk, (emails_sent pk (trace w) ≤ 1)%nat
        ∧ (unmarked marker (db w) pk → emails_sent pk (trace w) = 0%nat).

(** What the email commands can do to the tables: nothing to plans and
    agreements, and to a license row either nothing or leave it marked. *)
Definition evolves (marker : License → option Z) (d d' : DB) : Prop :=
  subscription_plans d' = subscription_plans d
  ∧ customer_agreements d' = customer_agreements d
  ∧ ∀ pk, licenses d' !! pk = licenses d !! pk
          ∨ ∃ l l' t, licenses d !! pk = Some l ∧ licenses d' !! pk = Some l'
                      ∧ marker l' = Some t.

(** The outcomes of the customers' processing, in order, when each is
    processed from the world the previous one left. *)
Fixpoint customer_results (process : string → M Counts) (uuids : list string) (w : World)
  : list (result Counts) :=
  match uuids with
  | [] => []
  | u :: rest => (process u w).2 :: customer_results process rest (process u w).1
  end.

(** The world after all customers were processed. *)
Fixpoint after_customers (process : string → M Counts) (uuids : list string) (w : World)
  : World :=
  match uuids with
  | [] => w
  | u :: rest => after_customers process rest (process u w).1
  end.

(** What a customer's outcome adds to the totals: its counts when it
    returned, one failure when it raised. *)
Definition successes_of (r : result Counts) : nat :=
  match r with
  | Ok c => success_count c
  | Raise _ => 0
  end.

Definition failures_of (r : result Counts) : nat :=
  match r with
  | Ok c => failure_count c
  | Raise _ => 1
  end.

(** The events of a dry run over the customers [uuids]. *)
Definition dry_run_events (uuids : list string) : list Event :=
  uuids ≫= λ u, [LogProcessing u; ClockRead].

(** The numbers of days [D] for which the window of
    [_get_expiring_licenses] exists at the time [now]: a [timedelta] holds
    that many days, and the target day and the day after it, whose midnight
    ends the window, are days of the calendar. *)
Definition expiring_window_in_range (now : datetime) (D : Z) : Prop :=
  -999999999 ≤ D ≤ 999999999
  ∧ date_min ≤ to_date now + D
  ∧ to_date now + D + 1 ≤ date_max.

(** The numbers of days [N_] for which the window of
    [_get_recently_expired_plan_licenses] exists at the time [now]: a
    [timedelta] holds that many days, and the day the window starts with is
    a day of the calendar. *)
Definition recently_expired_window_in_range (now : datetime) (N_ : Z) : Prop :=
  -999999999 ≤ N_ ≤ 999999999
  ∧ date_min ≤ to_date now - N_ ≤ date_max.

Global Instance expiring_window_in_range_dec (now D : Z) :
  Decision (expiring_window_in_range now D).
Proof. unfold expiring_window_in_range. apply _. Defined.

Global Instance recently_expired_window_in_range_dec (now N_ : Z) :
  Decision (recently_expired_window_in_range now N_).
Proof. unfold recently_expired_window_in_range. apply _. Defined.

(** *** The common shape of the two email commands

    The two commands differ in the selection, in the campaign setting, in
    the marker they write and in the totals of [handle]; what they share is
    written once here, and shown below to be what each module's functions
    compute. *)

Definition send_email_with (campaign : option string) (env : Env) (pk : Z)
    (license_obj : License) (enterprise_customer : EnterpriseCustomer) : M unit :=
  _ ← utcnow env;
  match campaign with
  | Some (String c s) =>
      call_create_braze_alias env pk (user_email license_obj);;
      call_send_campaign_message env pk (String c s) enterprise_customer license_obj
  | _ => raise ValueError
  end.

(** The body of the [try] of the loop over the licenses. *)
Definition send_and_mark (campaign : option string) (mark : option Z → License → License)
    (env : Env) (enterprise_customer : EnterpriseCustomer) (row : Z * License) : M unit :=
  send_email_with campaign env row.1 row.2 enterprise_customer;;
  now ← utcnow env;
  save_update_fields row.1 (mark (Some now)).

Fixpoint send_loop_with (campaign : option string) (mark : option Z → License → License)
    (env : Env) (enterprise_customer : EnterpriseCustomer)
    (licenses : list (Z * License)) (success_count failure_count : nat) : M Counts :=
  match licenses with
  | [] => mret (mkCounts success_count failure_count)
  | row :: rest =>
      r ← try (send_and_mark campaign mark env enterprise_customer row);
      match r with
      | Ok _ =>
          send_loop_with campaign mark env enterprise_customer rest
            (S success_count) failure_count
      | Raise ValueError => raise ValueError
      | Raise _ =>
          send_loop_with campaign mark env enterprise_customer rest
            success_count (S failure_count)
      end
  end.

Definition process_with (select : M (list (Z * License))) (campaign : option string)
    (mark : option Z → License → License) (env : Env)
    (enterprise_customer_uuid : string) (dry_run : bool) : M Counts :=
  emit (LogProcessing enterprise_customer_uuid);;
  licenses ← select;
  match licenses with
  | [] => mret (mkCounts 0 0)
  | _ :: _ =>
      if dry_run then mret (mkCounts 0 0)
      else
        enterprise_customer ← call_enterprise_api env enterprise_customer_uuid;
        send_loop_with campaign mark env enterprise_customer licenses 0 0
  end.

(** What both selections guarantee: one clock read, tables untouched, and
    rows with distinct keys that are stored and unmarked. *)
Definition selects (marker : License → option Z) (select : M (list (Z * License))) : Prop :=
  ∀ w, ∃ r, select w = (mkWorld (db w) (trace w ++ [ClockRead]), r)
    ∧ ∀ rows, r = Ok rows →
        NoDup rows.*1
        ∧ ∀ pk l, (pk, l) ∈ rows → licenses (db w) !! pk = Some l ∧ marker l = None.

(** *** The tokens of an argument string

    The spec's words: the non-empty tokens obtained by splitting the string
    on any run of commas and/or whitespace.  The string is taken as the
    sequence of its characters. *)

(** Only separator characters. *)
Definition all_sep (s : list string) : bool := forallb is_sep s.

(** No separator character. *)
Definition no_sep (s : list string) : bool := forallb (λ c, negb (is_sep c)) s.

(** A token is a non-empty sequence of characters without separators. *)
Definition is_token (t : list string) : Prop := t ≠ [] ∧ no_sep t = true.

(** The end of the string, or the start of a run of separators. *)
Definition at_boundary (s : list string) : Prop :=
  match s with
  | [] => True
  | c :: _ => is_sep c = true
  end.

(** [tokens_of s toks]: [s] is a (possibly empty) run of separators, then
    the first token, which ends at a boundary, then a sequence with the
    remaining tokens; or only separators, and no token. *)
Inductive tokens_of : list string → list (list string) → Prop :=
| tokens_of_none (g : list string) :
    all_sep g = true → tokens_of g []
| tokens_of_first (g t rest : list string) (toks : list (list string)) :
    all_sep g = true → is_token t → at_boundary rest → tokens_of rest toks →
    tokens_of (g ++ t ++ rest) (t :: toks).

(** The whitespace characters, written out. *)
Definition whitespace_list : list string := Eval vm_compute in whitespace.

(** A continuation byte of UTF-8: 0x80 to 0xBF. *)
Definition is_continuation (b : ascii) : bool :=
  ((128 <=? N_of_ascii b) && (N_of_ascii b <? 192))%N.

(** A string that is empty or begins with a byte that continues no
    character. *)
Definition begins_clean (s : string) : Prop :=
  match s with
  | EmptyString => True
  | String b _ => is_continuation b = false
  end.

(** The characters of tokens joined by commas. *)
Fixpoint join_chars (toks : list (list string)) : list string :=
  match toks with
  | [] => []
  | [t] => t
  | t :: rest => t ++ "," :: join_chars rest
  end.

(** *** Example data

    One enterprise customer with one subscription plan, and licenses of that
    plan in each status; environments whose clocks stand still at a given
    time and whose Braze client accepts every call, or refuses every
    campaign message. *)

Definition example_uuid_string : string := "12345678-1234-1234-1234-123456789012".

Definition example_uuid : N := 24197857161011392786872332431161593874%N.

(** Midnight (UTC) of the day the example plan expires on, and one o'clock
    of that day, when it expires. *)
Definition example_expiration_day : Z := 19900.

Definition example_expiration : Z := timedelta example_expiration_day + 3600000000.

Definition example_env (now : Z) : Env :=
  mkEnv (λ s, if String.eqb s example_uuid_string then Some example_uuid else None)
    (λ _, now) (λ _, now)
    (Some "reminder-campaign") (Some "expiration-campaign")
    (λ _ _, Ok ∅) (λ _ _, None) (λ _ _ _ _, None).

Definition example_env_braze_refuses (now : Z) : Env :=
  mkEnv (λ s, if String.eqb s example_uuid_string then Some example_uuid else None)
    (λ _, now) (λ _, now)
    (Some "reminder-campaign") (Some "expiration-campaign")
    (λ _ _, Ok ∅) (λ _ _, None) (λ _ _ _ _, Some BrazeClientError).

Definition example_plan : SubscriptionPlan :=
  mkSubscriptionPlan "Example plan" (timedelta 19535) example_expiration true 1.

Definition example_agreement : CustomerAgreement := mkCustomerAgreement example_uuid.

(** An activated license that was sent nothing yet. *)
Definition example_activated : License :=
  mkLicense 1001%N ACTIVATED (Some "learner@example.com") (Some 12345)
    (Some (timedelta 19600)) None None None 1.

(** A license assigned on day 19890 and never activated. *)
Definition example_assigned : License :=
  mkLicense 1002%N ASSIGNED (Some "invited@example.com") None
    (Some (timedelta 19890)) None None None 1.

(** A license revoked on day 19890, its learner's email still on it. *)
Definition example_revoked : License :=
  mkLicense 1003%N REVOKED (Some "former@example.com") (Some 54321)
    (Some (timedelta 19600)) (Some (timedelta 19890)) None None 1.

Definition example_db (l : License) : DB :=
  mkDB {[ 1 := l ]} {[ 1 := example_plan ]} {[ 1 := example_agreement ]}.

Definition example_world (l : License) : World := mkWorld (example_db l) [].

(** U+2003 EM SPACE and U+00A0 NO-BREAK SPACE, in UTF-8. *)
Definition example_em_space : string := bytes [0xE2; 0x80; 0x83]%N.

Definition example_no_break_space : string := bytes [0xC2; 0xA0]%N.

(** A second enterprise customer, with a plan that expires when the
    example plan does and an activated license of its own. *)
Definition example_other_uuid_string : string := "87654321-4321-4321-4321-210987654321".

Definition example_other_uuid : N := 179971562970424175287348571185437033249%N.

Definition example_other_plan : SubscriptionPlan :=
  mkSubscriptionPlan "Other plan" (timedelta 19535) example_expiration true 2.

Definition example_other_agreement : CustomerAgreement :=
  mkCustomerAgreement example_other_uuid.

Definition example_other_activated : License :=
  mkLicense 2001%N ACTIVATED (Some "learner@other.example.com") (Some 67890)
    (Some (timedelta 19600)) None None None 2.

Definition example_db_two_customers : DB :=
  mkDB {[ 1 := example_activated; 2 := example_other_activated ]}
       {[ 1 := example_plan; 2 := example_other_plan ]}
       {[ 1 := example_agreement; 2 := example_other_agreement ]}.

(** An environment that knows both customers, and in which the enterprise
    API is down for the first of them only. *)
Definition example_env_two_customers (now : Z) : Env :=
  mkEnv (λ s, if String.eqb s example_uuid_string then Some example_uuid
              else if String.eqb s example_other_uuid_string then Some example_other_uuid
              else None)
    (λ _, now) (λ _, now)
    (Some "reminder-campaign") (Some "expiration-campaign")
    (λ _ u, if String.eqb u example_uuid_string then Raise Exception_ else Ok ∅)
    (λ _ _, None) (λ _ _ _ _, None).

(** A plan that expires at noon of 9999-12-31, the last day of the
    calendar, and the example license on that plan. *)
Definition example_last_day_plan : SubscriptionPlan :=
  mkSubscriptionPlan "Last day plan" (timedelta 19535)
    (datetime_of_date date_max + 43200000000) true 1.

Definition example_db_last_day : DB :=
  mkDB {[ 1 := example_activated ]} {[ 1 := example_last_day_plan ]}
       {[ 1 := example_agreement ]}.

(** *** Vocabulary of the further properties *)

(** [(expiration_date - localized_utcnow()).days], the number of days the
    reminder email announces: the whole days of the difference, rounded
    down as [timedelta.days] is. *)
Definition days_until_expiration (expiration_date now : datetime) : Z :=
  (expiration_date - now) / DAY.

(** [(localized_utcnow().date() - expiration_date.date()).days], the number
    of days the plan expiration email announces. *)
Definition days_since_expiration (expiration_date now : datetime) : Z :=
  to_date now - to_date expiration_date.

(** A call to Braze. *)
Definition is_braze_event (e : Event) : bool :=
  match e with
  | BrazeAliasCall _ _ | CampaignMessage _ _ => true
  | _ => false
  end.

(** A call to the outside that raised. *)
Definition is_failed_call (e : Event) : bool :=
  match e with
  | EnterpriseApiCall _ (Some _) | BrazeAliasCall _ (Some _) | CampaignMessage _ (Some _) => true
  | _ => false
  end.

(** The number of calls to the outside that raised. *)
Definition failed_calls (tr : list Event) : nat :=
  List.length (List.filter is_failed_call tr).

Definition is_accepted (e : Event) : bool :=
  match e with
  | CampaignMessage _ None => true
  | _ => false
  end.

(** The number of campaign messages Braze accepted, for all licenses. *)
Definition accepted (tr : list Event) : nat :=
  List.length (List.filter is_accepted tr).

(** Every campaign message comes right after the successful creation of
    the Braze alias of the same license. *)
Definition alias_precedes_message (tr : list Event) : Prop :=
  ∀ i pk o, tr !! i = Some (CampaignMessage pk o) →
    ∃ j, i = S j ∧ tr !! j = Some (BrazeAliasCall pk None).

(** A campaign setting that [if not braze_campaign_id] rejects. *)
Definition unconfigured (campaign : option string) : Prop :=
  campaign = None ∨ campaign = Some EmptyString.

(** What a run of [retire_old_licenses] makes of one license: the three
    steps in order, each looking at what the previous one left; [t] is the
    time the first step reads for the license. *)
Definition retired (d : DB) (ready_for_retirement_date : date) (t : datetime)
    (l : License) : License :=
  let l1 :=
    if Retire.expired_for_retirement d ready_for_retirement_date l
    then set_revoked_date (Some t) (set_status REVOKED (clear_pii l)) else l in
  let l2 :=
    if Retire.revoked_for_retirement ready_for_retirement_date l1 then clear_pii l1 else l1 in
  if Retire.assigned_for_retirement ready_for_retirement_date l2
  then reset_to_unassigned l2 else l2.

(** The argument string that lists the items, separated by commas. *)
Fixpoint join_commas (items : list string) : string :=
  match items with
  | [] => EmptyString
  | [item] => item
  | item :: rest => item +:+ String "," (join_commas rest)
  end.

(** What a run of an email command may have done between two worlds: it
    added events, left plans and agreements alone, and for every license
    either left the row as it was and sent no email, or sent exactly one
    email and wrote a time into the marker of a row whose marker was null,
    changing nothing else of the row. *)
Definition marked_exactly_the_emailed (marker : License → option Z)
    (mark : option Z → License → License) (w w' : World) : Prop :=
  ∃ evs,
    trace w' = trace w ++ evs
    ∧ subscription_plans (db w') = subscription_plans (db w)
    ∧ customer_agreements (db w') = customer_agreements (db w)
    ∧ ∀ pk,
        (licenses (db w') !! pk = licenses (db w) !! pk ∧ emails_sent pk evs = 0%nat)
        ∨ (∃ l t, licenses (db w) !! pk = Some l ∧ marker l = None
             ∧ licenses (db w') !! pk = Some (mark (Some t) l)
             ∧ emails_sent pk evs = 1%nat).

(** An environment like [example_env] in which the campaign settings are
    missing. *)
Definition example_env_unconfigured (now : Z) : Env :=
  mkEnv (λ s, if String.eqb s example_uuid_string then Some example_uuid else None)
    (λ _, now) (λ _, now)
    None None
    (λ _ _, Ok ∅) (λ _ _, None) (λ _ _ _ _, None).

(** An environment like [example_env] in which the enterprise API is down. *)
Definition example_env_api_down (now : Z) : Env :=
  mkEnv (λ s, if String.eqb s example_uuid_string then Some example_uuid else None)
    (λ _, now) (λ _, now)
    (Some "reminder-campaign") (Some "expiration-campaign")
    (λ _ _, Raise Exception_) (λ _ _, None) (λ _ _ _ _, None).

(** The filter [F] of a selection rejects every license of the table:
    nothing is left to send. *)
Definition nothing_to_send (F : License → bool) (d : DB) : Prop :=
  ∀ pk l, licenses d !! pk = Some l → F l = false.

(** * Properties *)

(** ** Time *)

(** Unfolding of the monad's operations. *)
Ltac unfold_monad :=
  unfold mbind, M_bind, mret, M_ret, raise, emit, get_db, utcnow, now_naive, try,
    save, save_update_fields, call_enterprise_api, call_create_braze_alias,
    call_send_campaign_message, uuid_lookup_value in *.

Arguments DAY : simpl never.
Arguments timedelta : simpl never.
Arguments to_date : simpl never.
Arguments replace_midnight : simpl never.
Arguments datetime_of_date : simpl never.

Lemma DAY_pos : 0 < DAY.
Proof. reflexivity. Qed.

Lemma to_date_add_days (t days : Z) : to_date (t + timedelta days) = to_date t + days.
Proof. unfold to_date, timedelta. apply Z.div_add. discriminate. Qed.

Lemma replace_midnight_add_days (t days : Z) :
  replace_midnight (t + timedelta days) = datetime_of_date (to_date t + days).
Proof. unfold replace_midnight. now rewrite to_date_add_days. Qed.

Lemma datetime_of_date_succ (d : Z) :
  datetime_of_date d + timedelta 1 = datetime_of_date (d + 1).
Proof. unfold datetime_of_date, timedelta. lia. Qed.

Lemma datetime_of_date_sub_days (d days : Z) :
  datetime_of_date d - timedelta days = datetime_of_date (d - days).
Proof. unfold datetime_of_date, timedelta. lia. Qed.

Lemma to_date_lt (t d : Z) : to_date t < d ↔ t < datetime_of_date d.
Proof.
  unfold to_date, datetime_of_date. pose proof DAY_pos as HD.
  pose proof (Z.div_mod t DAY ltac:(lia)) as Hq.
  pose proof (Z.mod_pos_bound t DAY HD) as Hr.
  split; intros H; nia.
Qed.

Lemma to_date_ge (t d : Z) : d ≤ to_date t ↔ datetime_of_date d ≤ t.
Proof. pose proof (to_date_lt t d). lia. Qed.

(** A datetime lies in the window of one calendar day exactly when that
    day is its date. *)
Lemma in_day_window (t d : Z) :
  datetime_of_date d ≤ t < datetime_of_date (d + 1) ↔ to_date t = d.
Proof. pose proof (to_date_lt t (d + 1)). pose proof (to_date_ge t d). lia. Qed.

(** ** The selections *)

Lemma activated_in_window_spec (d : DB) (u : N) (ws we : Z) (l : License) :
  activated_in_window d u ws we l = true ↔
    status l = ACTIVATED
    ∧ ∃ p a, plan_of d l = Some p
        ∧ customer_agreements d !! customer_agreement p = Some a
        ∧ enterprise_customer_uuid a = u
        ∧ ws ≤ expiration_date p < we.
Proof.
  unfold activated_in_window, agreement_of.
  rewrite !andb_true_iff, !bool_decide_eq_true.
  destruct (plan_of d l) as [p|]; simpl.
  - rewrite !bool_decide_eq_true. split.
    + intros [[[Hs Ha] H1] H2].
      destruct (customer_agreements d !! customer_agreement p) as [a|] eqn:E;
        simpl in Ha; [|discriminate].
      split; [done|]. exists p, a. repeat split; try done. congruence.
    + intros [Hs (p' & a & Hp & Ha & Hu & H1 & H2)].
      injection Hp as <-. rewrite Ha. simpl. repeat split; try done. congruence.
  - split.
    + intros [[[_ Ha] _] _]. discriminate.
    + intros [_ (p & a & Hp & _)]. discriminate.
Qed.

Lemma expiring_spec (d : DB) (u : N) (ws we : Z) (l : License) :
  Reminders.expiring d u ws we l = true ↔
    status l = ACTIVATED
    ∧ (∃ p a, plan_of d l = Some p
        ∧ customer_agreements d !! customer_agreement p = Some a
        ∧ enterprise_customer_uuid a = u
        ∧ ws ≤ expiration_date p < we)
    ∧ expiration_reminder_sent_date l = None.
Proof.
  unfold Reminders.expiring.
  rewrite andb_true_iff, bool_decide_eq_true, activated_in_window_spec. tauto.
Qed.

Lemma recently_expired_spec (d : DB) (u : N) (ws we : Z) (l : License) :
  PlanExpiration.recently_expired d u ws we l = true ↔
    status l = ACTIVATED
    ∧ (∃ p a, plan_of d l = Some p
        ∧ customer_agreements d !! customer_agreement p = Some a
        ∧ enterprise_customer_uuid a = u
        ∧ ws ≤ expiration_date p < we)
    ∧ subscription_plan_expiration_email_sent_date l = None.
Proof.
  unfold PlanExpiration.recently_expired.
  rewrite andb_true_iff, bool_decide_eq_true, activated_in_window_spec. tauto.
Qed.

(** The rows of a table that pass a filter: distinct primary keys, and
    exactly the stored rows for which the filter holds. *)
Lemma table_filter_spec (P : License → bool) (m : gmap Z License) :
  NoDup (filter (λ row, P row.2) (map_to_list m)).*1
  ∧ ∀ pk l, (pk, l) ∈ filter (λ row : Z * License, P row.2) (map_to_list m)
            ↔ m !! pk = Some l ∧ P l = true.
Proof.
  split.
  - pose proof (NoDup_fst_map_to_list m) as Hnd.
    induction (map_to_list m) as [|[k x] rows IH]; simpl in *; [constructor|].
    apply NoDup_cons in Hnd as [Hk Hnd].
    rewrite filter_cons. simpl. destruct (decide (P x)) as [Hp|Hp]; [|by apply IH].
    simpl. apply NoDup_cons. split; [|by apply IH].
    intros Hin. apply Hk.
    apply list_elem_of_fmap in Hin as ([k' x'] & -> & Hin).
    apply list_elem_of_filter in Hin as [_ Hin].
    apply list_elem_of_fmap. by exists (k', x').
  - intros pk l. rewrite list_elem_of_filter, elem_of_map_to_list. simpl.
    rewrite Is_true_true. tauto.
Qed.

Lemma to_date_of_date (d : Z) : to_date (datetime_of_date d) = d.
Proof. unfold to_date, datetime_of_date. apply Z.div_mul. discriminate. Qed.

(** A datetime is in Python's range exactly when its day is. *)
Lemma datetime_in_range (t : Z) :
  datetime_min ≤ t ≤ datetime_max ↔ date_min ≤ to_date t ≤ date_max.
Proof.
  unfold datetime_min, datetime_max.
  pose proof (to_date_ge t date_min). pose proof (to_date_lt t (date_max + 1)). lia.
Qed.

Lemma timedelta_days_ok (days : Z) (w : World) :
  -999999999 ≤ days ≤ 999999999 → timedelta_days days w = (w, Ok (timedelta days)).
Proof. intros H. unfold timedelta_days. by rewrite bool_decide_eq_true_2. Qed.

Lemma timedelta_days_overflow (days : Z) (w : World) :
  ¬ -999999999 ≤ days ≤ 999999999 → timedelta_days days w = (w, Raise Exception_).
Proof. intros H. unfold timedelta_days. by rewrite bool_decide_eq_false_2. Qed.

Lemma datetime_add_ok (dt delta : Z) (w : World) :
  date_min ≤ to_date (dt + delta) ≤ date_max → datetime_add dt delta w = (w, Ok (dt + delta)).
Proof.
  intros H. unfold datetime_add. rewrite bool_decide_eq_true_2; [done|].
  by apply datetime_in_range.
Qed.

Lemma datetime_add_overflow (dt delta : Z) (w : World) :
  ¬ date_min ≤ to_date (dt + delta) ≤ date_max →
  datetime_add dt delta w = (w, Raise Exception_).
Proof.
  intros H. unfold datetime_add. rewrite bool_decide_eq_false_2; [done|].
  by rewrite datetime_in_range.
Qed.

Lemma datetime_sub_ok (dt delta : Z) (w : World) :
  date_min ≤ to_date (dt - delta) ≤ date_max → datetime_sub dt delta w = (w, Ok (dt - delta)).
Proof.
  intros H. unfold datetime_sub. rewrite bool_decide_eq_true_2; [done|].
  by apply datetime_in_range.
Qed.

Lemma datetime_sub_overflow (dt delta : Z) (w : World) :
  ¬ date_min ≤ to_date (dt - delta) ≤ date_max →
  datetime_sub dt delta w = (w, Raise Exception_).
Proof.
  intros H. unfold datetime_sub. rewrite bool_decide_eq_false_2; [done|].
  by rewrite datetime_in_range.
Qed.

Lemma get_expiring_licenses_eq (env : Env) (s : string) (u : N) (D : Z) (w : World) :
  uuid_UUID env s = Some u →
  expiring_window_in_range (localized_utcnow env (trace w)) D →
  Reminders._get_expiring_licenses env s D w =
    (mkWorld (db w) (trace w ++ [ClockRead]),
     Ok (filter (λ row : Z * License,
                   Reminders.expiring (db w) u
                     (datetime_of_date (to_date (localized_utcnow env (trace w)) + D))
                     (datetime_of_date (to_date (localized_utcnow env (trace w)) + D + 1))
                     row.2)
                (map_to_list (licenses (db w))))).
Proof.
  intros Hu (HD & Hlo & Hhi).
  unfold Reminders._get_expiring_licenses, mbind, M_bind, utcnow.
  rewrite timedelta_days_ok by done.
  rewrite datetime_add_ok by (rewrite to_date_add_days; lia).
  rewrite timedelta_days_ok by done.
  rewrite replace_midnight_add_days.
  rewrite datetime_add_ok by (rewrite datetime_of_date_succ, to_date_of_date; lia).
  unfold uuid_lookup_value. rewrite Hu. unfold_monad. simpl.
  by rewrite datetime_of_date_succ.
Qed.

(** Outside the range the date arithmetic raises [OverflowError], after the
    clock was read. *)
Lemma get_expiring_licenses_overflow (env : Env) (s : string) (D : Z) (w : World) :
  ¬ expiring_window_in_range (localized_utcnow env (trace w)) D →
  Reminders._get_expiring_licenses env s D w =
    (mkWorld (db w) (trace w ++ [ClockRead]), Raise Exception_).
Proof.
  intros Hout. unfold expiring_window_in_range in Hout.
  unfold Reminders._get_expiring_licenses, mbind, M_bind, utcnow.
  destruct (decide (-999999999 ≤ D ≤ 999999999)) as [HD|HD];
    [|by rewrite timedelta_days_overflow].
  rewrite timedelta_days_ok by done.
  destruct (decide (date_min ≤ to_date (localized_utcnow env (trace w)) + D ≤ date_max))
    as [Hday|Hday]; [|by rewrite datetime_add_overflow by (by rewrite to_date_add_days)].
  rewrite datetime_add_ok by (by rewrite to_date_add_days).
  rewrite timedelta_days_ok by done.
  rewrite replace_midnight_add_days.
  rewrite datetime_add_overflow; [done|].
  rewrite datetime_of_date_succ, to_date_of_date. lia.
Qed.

Lemma get_recently_expired_plan_licenses_eq (env : Env) (s : string) (u : N) (N_ : Z)
    (w : World) :
  uuid_UUID env s = Some u →
  recently_expired_window_in_range (localized_utcnow env (trace w)) N_ →
  PlanExpiration._get_recently_expired_plan_licenses env s N_ w =
    (mkWorld (db w) (trace w ++ [ClockRead]),
     Ok (filter (λ row : Z * License,
                   PlanExpiration.recently_expired (db w) u
                     (datetime_of_date (to_date (localized_utcnow env (trace w)) - N_))
                     (datetime_of_date (to_date (localized_utcnow env (trace w))))
                     row.2)
                (map_to_list (licenses (db w))))).
Proof.
  intros Hu (HN & Hday).
  unfold PlanExpiration._get_recently_expired_plan_licenses, mbind, M_bind, utcnow.
  rewrite timedelta_days_ok by done.
  unfold replace_midnight. fold (datetime_of_date (to_date (localized_utcnow env (trace w)))).
  rewrite datetime_sub_ok
    by (by rewrite datetime_of_date_sub_days, to_date_of_date).
  unfold uuid_lookup_value. rewrite Hu. unfold_monad. simpl.
  by rewrite datetime_of_date_sub_days.
Qed.

Lemma get_recently_expired_plan_licenses_overflow (env : Env) (s : string) (N_ : Z)
    (w : World) :
  ¬ recently_expired_window_in_range (localized_utcnow env (trace w)) N_ →
  PlanExpiration._get_recently_expired_plan_licenses env s N_ w =
    (mkWorld (db w) (trace w ++ [ClockRead]), Raise Exception_).
Proof.
  intros Hout. unfold recently_expired_window_in_range in Hout.
  unfold PlanExpiration._get_recently_expired_plan_licenses, mbind, M_bind, utcnow.
  destruct (decide (-999999999 ≤ N_ ≤ 999999999)) as [HN|HN];
    [|by rewrite timedelta_days_overflow].
  rewrite timedelta_days_ok by done.
  unfold replace_midnight. fold (datetime_of_date (to_date (localized_utcnow env (trace w)))).
  rewrite datetime_sub_overflow; [done|].
  rewrite datetime_of_date_sub_days, to_date_of_date. tauto.
Qed.

(** C1, within the range of [datetime].  For the string [s] of an
    enterprise customer UUID [u] and every number of days [D] for which the
    window exists (a [timedelta] holds [D] days, and the target day, [D]
    days after the current UTC time, and the day after it are days of the
    calendar of the years 1 to 9999), [_get_expiring_licenses] returns,
    each once, exactly the stored licenses that are ACTIVATED, belong to a
    plan whose customer agreement has the enterprise customer UUID [u],
    whose plan's expiration date lies in the calendar day [D] days after the
    current UTC time (from 00:00:00 of that day, inclusive, to 00:00:00 of
    the next day, exclusive), and whose [expiration_reminder_sent_date] is
    null.  The call reads the clock and leaves the tables alone.  For every
    other [D] the date arithmetic raises [OverflowError] after the clock was
    read, and no license is returned. *)
Theorem get_expiring_licenses_exact (env : Env) (w : World) (s : string) (u : N) (D : Z) :
  uuid_UUID env s = Some u →
  let now := localized_utcnow env (trace w) in
  let day := to_date now + D in
  (expiring_window_in_range now D →
   ∃ rows,
     Reminders._get_expiring_licenses env s D w
       = (mkWorld (db w) (trace w ++ [ClockRead]), Ok rows)
     ∧ NoDup rows.*1
     ∧ ∀ pk l, (pk, l) ∈ rows ↔
         licenses (db w) !! pk = Some l
         ∧ status l = ACTIVATED
         ∧ (∃ p a, subscription_plans (db w) !! subscription_plan l = Some p
              ∧ customer_agreements (db w) !! customer_agreement p = Some a
              ∧ enterprise_customer_uuid a = u
              ∧ datetime_of_date day ≤ expiration_date p < datetime_of_date (day + 1))
         ∧ expiration_reminder_sent_date l = None)
  ∧ (¬ expiring_window_in_range now D →
     Reminders._get_expiring_licenses env s D w
       = (mkWorld (db w) (trace w ++ [ClockRead]), Raise Exception_)).
Proof.
  intros Hu now day. split; [|apply get_expiring_licenses_overflow].
  intros Hrange. eexists. split; [by apply get_expiring_licenses_eq|].
  fold now day.
  destruct (table_filter_spec
              (Reminders.expiring (db w) u (datetime_of_date day) (datetime_of_date (day + 1)))
              (licenses (db w))) as [Hnd Hin].
  split; [exact Hnd|].
  intros pk l. rewrite Hin, expiring_spec. unfold plan_of. tauto.
Qed.

(** C5, within the range of [datetime].  For the string [s] of an
    enterprise customer UUID [u] and every number of days [N_] for which
    the window exists (a [timedelta] holds [N_] days, and the day [N_] days
    before today is a day of the calendar of the years 1 to 9999),
    [_get_recently_expired_plan_licenses] returns, each once, exactly the
    stored ACTIVATED licenses of that customer whose plan's expiration date
    is at or after 00:00:00 UTC of today minus [N_] days and strictly before
    00:00:00 UTC of today, and whose
    [subscription_plan_expiration_email_sent_date] is null.  The datetimes
    of that window are those of the [N_] calendar days before today, today
    excluded.  For every other [N_] the date arithmetic raises
    [OverflowError] after the clock was read, and no license is returned. *)
Theorem get_recently_expired_plan_licenses_exact (env : Env) (w : World) (s : string)
    (u : N) (N_ : Z) :
  uuid_UUID env s = Some u →
  let now := localized_utcnow env (trace w) in
  let today := to_date now in
  (recently_expired_window_in_range now N_ →
   ∃ rows,
     PlanExpiration._get_recently_expired_plan_licenses env s N_ w
       = (mkWorld (db w) (trace w ++ [ClockRead]), Ok rows)
     ∧ NoDup rows.*1
     ∧ ∀ pk l, (pk, l) ∈ rows ↔
         licenses (db w) !! pk = Some l
         ∧ status l = ACTIVATED
         ∧ (∃ p a, subscription_plans (db w) !! subscription_plan l = Some p
              ∧ customer_agreements (db w) !! customer_agreement p = Some a
              ∧ enterprise_customer_uuid a = u
              ∧ datetime_of_date today - timedelta N_ ≤ expiration_date p
                < datetime_of_date today)
         ∧ subscription_plan_expiration_email_sent_date l = None)
  ∧ (∀ t, datetime_of_date today - timedelta N_ ≤ t < datetime_of_date today
          ↔ today - N_ ≤ to_date t < today)
  ∧ (¬ recently_expired_window_in_range now N_ →
     PlanExpiration._get_recently_expired_plan_licenses env s N_ w
       = (mkWorld (db w) (trace w ++ [ClockRead]), Raise Exception_)).
Proof.
  intros Hu now today.
  split; [|split; [|apply get_recently_expired_plan_licenses_overflow]].
  - intros Hrange. eexists.
    split; [by apply get_recently_expired_plan_licenses_eq|].
    fold now today. rewrite datetime_of_date_sub_days.
    destruct (table_filter_spec
                (PlanExpiration.recently_expired (db w) u
                   (datetime_of_date (today - N_)) (datetime_of_date today))
                (licenses (db w))) as [Hnd Hin].
    split; [exact Hnd|].
    intros pk l. rewrite Hin, recently_expired_spec. unfold plan_of. tauto.
  - intros t. rewrite datetime_of_date_sub_days.
    pose proof (to_date_ge t (today - N_)). pose proof (to_date_lt t today). lia.
Qed.

(** ** The modules' functions have the common shape *)

Lemma reminders_send_loop_shape (env : Env) (ec : gmap string string)
    (rows : list (Z * License)) (sc fc : nat) (w : World) :
  Reminders.send_loop env ec rows sc fc w =
    send_loop_with (BRAZE_LICENSE_EXPIRATION_REMINDER_CAMPAIGN env)
      set_expiration_reminder_sent_date env ec rows sc fc w.
Proof.
  revert sc fc w. induction rows as [|[pk obj] rest IH]; intros sc fc w; [done|].
  simpl. unfold send_and_mark, Reminders._send_expiration_reminder_email, send_email_with.
  unfold_monad. simpl.
  repeat case_match; simplify_eq; by rewrite ?IH.
Qed.

Lemma plan_expiration_send_loop_shape (env : Env) (ec : gmap string string)
    (rows : list (Z * License)) (sc fc : nat) (w : World) :
  PlanExpiration.send_loop env ec rows sc fc w =
    send_loop_with (BRAZE_SUBSCRIPTION_PLAN_EXPIRATION_CAMPAIGN env)
      set_subscription_plan_expiration_email_sent_date env ec rows sc fc w.
Proof.
  revert sc fc w. induction rows as [|[pk obj] rest IH]; intros sc fc w; [done|].
  simpl. unfold send_and_mark, PlanExpiration._send_subscription_expiration_email, send_email_with.
  unfold_monad. simpl.
  repeat case_match; simplify_eq; by rewrite ?IH.
Qed.

Lemma reminders_process_shape (env : Env) (u : string) (D : Z) (dry_run : bool) (w : World) :
  Reminders._process_enterprise_customer env u D dry_run w =
    process_with (Reminders._get_expiring_licenses env u D)
      (BRAZE_LICENSE_EXPIRATION_REMINDER_CAMPAIGN env)
      set_expiration_reminder_sent_date env u dry_run w.
Proof.
  unfold Reminders._process_enterprise_customer, process_with, mbind, M_bind.
  destruct (emit _ w) as [w1 [[]|e]]; [|done].
  destruct (Reminders._get_expiring_licenses env u D w1) as [w2 [[|row rows]|e]]; try done.
  destruct dry_run; [done|].
  destruct (call_enterprise_api env u w2) as [w3 [ec|e]]; [|done].
  apply reminders_send_loop_shape.
Qed.

Lemma plan_expiration_process_shape (env : Env) (u : string) (D : Z) (dry_run : bool)
    (w : World) :
  PlanExpiration._process_enterprise_customer env u D dry_run w =
    process_with (PlanExpiration._get_recently_expired_plan_licenses env u D)
      (BRAZE_SUBSCRIPTION_PLAN_EXPIRATION_CAMPAIGN env)
      set_subscription_plan_expiration_email_sent_date env u dry_run w.
Proof.
  unfold PlanExpiration._process_enterprise_customer, process_with, mbind, M_bind.
  destruct (emit _ w) as [w1 [[]|e]]; [|done].
  destruct (PlanExpiration._get_recently_expired_plan_licenses env u D w1)
    as [w2 [[|row rows]|e]]; try done.
  destruct dry_run; [done|].
  destruct (call_enterprise_api env u w2) as [w3 [ec|e]]; [|done].
  apply plan_expiration_send_loop_shape.
Qed.

Lemma reminders_selects (env : Env) (s : string) (D : Z) :
  selects expiration_reminder_sent_date (Reminders._get_expiring_licenses env s D).
Proof.
  intros w.
  destruct (decide (expiring_window_in_range (localized_utcnow env (trace w)) D))
    as [Hrange|Hrange];
    [|exists (Raise Exception_); split; [by apply get_expiring_licenses_overflow|done]].
  destruct (uuid_UUID env s) as [u|] eqn:Hu.
  - pose proof (get_expiring_licenses_eq env s u D w Hu Hrange) as Heq.
    destruct (table_filter_spec
                (Reminders.expiring (db w) u
                   (datetime_of_date (to_date (localized_utcnow env (trace w)) + D))
                   (datetime_of_date (to_date (localized_utcnow env (trace w)) + D + 1)))
                (licenses (db w))) as [Hnd Hin].
    eexists. split; [exact Heq|]. intros ? [= <-]. split; [done|].
    intros pk l Hrow. apply Hin in Hrow as [? Hrow]. apply expiring_spec in Hrow. tauto.
  - exists (Raise Exception_). split; [|done].
    destruct Hrange as (HD & Hlo & Hhi).
    unfold Reminders._get_expiring_licenses, mbind, M_bind, utcnow.
    rewrite timedelta_days_ok by done.
    rewrite datetime_add_ok by (rewrite to_date_add_days; lia).
    rewrite timedelta_days_ok by done.
    rewrite replace_midnight_add_days.
    rewrite datetime_add_ok by (rewrite datetime_of_date_succ, to_date_of_date; lia).
    unfold uuid_lookup_value. by rewrite Hu.
Qed.

Lemma plan_expiration_selects (env : Env) (s : string) (D : Z) :
  selects subscription_plan_expiration_email_sent_date
    (PlanExpiration._get_recently_expired_plan_licenses env s D).
Proof.
  intros w.
  destruct (decide (recently_expired_window_in_range (localized_utcnow env (trace w)) D))
    as [Hrange|Hrange];
    [|exists (Raise Exception_); split;
      [by apply get_recently_expired_plan_licenses_overflow|done]].
  destruct (uuid_UUID env s) as [u|] eqn:Hu.
  - pose proof (get_recently_expired_plan_licenses_eq env s u D w Hu Hrange) as Heq.
    destruct (table_filter_spec
                (PlanExpiration.recently_expired (db w) u
                   (datetime_of_date (to_date (localized_utcnow env (trace w)) - D))
                   (datetime_of_date (to_date (localized_utcnow env (trace w)))))
                (licenses (db w))) as [Hnd Hin].
    eexists. split; [exact Heq|]. intros ? [= <-]. split; [done|].
    intros pk l Hrow. apply Hin in Hrow as [? Hrow].
    apply recently_expired_spec in Hrow. tauto.
  - exists (Raise Exception_). split; [|done].
    destruct Hrange as (HN & Hday).
    unfold PlanExpiration._get_recently_expired_plan_licenses, mbind, M_bind, utcnow.
    rewrite timedelta_days_ok by done.
    unfold replace_midnight.
    fold (datetime_of_date (to_date (localized_utcnow env (trace w)))).
    rewrite datetime_sub_ok by (by rewrite datetime_of_date_sub_days, to_date_of_date).
    unfold uuid_lookup_value. by rewrite Hu.
Qed.

(** The outcomes of the selections: the rows, or an exception that is not
    a [ValueError]. *)
Lemma get_expiring_licenses_invalid (env : Env) (s : string) (D : Z) (w : World) :
  uuid_UUID env s = None →
  Reminders._get_expiring_licenses env s D w =
    (mkWorld (db w) (trace w ++ [ClockRead]), Raise Exception_).
Proof.
  intros Hu.
  destruct (decide (expiring_window_in_range (localized_utcnow env (trace w)) D))
    as [(HD & Hlo & Hhi)|Hrange]; [|by apply get_expiring_licenses_overflow].
  unfold Reminders._get_expiring_licenses, mbind, M_bind, utcnow.
  rewrite timedelta_days_ok by done.
  rewrite datetime_add_ok by (rewrite to_date_add_days; lia).
  rewrite timedelta_days_ok by done.
  rewrite replace_midnight_add_days.
  rewrite datetime_add_ok by (rewrite datetime_of_date_succ, to_date_of_date; lia).
  unfold uuid_lookup_value. by rewrite Hu.
Qed.

Lemma get_recently_expired_plan_licenses_invalid (env : Env) (s : string) (N_ : Z)
    (w : World) :
  uuid_UUID env s = None →
  PlanExpiration._get_recently_expired_plan_licenses env s N_ w =
    (mkWorld (db w) (trace w ++ [ClockRead]), Raise Exception_).
Proof.
  intros Hu.
  destruct (decide (recently_expired_window_in_range (localized_utcnow env (trace w)) N_))
    as [(HN & Hday)|Hrange]; [|by apply get_recently_expired_plan_licenses_overflow].
  unfold PlanExpiration._get_recently_expired_plan_licenses, mbind, M_bind, utcnow.
  rewrite timedelta_days_ok by done.
  unfold replace_midnight.
  fold (datetime_of_date (to_date (localized_utcnow env (trace w)))).
  rewrite datetime_sub_ok by (by rewrite datetime_of_date_sub_days, to_date_of_date).
  unfold uuid_lookup_value. by rewrite Hu.
Qed.

(** When a selection returns rows, the customer's string is a UUID, the
    window exists, and the rows are the filtered table. *)
Lemma get_expiring_licenses_inv (env : Env) (s : string) (D : Z) (w : World)
    (rows : list (Z * License)) :
  (Reminders._get_expiring_licenses env s D w).2 = Ok rows →
  ∃ u, uuid_UUID env s = Some u
    ∧ expiring_window_in_range (localized_utcnow env (trace w)) D
    ∧ rows = filter (λ row : Z * License,
                       Reminders.expiring (db w) u
                         (datetime_of_date (to_date (localized_utcnow env (trace w)) + D))
                         (datetime_of_date (to_date (localized_utcnow env (trace w)) + D + 1))
                         row.2)
                    (map_to_list (licenses (db w))).
Proof.
  intros Hrows.
  destruct (decide (expiring_window_in_range (localized_utcnow env (trace w)) D))
    as [Hrange|Hrange]; [|by rewrite get_expiring_licenses_overflow in Hrows].
  destruct (uuid_UUID env s) as [u|] eqn:Hu;
    [|by rewrite get_expiring_licenses_invalid in Hrows].
  rewrite (get_expiring_licenses_eq env s u D w Hu Hrange) in Hrows.
  injection Hrows as <-. by exists u.
Qed.

Lemma get_recently_expired_plan_licenses_inv (env : Env) (s : string) (N_ : Z) (w : World)
    (rows : list (Z * License)) :
  (PlanExpiration._get_recently_expired_plan_licenses env s N_ w).2 = Ok rows →
  ∃ u, uuid_UUID env s = Some u
    ∧ recently_expired_window_in_range (localized_utcnow env (trace w)) N_
    ∧ rows = filter (λ row : Z * License,
                       PlanExpiration.recently_expired (db w) u
                         (datetime_of_date (to_date (localized_utcnow env (trace w)) - N_))
                         (datetime_of_date (to_date (localized_utcnow env (trace w))))
                         row.2)
                    (map_to_list (licenses (db w))).
Proof.
  intros Hrows.
  destruct (decide (recently_expired_window_in_range (localized_utcnow env (trace w)) N_))
    as [Hrange|Hrange]; [|by rewrite get_recently_expired_plan_licenses_overflow in Hrows].
  destruct (uuid_UUID env s) as [u|] eqn:Hu;
    [|by rewrite get_recently_expired_plan_licenses_invalid in Hrows].
  rewrite (get_recently_expired_plan_licenses_eq env s u N_ w Hu Hrange) in Hrows.
  injection Hrows as <-. by exists u.
Qed.

Lemma get_expiring_licenses_raises (env : Env) (s : string) (D : Z) (w : World) (e : exn) :
  (Reminders._get_expiring_licenses env s D w).2 = Raise e → e = Exception_.
Proof.
  destruct (decide (expiring_window_in_range (localized_utcnow env (trace w)) D))
    as [Hrange|Hrange]; [|rewrite get_expiring_licenses_overflow by done; cbn; congruence].
  destruct (uuid_UUID env s) as [u|] eqn:Hu;
    [|rewrite get_expiring_licenses_invalid by done; cbn; congruence].
  by rewrite (get_expiring_licenses_eq env s u D w Hu Hrange).
Qed.

Lemma get_recently_expired_plan_licenses_raises (env : Env) (s : string) (N_ : Z)
    (w : World) (e : exn) :
  (PlanExpiration._get_recently_expired_plan_licenses env s N_ w).2 = Raise e →
  e = Exception_.
Proof.
  destruct (decide (recently_expired_window_in_range (localized_utcnow env (trace w)) N_))
    as [Hrange|Hrange];
    [|rewrite get_recently_expired_plan_licenses_overflow by done; cbn; congruence].
  destruct (uuid_UUID env s) as [u|] eqn:Hu;
    [|rewrite get_recently_expired_plan_licenses_invalid by done; cbn; congruence].
  by rewrite (get_recently_expired_plan_licenses_eq env s u N_ w Hu Hrange).
Qed.

(** ** Counting events *)

Lemma emails_sent_app (pk : Z) (tr1 tr2 : list Event) :
  emails_sent pk (tr1 ++ tr2) = (emails_sent pk tr1 + emails_sent pk tr2)%nat.
Proof. apply count_occ_app. Qed.

Lemma emails_sent_cons (pk : Z) (e : Event) (tr : list Event) :
  emails_sent pk (e :: tr) =
    ((if decide (e = CampaignMessage pk None) then 1 else 0) + emails_sent pk tr)%nat.
Proof.
  unfold emails_sent. simpl.
  destruct (Event_eq_dec e (CampaignMessage pk None)), (decide (e = CampaignMessage pk None));
    done.
Qed.

Lemma send_raised_app (pk : Z) (e : exn) (tr1 tr2 : list Event) :
  send_raised pk e (tr1 ++ tr2) ↔ send_raised pk e tr1 ∨ send_raised pk e tr2.
Proof. unfold send_raised. rewrite !elem_of_app. tauto. Qed.

Lemma failed_sends_app (tr1 tr2 : list Event) :
  failed_sends (tr1 ++ tr2) = (failed_sends tr1 + failed_sends tr2)%nat.
Proof. unfold failed_sends. by rewrite List.filter_app, length_app. Qed.

Lemma processed_app (tr1 tr2 : list Event) :
  processed (tr1 ++ tr2) = processed tr1 ++ processed tr2.
Proof. apply omap_app. Qed.

(** ** One license: send, then mark *)

(** No Braze call of a short list of events raised, contrary to a
    hypothesis. *)
Ltac absurd_raise :=
  match goal with
  | H : send_raised _ _ _ |- _ =>
      exfalso; destruct H as [H|H];
      repeat (apply elem_of_cons in H as [H|H]; [by simplify_eq|]);
      by apply elem_of_nil in H
  end.

(** The emails sent in a short list of events. *)
Ltac count_sent :=
  rewrite !emails_sent_cons; repeat case_decide; simplify_eq; done.

(** No Braze call of a short list of events raised for the license. *)
Ltac not_raised :=
  try (intros ? [Hin|Hin];
       repeat (apply elem_of_cons in Hin as [Hin|Hin]; [by simplify_eq|]);
       by apply elem_of_nil in Hin).

Section SendAndMark.

Context (marker : License → option Z) (mark : option Z → License → License).
Hypothesis marker_mark : ∀ v l, marker (mark v l) = v.
Context (campaign : option string) (env : Env) (ec : gmap string string).

(** What one pass through the body of the loop does, for a license whose
    row is stored: the events it adds, and the only change to the tables,
    made exactly when the campaign message was accepted. *)
Lemma send_and_mark_effect (pk : Z) (obj l : License) (w : World) :
  licenses (db w) !! pk = Some l →
  ∃ evs,
    trace (send_and_mark campaign mark env ec (pk, obj) w).1 = trace w ++ evs
    ∧ processed evs = []
    ∧ (∀ pk', pk' ≠ pk → emails_sent pk' evs = 0%nat ∧ ∀ e, ¬ send_raised pk' e evs)
    ∧ match (send_and_mark campaign mark env ec (pk, obj) w).2 with
      | Ok _ =>
          emails_sent pk evs = 1%nat ∧ failed_sends evs = 0%nat
          ∧ (∀ e, ¬ send_raised pk e evs)
          ∧ ∃ tr, db (send_and_mark campaign mark env ec (pk, obj) w).1
                  = mkDB (alter (mark (Some (localized_utcnow env tr))) pk (licenses (db w)))
                      (subscription_plans (db w)) (customer_agreements (db w))
      | Raise e =>
          db (send_and_mark campaign mark env ec (pk, obj) w).1 = db w
          ∧ emails_sent pk evs = 0%nat
          ∧ (e ≠ ValueError → failed_sends evs = 1%nat)
      end.
Proof.
  intros Hl. unfold send_and_mark, send_email_with. unfold_monad. simpl.
  destruct campaign as [[|c s]|]; simpl.
  1,3: exists [ClockRead]; repeat split; try done; not_raised.
  destruct (create_braze_alias_for_emails env _ _) as [e1|] eqn:E1; simpl.
  { exists [ClockRead; BrazeAliasCall pk (Some e1)].
    rewrite <- app_assoc. repeat split; try done; not_raised.
}
  destruct (send_campaign_message env _ _ _ _) as [e2|] eqn:E2; simpl.
  { exists [ClockRead; BrazeAliasCall pk None; CampaignMessage pk (Some e2)].
    rewrite <- !app_assoc. repeat split; try done; not_raised; count_sent. }
  rewrite Hl. simpl.
  exists [ClockRead; BrazeAliasCall pk None; CampaignMessage pk None; ClockRead].
  rewrite <- !app_assoc. repeat split; try done; not_raised; try count_sent.
  eauto.
Qed.

End SendAndMark.

(** ** The loop over the selected licenses *)

Section SendLoop.

Context (mark : option Z → License → License).
Context (campaign : option string) (env : Env) (ec : gmap string string).

Lemma send_loop_with_cons (row : Z * License) (rest : list (Z * License))
    (sc fc : nat) (w : World) :
  send_loop_with campaign mark env ec (row :: rest) sc fc w =
    match send_and_mark campaign mark env ec row w with
    | (w1, Ok _) => send_loop_with campaign mark env ec rest (S sc) fc w1
    | (w1, Raise ValueError) => (w1, Raise ValueError)
    | (w1, Raise _) => send_loop_with campaign mark env ec rest sc (S fc) w1
    end.
Proof.
  simpl. unfold mbind, M_bind, try, raise.
  by destruct (send_and_mark campaign mark env ec row w) as [w1 [[]|[]]].
Qed.

(** The effect of the whole loop, for rows with distinct keys that are
    stored: it adds Braze calls and clock reads to the trace, leaves plans
    and agreements alone, and for every license either leaves the row as it
    was and sends it no email, or (for a license of the loop, none of whose
    Braze calls raised) sends it one email and marks the row.  When the loop
    finishes, its failure count has grown by the number of Braze calls that
    raised. *)
Lemma send_loop_effect (rows : list (Z * License)) (sc fc : nat) (w : World) :
  NoDup rows.*1 →
  (∀ pk, pk ∈ rows.*1 → is_Some (licenses (db w) !! pk)) →
  ∃ evs,
    trace (send_loop_with campaign mark env ec rows sc fc w).1 = trace w ++ evs
    ∧ subscription_plans (db (send_loop_with campaign mark env ec rows sc fc w).1)
      = subscription_plans (db w)
    ∧ customer_agreements (db (send_loop_with campaign mark env ec rows sc fc w).1)
      = customer_agreements (db w)
    ∧ processed evs = []
    ∧ (∀ pk,
         (licenses (db (send_loop_with campaign mark env ec rows sc fc w).1) !! pk
            = licenses (db w) !! pk
          ∧ emails_sent pk evs = 0%nat
          ∧ (pk ∉ rows.*1 → ∀ e, ¬ send_raised pk e evs))
         ∨ (pk ∈ rows.*1
            ∧ emails_sent pk evs = 1%nat
            ∧ (∀ e, ¬ send_raised pk e evs)
            ∧ ∃ l tr, licenses (db w) !! pk = Some l
                ∧ licenses (db (send_loop_with campaign mark env ec rows sc fc w).1) !! pk
                  = Some (mark (Some (localized_utcnow env tr)) l)))
    ∧ (∀ c, (send_loop_with campaign mark env ec rows sc fc w).2 = Ok c →
            failure_count c = (fc + failed_sends evs)%nat).
Proof.
  revert sc fc w. induction rows as [|[pk0 obj] rest IH]; intros sc fc w Hnd Hex.
  { exists []. simpl. rewrite app_nil_r. repeat split; try done.
    - intros pk. left. repeat split; try done.
      intros _ e [Hin|Hin]; by apply elem_of_nil in Hin.
    - intros c [= <-]. simpl. unfold failed_sends. simpl. lia. }
  rewrite fmap_cons in Hnd. cbn [fst] in Hnd. apply NoDup_cons in Hnd as [Hpk0 Hnd].
  destruct (Hex pk0) as [l0 Hl0]; [apply list_elem_of_here|].
  destruct (send_and_mark_effect mark campaign env ec pk0 obj l0 w Hl0)
    as (evs1 & Htr1 & Hp1 & Hoth1 & Hres1).
  rewrite send_loop_with_cons.
  destruct (send_and_mark campaign mark env ec (pk0, obj) w) as [w1 r1]. cbn [fst snd] in *.
  (* the world after the first license *)
  assert (subscription_plans (db w1) = subscription_plans (db w)
          ∧ customer_agreements (db w1) = customer_agreements (db w)
          ∧ ∀ pk, pk ≠ pk0 → licenses (db w1) !! pk = licenses (db w) !! pk)
    as (Hplans1 & Hagr1 & Hlook1).
  { destruct r1 as [[]|e].
    - destruct Hres1 as (_ & _ & _ & tr & ->). simpl. repeat split; try done.
      intros pk Hne. by rewrite lookup_alter_ne.
    - destruct Hres1 as (-> & _). done. }
  assert (∀ pk, pk ∈ rest.*1 → is_Some (licenses (db w1) !! pk)) as Hex1.
  { intros pk Hin. rewrite Hlook1; [|by intros ->].
    apply Hex. by apply list_elem_of_further. }
  (* the first license itself, after its pass *)
  assert ((licenses (db w1) !! pk0 = licenses (db w) !! pk0
           ∧ emails_sent pk0 evs1 = 0%nat)
          ∨ (emails_sent pk0 evs1 = 1%nat ∧ (∀ e, ¬ send_raised pk0 e evs1)
             ∧ ∃ tr, licenses (db w1) !! pk0 = Some (mark (Some (localized_utcnow env tr)) l0)))
    as Hfirst.
  { destruct r1 as [[]|e].
    - right. destruct Hres1 as (? & _ & ? & tr & ->). simpl. repeat split; try done.
      exists tr. by rewrite lookup_alter_eq, Hl0.
    - left. by destruct Hres1 as (-> & ? & _). }
  (* the loop stops on a ValueError *)
  assert (r1 = Raise ValueError ∨ r1 ≠ Raise ValueError) as [->|Hr1]
    by (destruct r1 as [[]|[]]; (by left) || by right).
  { exists evs1. simpl. repeat split; try done.
    intros pk. left. destruct (decide (pk = pk0)) as [->|Hne].
    - destruct Hres1 as (-> & ? & _). repeat split; try done.
      intros Hnot. exfalso. apply Hnot. apply list_elem_of_here.
    - destruct (Hoth1 pk Hne). by rewrite Hlook1. }
  (* otherwise it goes on with the rest *)
  assert (∃ sc',
    match r1 with
    | Ok _ => send_loop_with campaign mark env ec rest (S sc) fc w1
    | Raise ValueError => (w1, Raise ValueError)
    | Raise _ => send_loop_with campaign mark env ec rest sc (S fc) w1
    end = send_loop_with campaign mark env ec rest sc' (fc + failed_sends evs1)%nat w1)
    as [sc' ->].
  { destruct r1 as [[]|e].
    - exists (S sc). destruct Hres1 as (_ & -> & _). by rewrite Nat.add_0_r.
    - exists sc. destruct Hres1 as (_ & _ & Hf). rewrite Hf by congruence.
      replace (fc + 1)%nat with (S fc) by lia. by destruct e. }
  destruct (IH sc' (fc + failed_sends evs1)%nat w1 Hnd Hex1)
    as (evs2 & Htr2 & Hplans2 & Hagr2 & Hp2 & Hrows2 & Hcount2).
  exists (evs1 ++ evs2). repeat split.
  - by rewrite Htr2, Htr1, app_assoc.
  - congruence.
  - congruence.
  - by rewrite processed_app, Hp1, Hp2.
  - intros pk. rewrite fmap_cons. cbn [fst].
    destruct (decide (pk = pk0)) as [->|Hne].
    + (* the first license: the rest of the loop does not concern it *)
      destruct (Hrows2 pk0) as [(Hl2 & Hs2 & Hr2)|(Hin & _)]; [|done].
      specialize (Hr2 Hpk0).
      destruct Hfirst as [(Hl1 & Hs1)|(Hs1 & Hr1' & tr & Hl1)].
      * left. repeat split.
        -- congruence.
        -- rewrite emails_sent_app. lia.
        -- intros Hnot. exfalso. apply Hnot. apply list_elem_of_here.
      * right. repeat split.
        -- apply list_elem_of_here.
        -- rewrite emails_sent_app. lia.
        -- intros e. rewrite send_raised_app. intros [?|?]; [by eapply Hr1'|by eapply Hr2].
        -- exists l0, tr. split; [done|]. congruence.
    + (* another license: the first pass does not concern it *)
      destruct (Hoth1 pk Hne) as [Hs1 Hr1'].
      destruct (Hrows2 pk) as [(Hl2 & Hs2 & Hr2)|(Hin & Hs2 & Hr2 & l & tr & Hl & Hl2)].
      * left. repeat split.
        -- rewrite Hl2. by apply Hlook1.
        -- rewrite emails_sent_app. lia.
        -- intros Hnot e. rewrite send_raised_app.
           intros [?|?]; [by eapply Hr1'|].
           eapply Hr2; [|done]. intros Hin. apply Hnot. by apply list_elem_of_further.
      * right. repeat split.
        -- by apply list_elem_of_further.
        -- rewrite emails_sent_app. lia.
        -- intros e. rewrite send_raised_app. intros [?|?]; [by eapply Hr1'|by eapply Hr2].
        -- exists l, tr. split; [|done]. by rewrite <- Hlook1.
  - intros c Hc. rewrite (Hcount2 c Hc), failed_sends_app. lia.
Qed.

End SendLoop.

(** ** One enterprise customer *)

Section Process.

Context (marker : License → option Z) (mark : option Z → License → License).
Context (select : M (list (Z * License))).
Hypothesis select_ok : selects marker select.
Context (campaign : option string) (env : Env).

(** Processing one customer, step by step. *)
Lemma process_with_eq (u : string) (dry_run : bool) (w : World) :
  process_with select campaign mark env u dry_run w =
    let w1 := mkWorld (db w) (trace w ++ [LogProcessing u; ClockRead]) in
    match (select (mkWorld (db w) (trace w ++ [LogProcessing u]))).2 with
    | Raise e => (w1, Raise e)
    | Ok [] => (w1, Ok (mkCounts 0 0))
    | Ok (row :: rows) =>
        if dry_run then (w1, Ok (mkCounts 0 0))
        else
          match get_enterprise_customer_data env (trace w1) u with
          | Ok ec =>
              send_loop_with campaign mark env ec (row :: rows) 0 0
                (mkWorld (db w) (trace w1 ++ [EnterpriseApiCall u None]))
          | Raise e =>
              (mkWorld (db w) (trace w1 ++ [EnterpriseApiCall u (Some e)]), Raise e)
          end
    end.
Proof.
  unfold process_with. unfold mbind at 1, M_bind at 1, emit. cbn [db trace].
  destruct (select_ok (mkWorld (db w) (trace w ++ [LogProcessing u]))) as (r & Hsel & _).
  unfold mbind at 1, M_bind at 1. rewrite Hsel. cbn [db trace snd].
  rewrite <- app_assoc. cbn [app].
  destruct r as [[|row rows]|e]; try done.
  destruct dry_run; [done|].
  unfold mbind, M_bind, call_enterprise_api. cbn [db trace].
  by destruct (get_enterprise_customer_data env _ u).
Qed.

(** The effect of processing one customer. *)
Lemma process_with_effect (u : string) (dry_run : bool) (w : World) :
  ∃ evs,
    trace (process_with select campaign mark env u dry_run w).1 = trace w ++ evs
    ∧ subscription_plans (db (process_with select campaign mark env u dry_run w).1)
      = subscription_plans (db w)
    ∧ customer_agreements (db (process_with select campaign mark env u dry_run w).1)
      = customer_agreements (db w)
    ∧ processed evs = [u]
    ∧ (∀ pk,
         (licenses (db (process_with select campaign mark env u dry_run w).1) !! pk
            = licenses (db w) !! pk
          ∧ emails_sent pk evs = 0%nat)
         ∨ (unmarked marker (db w) pk
            ∧ emails_sent pk evs = 1%nat
            ∧ ∃ l tr, licenses (db w) !! pk = Some l
                ∧ licenses (db (process_with select campaign mark env u dry_run w).1) !! pk
                  = Some (mark (Some (localized_utcnow env tr)) l)))
    ∧ (∀ pk e, send_raised pk e evs →
         unmarked marker (db w) pk
         ∧ licenses (db (process_with select campaign mark env u dry_run w).1) !! pk
           = licenses (db w) !! pk)
    ∧ (∀ c, (process_with select campaign mark env u dry_run w).2 = Ok c →
            failure_count c = failed_sends evs)
    ∧ (dry_run = true →
         db (process_with select campaign mark env u dry_run w).1 = db w
         ∧ evs = [LogProcessing u; ClockRead]).
Proof.
  rewrite process_with_eq. cbn zeta.
  destruct (select_ok (mkWorld (db w) (trace w ++ [LogProcessing u])))
    as (r & Hsel & Hrows).
  rewrite Hsel. cbn [db trace snd] in *.
  (* the ways to finish without sending *)
  assert (∀ r' : result Counts,
    (∀ c, r' = Ok c → failure_count c = 0%nat) →
    ∃ evs, trace (mkWorld (db w) (trace w ++ [LogProcessing u; ClockRead]), r').1
           = trace w ++ evs
      ∧ subscription_plans (db (mkWorld (db w) (trace w ++ [LogProcessing u; ClockRead]), r').1)
        = subscription_plans (db w)
      ∧ customer_agreements (db (mkWorld (db w) (trace w ++ [LogProcessing u; ClockRead]), r').1)
        = customer_agreements (db w)
      ∧ processed evs = [u]
      ∧ (∀ pk,
           (licenses (db (mkWorld (db w) (trace w ++ [LogProcessing u; ClockRead]), r').1) !! pk
              = licenses (db w) !! pk
            ∧ emails_sent pk evs = 0%nat)
           ∨ (unmarked marker (db w) pk
              ∧ emails_sent pk evs = 1%nat
              ∧ ∃ l tr, licenses (db w) !! pk = Some l
                  ∧ licenses (db (mkWorld (db w) (trace w ++ [LogProcessing u; ClockRead]), r').1)
                      !! pk
                    = Some (mark (Some (localized_utcnow env tr)) l)))
      ∧ (∀ pk e, send_raised pk e evs →
           unmarked marker (db w) pk
           ∧ licenses (db (mkWorld (db w) (trace w ++ [LogProcessing u; ClockRead]), r').1) !! pk
             = licenses (db w) !! pk)
      ∧ (∀ c, (mkWorld (db w) (trace w ++ [LogProcessing u; ClockRead]), r').2 = Ok c →
              failure_count c = failed_sends evs)
      ∧ (dry_run = true →
           db (mkWorld (db w) (trace w ++ [LogProcessing u; ClockRead]), r').1 = db w
           ∧ evs = [LogProcessing u; ClockRead])) as Hquiet.
  { intros r' Hr'. exists [LogProcessing u; ClockRead]. cbn [fst snd db trace].
    repeat split; try done; try absurd_raise.
    intros pk. left. split; [done|]. count_sent. }
  destruct r as [[|row rows]|e].
  - apply Hquiet. by intros c [= <-].
  - destruct dry_run.
    { apply Hquiet. by intros c [= <-]. }
    destruct (Hrows (row :: rows) eq_refl) as [Hnd Hstored].
    destruct (get_enterprise_customer_data env _ u) as [ec|e] eqn:Hapi.
    + (* the loop *)
      set (w3 := mkWorld (db w)
                   ((trace w ++ [LogProcessing u; ClockRead]) ++ [EnterpriseApiCall u None])).
      destruct (send_loop_effect mark campaign env ec (row :: rows) 0 0 w3 Hnd)
        as (evs & Htr & Hplans & Hagr & Hp & Hrows' & Hcount).
      { intros pk Hin. apply list_elem_of_fmap in Hin as ([pk' l] & -> & Hin).
        apply Hstored in Hin as [Hin _]. by exists l. }
      exists ([LogProcessing u; ClockRead; EnterpriseApiCall u None] ++ evs).
      repeat split; try done.
      * rewrite Htr. subst w3. cbn [trace]. by rewrite <- !app_assoc.
      * rewrite processed_app, Hp. done.
      * intros pk.
        destruct (Hrows' pk) as [(Hl & Hs & _)|(Hin & Hs & _ & l & tr & Hl & Hl')].
        -- left. split; [done|]. rewrite emails_sent_app, Hs. count_sent.
        -- right. apply list_elem_of_fmap in Hin as ([pk' l'] & Hpk & Hin).
           cbn [fst] in Hpk. subst pk'.
           apply Hstored in Hin as [Hin Hm].
           split; [by exists l'|]. split; [|by exists l, tr].
           rewrite emails_sent_app, Hs. count_sent.
      * apply send_raised_app in H as [H|H]; [exfalso; revert H; generalize e; not_raised|].
        destruct (Hrows' pk) as [(_ & _ & Hno)|(Hin & _ & Hno & _)].
        -- destruct (decide (pk ∈ (row :: rows).*1)) as [Hin|Hnin];
             [|by destruct (Hno Hnin e)].
           apply list_elem_of_fmap in Hin as ([pk' l'] & Hpk & Hin).
           cbn [fst] in Hpk. subst pk'.
           apply Hstored in Hin as [Hin Hm]. by exists l'.
        -- by destruct (Hno e).
      * apply send_raised_app in H as [H|H]; [exfalso; revert H; generalize e; not_raised|].
        destruct (Hrows' pk) as [(Hl & _)|(_ & _ & Hno & _)]; [done|by destruct (Hno e)].
    + (* the enterprise API raised *)
      exists [LogProcessing u; ClockRead; EnterpriseApiCall u (Some e)].
      cbn [fst snd db trace]. rewrite <- app_assoc.
      repeat split; try done; try absurd_raise.
      intros pk. left. split; [done|]. count_sent.
  - apply Hquiet. done.
Qed.

End Process.

(** ** The effect of each command on one customer *)

Lemma reminders_process_effect (env : Env) (u : string) (D : Z) (dry_run : bool) (w : World) :
  ∃ evs,
    trace (Reminders._process_enterprise_customer env u D dry_run w).1 = trace w ++ evs
    ∧ subscription_plans (db (Reminders._process_enterprise_customer env u D dry_run w).1)
      = subscription_plans (db w)
    ∧ customer_agreements (db (Reminders._process_enterprise_customer env u D dry_run w).1)
      = customer_agreements (db w)
    ∧ processed evs = [u]
    ∧ (∀ pk,
         (licenses (db (Reminders._process_enterprise_customer env u D dry_run w).1) !! pk
            = licenses (db w) !! pk
          ∧ emails_sent pk evs = 0%nat)
         ∨ (unmarked expiration_reminder_sent_date (db w) pk
            ∧ emails_sent pk evs = 1%nat
            ∧ ∃ l tr, licenses (db w) !! pk = Some l
                ∧ licenses (db (Reminders._process_enterprise_customer env u D dry_run w).1) !! pk
                  = Some (set_expiration_reminder_sent_date (Some (localized_utcnow env tr)) l)))
    ∧ (∀ pk e, send_raised pk e evs →
         unmarked expiration_reminder_sent_date (db w) pk
         ∧ licenses (db (Reminders._process_enterprise_customer env u D dry_run w).1) !! pk
           = licenses (db w) !! pk)
    ∧ (∀ c, (Reminders._process_enterprise_customer env u D dry_run w).2 = Ok c →
            failure_count c = failed_sends evs)
    ∧ (dry_run = true →
         db (Reminders._process_enterprise_customer env u D dry_run w).1 = db w
         ∧ evs = [LogProcessing u; ClockRead]).
Proof.
  rewrite reminders_process_shape.
  apply (process_with_effect expiration_reminder_sent_date), reminders_selects.
Qed.

Lemma plan_expiration_process_effect (env : Env) (u : string) (D : Z) (dry_run : bool)
    (w : World) :
  ∃ evs,
    trace (PlanExpiration._process_enterprise_customer env u D dry_run w).1 = trace w ++ evs
    ∧ subscription_plans (db (PlanExpiration._process_enterprise_customer env u D dry_run w).1)
      = subscription_plans (db w)
    ∧ customer_agreements (db (PlanExpiration._process_enterprise_customer env u D dry_run w).1)
      = customer_agreements (db w)
    ∧ processed evs = [u]
    ∧ (∀ pk,
         (licenses (db (PlanExpiration._process_enterprise_customer env u D dry_run w).1) !! pk
            = licenses (db w) !! pk
          ∧ emails_sent pk evs = 0%nat)
         ∨ (unmarked subscription_plan_expiration_email_sent_date (db w) pk
            ∧ emails_sent pk evs = 1%nat
            ∧ ∃ l tr, licenses (db w) !! pk = Some l
                ∧ licenses (db (PlanExpiration._process_enterprise_customer env u D dry_run w).1)
                    !! pk
                  = Some (set_subscription_plan_expiration_email_sent_date
                            (Some (localized_utcnow env tr)) l)))
    ∧ (∀ pk e, send_raised pk e evs →
         unmarked subscription_plan_expiration_email_sent_date (db w) pk
         ∧ licenses (db (PlanExpiration._process_enterprise_customer env u D dry_run w).1) !! pk
           = licenses (db w) !! pk)
    ∧ (∀ c, (PlanExpiration._process_enterprise_customer env u D dry_run w).2 = Ok c →
            failure_count c = failed_sends evs)
    ∧ (dry_run = true →
         db (PlanExpiration._process_enterprise_customer env u D dry_run w).1 = db w
         ∧ evs = [LogProcessing u; ClockRead]).
Proof.
  rewrite plan_expiration_process_shape.
  apply (process_with_effect subscription_plan_expiration_email_sent_date),
    plan_expiration_selects.
Qed.

(** ** The loop over the customers *)

Lemma sum_list_cons (x : nat) (l : list nat) : sum_list (x :: l) = (x + sum_list l)%nat.
Proof. reflexivity. Qed.

(** As long as no customer's processing raises [ValueError], the loop
    processes every customer and adds up what each contributes. *)
Lemma reminders_customers_loop (env : Env) (D : Z) (dry_run : bool) (uuids : list string)
    (ts tf : nat) (w : World) :
  Raise ValueError ∉
    customer_results (λ u, Reminders._process_enterprise_customer env u D dry_run) uuids w →
  Reminders.customers_loop env D dry_run uuids ts tf w =
    (after_customers (λ u, Reminders._process_enterprise_customer env u D dry_run) uuids w,
     Ok ((ts + sum_list (successes_of <$>
            customer_results (λ u, Reminders._process_enterprise_customer env u D dry_run)
              uuids w))%nat,
         (tf + sum_list (failures_of <$>
            customer_results (λ u, Reminders._process_enterprise_customer env u D dry_run)
              uuids w))%nat)).
Proof.
  revert ts tf w. induction uuids as [|u rest IH]; intros ts tf w Hno.
  { simpl. by rewrite !Nat.add_0_r. }
  cbn [customer_results after_customers] in *.
  apply not_elem_of_cons in Hno as [Hu Hno].
  cbn [Reminders.customers_loop]. unfold mbind at 1, M_bind at 1, try.
  destruct (Reminders._process_enterprise_customer env u D dry_run w) as [w1 [c|e]];
    cbn [fst snd] in *.
  - rewrite IH by done. rewrite !fmap_cons, !sum_list_cons. cbn [successes_of failures_of].
    do 3 f_equal; lia.
  - destruct e; [done| |]; rewrite IH by done;
      rewrite !fmap_cons, !sum_list_cons; cbn [successes_of failures_of];
      do 3 f_equal; lia.
Qed.

Lemma plan_expiration_customers_loop (env : Env) (D : Z) (dry_run : bool)
    (uuids : list string) (ts tf ef : nat) (w : World) :
  Raise ValueError ∉
    customer_results (λ u, PlanExpiration._process_enterprise_customer env u D dry_run)
      uuids w →
  ∃ tf' ef',
    PlanExpiration.customers_loop env D dry_run uuids ts tf ef w =
      (after_customers (λ u, PlanExpiration._process_enterprise_customer env u D dry_run)
         uuids w,
       Ok ((ts + sum_list (successes_of <$>
              customer_results (λ u, PlanExpiration._process_enterprise_customer env u D dry_run)
                uuids w))%nat,
           tf', ef'))
    ∧ (tf' + ef' = tf + ef + sum_list (failures_of <$>
         customer_results (λ u, PlanExpiration._process_enterprise_customer env u D dry_run)
           uuids w))%nat.
Proof.
  revert ts tf ef w. induction uuids as [|u rest IH]; intros ts tf ef w Hno.
  { exists tf, ef. simpl. rewrite !Nat.add_0_r. done. }
  cbn [customer_results after_customers] in *.
  apply not_elem_of_cons in Hno as [Hu Hno].
  cbn [PlanExpiration.customers_loop]. unfold mbind at 1, M_bind at 1, try.
  destruct (PlanExpiration._process_enterprise_customer env u D dry_run w) as [w1 [c|e]];
    cbn [fst snd] in *.
  - destruct (IH (ts + success_count c)%nat (tf + failure_count c)%nat ef w1 Hno)
      as (tf' & ef' & -> & Hsum).
    exists tf', ef'.
    rewrite !fmap_cons, !sum_list_cons. cbn [successes_of failures_of] in *.
    split; [do 4 f_equal; lia|lia].
  - assert (e ≠ ValueError) as He by congruence.
    destruct (IH ts tf (ef + 1)%nat w1 Hno) as (tf' & ef' & Heq & Hsum).
    exists tf', ef'.
    rewrite !fmap_cons, !sum_list_cons. cbn [successes_of failures_of] in *.
    split; [|lia]. destruct e; [done| |]; rewrite Heq; do 4 f_equal; lia.
Qed.

(** A property of worlds that processing a customer preserves is preserved
    by the loops and by the commands. *)
Lemma reminders_customers_loop_preserves (P : World → Prop) (env : Env) (D : Z)
    (dry_run : bool) (uuids : list string) (ts tf : nat) (w : World) :
  (∀ u w, P w → P (Reminders._process_enterprise_customer env u D dry_run w).1) →
  P w → P (Reminders.customers_loop env D dry_run uuids ts tf w).1.
Proof.
  intros Hproc. revert ts tf w. induction uuids as [|u rest IH]; intros ts tf w Hw; [done|].
  cbn [Reminders.customers_loop]. unfold mbind at 1, M_bind at 1, try.
  specialize (Hproc u w Hw).
  destruct (Reminders._process_enterprise_customer env u D dry_run w) as [w1 [c|e]];
    cbn [fst] in *.
  - by apply IH.
  - destruct e; [done| |]; by apply IH.
Qed.

Lemma plan_expiration_customers_loop_preserves (P : World → Prop) (env : Env) (D : Z)
    (dry_run : bool) (uuids : list string) (ts tf ef : nat) (w : World) :
  (∀ u w, P w → P (PlanExpiration._process_enterprise_customer env u D dry_run w).1) →
  P w → P (PlanExpiration.customers_loop env D dry_run uuids ts tf ef w).1.
Proof.
  intros Hproc. revert ts tf ef w.
  induction uuids as [|u rest IH]; intros ts tf ef w Hw; [done|].
  cbn [PlanExpiration.customers_loop]. unfold mbind at 1, M_bind at 1, try.
  specialize (Hproc u w Hw).
  destruct (PlanExpiration._process_enterprise_customer env u D dry_run w) as [w1 [c|e]];
    cbn [fst] in *.
  - by apply IH.
  - destruct e; [done| |]; by apply IH.
Qed.

Lemma reminders_handle_preserves (P : World → Prop) (env : Env) (options : Options)
    (w : World) :
  (∀ u w, P w →
     P (Reminders._process_enterprise_customer env u (opt_days options)
          (opt_dry_run options) w).1) →
  P w → P (Reminders.handle env options w).1.
Proof.
  intros Hproc Hw. unfold Reminders.handle.
  destruct (_parse_enterprise_customer_uuids env _) as [[|u uuids]|e]; try done.
  unfold mbind, M_bind.
  pose proof (reminders_customers_loop_preserves P env (opt_days options)
                (opt_dry_run options) (u :: uuids) 0 0 w Hproc Hw) as H.
  destruct (Reminders.customers_loop _ _ _ _ _ _ w) as [w1 [[ts tf]|e]]; [|done].
  cbn [fst snd] in *. by case_bool_decide.
Qed.

Lemma plan_expiration_handle_preserves (P : World → Prop) (env : Env) (options : Options)
    (w : World) :
  (∀ u w, P w →
     P (PlanExpiration._process_enterprise_customer env u (opt_days options)
          (opt_dry_run options) w).1) →
  P w → P (PlanExpiration.handle env options w).1.
Proof.
  intros Hproc Hw. unfold PlanExpiration.handle.
  destruct (_parse_enterprise_customer_uuids env _) as [[|u uuids]|e]; try done.
  unfold mbind, M_bind.
  pose proof (plan_expiration_customers_loop_preserves P env (opt_days options)
                (opt_dry_run options) (u :: uuids) 0 0 0 w Hproc Hw) as H.
  destruct (PlanExpiration.customers_loop _ _ _ _ _ _ _ w) as [w1 [[[ts tf] ef]|e]]; [|done].
  cbn [fst snd] in *. by case_bool_decide.
Qed.

Lemma runs_preserves (P : World → Prop) (command : Env → Options → M unit)
    (script : list (Env * Options)) (w : World) :
  (∀ env options w, P w → P (command env options w).1) →
  P w → P (runs command script w).
Proof.
  intros Hcmd. revert w. induction script as [|[env options] rest IH]; intros w Hw; [done|].
  simpl. by apply IH, Hcmd.
Qed.

Lemma after_customers_processed (process : string → M Counts) (uuids : list string)
    (w : World) :
  (∀ u w, ∃ evs, trace (process u w).1 = trace w ++ evs ∧ processed evs = [u]) →
  processed (trace (after_customers process uuids w)) = processed (trace w) ++ uuids.
Proof.
  intros Hproc. revert w. induction uuids as [|u rest IH]; intros w.
  { by rewrite app_nil_r. }
  simpl. rewrite IH. destruct (Hproc u w) as (evs & -> & Hp).
  by rewrite processed_app, Hp, <- app_assoc.
Qed.

(** C3. When the reminder command is run for several enterprise customers
    and no customer's processing raises [ValueError], every customer is
    processed, in order, whatever the others did: the loop returns the sums
    of the customers' success counts and of their failure counts, a customer
    whose processing raised counting for one failure; the command then
    raises exactly when the total failure count is positive, and returns
    normally otherwise.  The plan expiration command does the same, its
    total being the sum of its two failure counters. *)
Theorem partial_failures_are_aggregated (env : Env) (s : string) (D : Z) (dry_run : bool)
    (w : World) (uuids : list string) :
  _parse_enterprise_customer_uuids env s = Ok uuids →
  uuids ≠ [] →
  (let process := λ u, Reminders._process_enterprise_customer env u D dry_run in
   let results := customer_results process uuids w in
   Raise ValueError ∉ results →
   Reminders.customers_loop env D dry_run uuids 0 0 w
     = (after_customers process uuids w,
        Ok (sum_list (successes_of <$> results), sum_list (failures_of <$> results)))
   ∧ processed (trace (after_customers process uuids w)) = processed (trace w) ++ uuids
   ∧ Reminders.handle env (mkOptions s D dry_run) w
     = (after_customers process uuids w,
        if bool_decide (0 < sum_list (failures_of <$> results))%nat
        then Raise Exception_ else Ok tt))
  ∧ (let process := λ u, PlanExpiration._process_enterprise_customer env u D dry_run in
     let results := customer_results process uuids w in
     Raise ValueError ∉ results →
     (∃ total_failure_count enterprise_level_failures,
        PlanExpiration.customers_loop env D dry_run uuids 0 0 0 w
          = (after_customers process uuids w,
             Ok (sum_list (successes_of <$> results),
                 total_failure_count, enterprise_level_failures))
        ∧ (total_failure_count + enterprise_level_failures
           = sum_list (failures_of <$> results))%nat)
     ∧ processed (trace (after_customers process uuids w)) = processed (trace w) ++ uuids
     ∧ PlanExpiration.handle env (mkOptions s D dry_run) w
       = (after_customers process uuids w,
          if bool_decide (0 < sum_list (failures_of <$> results))%nat
          then Raise Exception_ else Ok tt)).
Proof.
  intros Hparse Hne. split; intros process results Hno.
  - pose proof (reminders_customers_loop env D dry_run uuids 0 0 w Hno) as Hloop.
    fold process in Hloop. fold results in Hloop. cbn [Nat.add] in Hloop.
    split; [done|]. split.
    + apply after_customers_processed. intros u w0.
      destruct (reminders_process_effect env u D dry_run w0) as (evs & ? & _ & _ & ? & _).
      by exists evs.
    + unfold Reminders.handle. cbn [opt_enterprise_customer_uuid opt_days opt_dry_run].
      rewrite Hparse. destruct uuids as [|u rest]; [done|].
      unfold mbind, M_bind. rewrite Hloop. cbn [snd]. by case_bool_decide.
  - destruct (plan_expiration_customers_loop env D dry_run uuids 0 0 0 w Hno)
      as (tf & ef & Hloop & Hsum).
    fold process in Hloop, Hsum. fold results in Hloop, Hsum. cbn [Nat.add] in Hloop, Hsum.
    split; [by exists tf, ef|]. split.
    + apply after_customers_processed. intros u w0.
      destruct (plan_expiration_process_effect env u D dry_run w0)
        as (evs & ? & _ & _ & ? & _).
      by exists evs.
    + unfold PlanExpiration.handle. cbn [opt_enterprise_customer_uuid opt_days opt_dry_run].
      rewrite Hparse. destruct uuids as [|u rest]; [done|].
      unfold mbind, M_bind. rewrite Hloop. cbn [fst snd]. rewrite Hsum.
      by case_bool_decide.
Qed.

(** ** Markers and the idempotency invariant *)

Lemma evolves_refl (marker : License → option Z) (d : DB) : evolves marker d d.
Proof. repeat split. intros pk. by left. Qed.

Lemma evolves_trans (marker : License → option Z) (d1 d2 d3 : DB) :
  evolves marker d1 d2 → evolves marker d2 d3 → evolves marker d1 d3.
Proof.
  intros (Hp1 & Ha1 & H1) (Hp2 & Ha2 & H2). repeat split; [congruence..|].
  intros pk. destruct (H2 pk) as [Heq2|(l2 & l3 & t & Hl2 & Hl3 & Hm)].
  - rewrite Heq2. apply H1.
  - right. destruct (H1 pk) as [Heq1|(l1 & l2' & t' & Hl1 & _ & _)].
    + exists l2, l3, t. by rewrite <- Heq1.
    + by exists l1, l3, t.
Qed.

(** A marked license stays marked. *)
Lemma evolves_marked (marker : License → option Z) (d d' : DB) (pk : Z) (l : License)
    (t : Z) :
  evolves marker d d' →
  licenses d !! pk = Some l → marker l = Some t →
  ∃ l' t', licenses d' !! pk = Some l' ∧ marker l' = Some t'.
Proof.
  intros (_ & _ & H) Hl Hm. destruct (H pk) as [Heq|(l1 & l' & t' & _ & Hl' & Hm')].
  - exists l, t. by rewrite Heq.
  - by exists l', t'.
Qed.

Section Markers.

Context (marker : License → option Z) (mark : option Z → License → License).
Hypothesis marker_mark : ∀ v l, marker (mark v l) = v.
Context (select : M (list (Z * License))).
Hypothesis select_ok : selects marker select.
Context (campaign : option string) (env : Env).

Lemma process_with_evolves (u : string) (dry_run : bool) (w : World) :
  evolves marker (db w) (db (process_with select campaign mark env u dry_run w).1).
Proof.
  destruct (process_with_effect marker mark select select_ok campaign env u dry_run w)
    as (evs & _ & Hp & Ha & _ & Hrows & _).
  repeat split; [done..|].
  intros pk. destruct (Hrows pk) as [[Heq _]|(_ & _ & l & tr & Hl & Hl')]; [by left|].
  right. exists l, (mark (Some (localized_utcnow env tr)) l), (localized_utcnow env tr).
  by rewrite marker_mark.
Qed.

Lemma process_with_once_marked (u : string) (dry_run : bool) (w : World) :
  once_marked marker w →
  once_marked marker (process_with select campaign mark env u dry_run w).1.
Proof.
  intros Hw pk. destruct (Hw pk) as [Hle Hzero].
  destruct (process_with_effect marker mark select select_ok campaign env u dry_run w)
    as (evs & -> & _ & _ & _ & Hrows & _).
  rewrite emails_sent_app.
  destruct (Hrows pk) as [[Heq Hs]|(Hun & Hs & l & tr & Hl & Hl')].
  - rewrite Hs, Nat.add_0_r. split; [done|].
    intros (l & Hl & Hm). apply Hzero. exists l. by rewrite <- Heq.
  - rewrite Hs, (Hzero Hun). split; [done|].
    intros (l' & Hl'' & Hm). rewrite Hl' in Hl''. injection Hl'' as <-.
    by rewrite marker_mark in Hm.
Qed.

End Markers.

Lemma send_email_with_db (campaign : option string) (env : Env) (pk : Z) (obj : License)
    (ec : gmap string string) (w : World) :
  db (send_email_with campaign env pk obj ec w).1 = db w.
Proof.
  unfold send_email_with. unfold_monad. simpl.
  destruct campaign as [[|c s]|]; simpl; try done.
  repeat case_match; simplify_eq; done.
Qed.

(** After a successful send the loop goes on from the world in which the
    row is marked with the time read just after the send. *)
Lemma send_loop_with_sent (campaign : option string) (mark : option Z → License → License)
    (env : Env) (ec : gmap string string) (pk : Z) (obj l : License)
    (rest : list (Z * License)) (sc fc : nat) (w w1 : World) :
  licenses (db w) !! pk = Some l →
  send_email_with campaign env pk obj ec w = (w1, Ok tt) →
  send_loop_with campaign mark env ec ((pk, obj) :: rest) sc fc w =
    send_loop_with campaign mark env ec rest (S sc) fc
      (mkWorld
         (mkDB (alter (mark (Some (localized_utcnow env (trace w1)))) pk (licenses (db w)))
               (subscription_plans (db w)) (customer_agreements (db w)))
         (trace w1 ++ [ClockRead])).
Proof.
  intros Hl Hsend. rewrite send_loop_with_cons. unfold send_and_mark. cbn [fst snd].
  unfold mbind at 1, M_bind at 1. rewrite Hsend.
  pose proof (send_email_with_db campaign env pk obj ec w) as Hdb.
  rewrite Hsend in Hdb. cbn [fst] in Hdb.
  unfold_monad. cbn [db trace]. rewrite Hdb, Hl. done.
Qed.

(** After a send that raised anything but [ValueError] the loop goes on
    with one more failure, the tables being as they were. *)
Lemma send_loop_with_failed (campaign : option string) (mark : option Z → License → License)
    (env : Env) (ec : gmap string string) (pk : Z) (obj : License)
    (rest : list (Z * License)) (sc fc : nat) (w w1 : World) (e : exn) :
  send_email_with campaign env pk obj ec w = (w1, Raise e) →
  e ≠ ValueError →
  db w1 = db w
  ∧ send_loop_with campaign mark env ec ((pk, obj) :: rest) sc fc w =
      send_loop_with campaign mark env ec rest sc (S fc) w1.
Proof.
  intros Hsend He.
  pose proof (send_email_with_db campaign env pk obj ec w) as Hdb.
  rewrite Hsend in Hdb. split; [done|].
  rewrite send_loop_with_cons. unfold send_and_mark. cbn [fst snd].
  unfold mbind at 1, M_bind at 1. rewrite Hsend. by destruct e.
Qed.

Lemma once_marked_initial (marker : License → option Z) (d : DB) :
  once_marked marker (mkWorld d []).
Proof. intros pk. cbn. split; [lia|done]. Qed.

Lemma reminders_runs_once_marked (script : list (Env * Options)) (w : World) :
  once_marked expiration_reminder_sent_date w →
  once_marked expiration_reminder_sent_date (runs Reminders.handle script w).
Proof.
  apply runs_preserves. intros env options w0.
  apply reminders_handle_preserves. intros u w1 Hw1.
  rewrite reminders_process_shape.
  apply process_with_once_marked; [done|apply reminders_selects|done].
Qed.

Lemma plan_expiration_runs_once_marked (script : list (Env * Options)) (w : World) :
  once_marked subscription_plan_expiration_email_sent_date w →
  once_marked subscription_plan_expiration_email_sent_date
    (runs PlanExpiration.handle script w).
Proof.
  apply runs_preserves. intros env options w0.
  apply plan_expiration_handle_preserves. intros u w1 Hw1.
  rewrite plan_expiration_process_shape.
  apply process_with_once_marked; [done|apply plan_expiration_selects|done].
Qed.

Lemma reminders_runs_evolves (script : list (Env * Options)) (w : World) :
  evolves expiration_reminder_sent_date (db w) (db (runs Reminders.handle script w)).
Proof.
  apply (runs_preserves (λ w', evolves expiration_reminder_sent_date (db w) (db w')));
    [|apply evolves_refl].
  intros env options w0.
  apply (reminders_handle_preserves
           (λ w', evolves expiration_reminder_sent_date (db w) (db w'))).
  intros u w1 Hw1. eapply evolves_trans; [exact Hw1|].
  rewrite reminders_process_shape.
  apply process_with_evolves; [done|apply reminders_selects].
Qed.

Lemma plan_expiration_runs_evolves (script : list (Env * Options)) (w : World) :
  evolves subscription_plan_expiration_email_sent_date (db w)
    (db (runs PlanExpiration.handle script w)).
Proof.
  apply (runs_preserves
           (λ w', evolves subscription_plan_expiration_email_sent_date (db w) (db w')));
    [|apply evolves_refl].
  intros env options w0.
  apply (plan_expiration_handle_preserves
           (λ w', evolves subscription_plan_expiration_email_sent_date (db w) (db w'))).
  intros u w1 Hw1. eapply evolves_trans; [exact Hw1|].
  rewrite plan_expiration_process_shape.
  apply process_with_evolves; [done|apply plan_expiration_selects].
Qed.

(** A license whose marker is set is not among the rows a selection returns. *)
Lemma selects_skips_marked (marker : License → option Z) (select : M (list (Z * License)))
    (w : World) (pk : Z) (l : License) (t : Z) (rows : list (Z * License)) :
  selects marker select →
  licenses (db w) !! pk = Some l → marker l = Some t →
  (select w).2 = Ok rows → pk ∉ rows.*1.
Proof.
  intros Hsel Hl Hm Hrows Hin.
  destruct (Hsel w) as (r & Heq & Hspec). rewrite Heq in Hrows. cbn [snd] in Hrows.
  destruct (Hspec rows Hrows) as [_ Hstored].
  apply list_elem_of_fmap in Hin as ([pk' l'] & -> & Hin).
  apply Hstored in Hin as [Hl' Hm']. cbn [fst] in *. congruence.
Qed.

(** C2. Across any sequence of runs of the reminder command, from a world
    in which nothing was sent yet, each license is sent at most one email;
    a successful send is followed at once by the write of the current time
    into the license's [expiration_reminder_sent_date], the loop going on
    from the world in which the row carries it; and a license whose
    [expiration_reminder_sent_date] is set is selected by no later run.  The
    same holds of the plan expiration command and
    [subscription_plan_expiration_email_sent_date]. *)
Theorem one_email_per_license :
  (∀ (script : list (Env * Options)) (d : DB) (pk : Z),
     (emails_sent pk (trace (runs Reminders.handle script (mkWorld d []))) ≤ 1)%nat)
  ∧ (∀ env ec pk obj l rest sc fc w w1,
       licenses (db w) !! pk = Some l →
       Reminders._send_expiration_reminder_email env pk obj ec w = (w1, Ok tt) →
       Reminders.send_loop env ec ((pk, obj) :: rest) sc fc w =
         Reminders.send_loop env ec rest (S sc) fc
           (mkWorld
              (mkDB (<[pk := set_expiration_reminder_sent_date
                               (Some (localized_utcnow env (trace w1))) l]>
                       (licenses (db w)))
                    (subscription_plans (db w)) (customer_agreements (db w)))
              (trace w1 ++ [ClockRead])))
  ∧ (∀ (script : list (Env * Options)) w pk l t env s D rows,
       licenses (db w) !! pk = Some l →
       expiration_reminder_sent_date l = Some t →
       (Reminders._get_expiring_licenses env s D (runs Reminders.handle script w)).2
         = Ok rows →
       pk ∉ rows.*1)
  ∧ (∀ (script : list (Env * Options)) (d : DB) (pk : Z),
       (emails_sent pk (trace (runs PlanExpiration.handle script (mkWorld d []))) ≤ 1)%nat)
  ∧ (∀ env ec pk obj l rest sc fc w w1,
       licenses (db w) !! pk = Some l →
       PlanExpiration._send_subscription_expiration_email env pk obj ec w = (w1, Ok tt) →
       PlanExpiration.send_loop env ec ((pk, obj) :: rest) sc fc w =
         PlanExpiration.send_loop env ec rest (S sc) fc
           (mkWorld
              (mkDB (<[pk := set_subscription_plan_expiration_email_sent_date
                               (Some (localized_utcnow env (trace w1))) l]>
                       (licenses (db w)))
                    (subscription_plans (db w)) (customer_agreements (db w)))
              (trace w1 ++ [ClockRead])))
  ∧ (∀ (script : list (Env * Options)) w pk l t env s D rows,
       licenses (db w) !! pk = Some l →
       subscription_plan_expiration_email_sent_date l = Some t →
       (PlanExpiration._get_recently_expired_plan_licenses env s D
          (runs PlanExpiration.handle script w)).2 = Ok rows →
       pk ∉ rows.*1).
Proof.
  repeat split.
  - intros script d pk.
    apply (reminders_runs_once_marked script (mkWorld d []) (once_marked_initial _ d) pk).
  - intros env ec pk obj l rest sc fc w w1 Hl Hsend.
    rewrite !reminders_send_loop_shape.
    rewrite (send_loop_with_sent _ _ env ec pk obj l rest sc fc w w1 Hl Hsend).
    do 3 f_equal. apply map_eq. intros k.
    rewrite lookup_alter, lookup_insert. case_decide; [subst; by rewrite Hl|done].
  - intros script w pk l t env s D rows Hl Hm Hrows.
    destruct (evolves_marked _ _ _ pk l t (reminders_runs_evolves script w) Hl Hm)
      as (l' & t' & Hl' & Hm').
    by eapply selects_skips_marked; [apply reminders_selects|..].
  - intros script d pk.
    apply (plan_expiration_runs_once_marked script (mkWorld d [])
             (once_marked_initial _ d) pk).
  - intros env ec pk obj l rest sc fc w w1 Hl Hsend.
    rewrite !plan_expiration_send_loop_shape.
    rewrite (send_loop_with_sent _ _ env ec pk obj l rest sc fc w w1 Hl Hsend).
    do 3 f_equal. apply map_eq. intros k.
    rewrite lookup_alter, lookup_insert. case_decide; [subst; by rewrite Hl|done].
  - intros script w pk l t env s D rows Hl Hm Hrows.
    destruct (evolves_marked _ _ _ pk l t (plan_expiration_runs_evolves script w) Hl Hm)
      as (l' & t' & Hl' & Hm').
    by eapply selects_skips_marked; [apply plan_expiration_selects|..].
Qed.

(** ** Failed sends *)

Lemma activated_in_window_tables (d d' : DB) (u : N) (ws we : Z) (l : License) :
  subscription_plans d' = subscription_plans d →
  customer_agreements d' = customer_agreements d →
  activated_in_window d' u ws we l = activated_in_window d u ws we l.
Proof.
  intros Hp Ha. unfold activated_in_window, agreement_of, plan_of. by rewrite Hp, Ha.
Qed.

(** C4. In the reminder command, when sending a license's email raises
    anything but [ValueError], the pass through the loop changes no table
    and the loop goes on with the failure count incremented.  After a
    customer was processed, every license for which a Braze call raised had
    a null [expiration_reminder_sent_date] and has its row exactly as
    before, so that it passes the selection's filter in a later run exactly
    as it would have before; and the failure count returned is the number
    of Braze calls that raised.  The same holds of the plan expiration
    command and [subscription_plan_expiration_email_sent_date]. *)
Theorem failed_send_leaves_license_eligible :
  (∀ env ec pk obj rest sc fc w w1 e,
     Reminders._send_expiration_reminder_email env pk obj ec w = (w1, Raise e) →
     e ≠ ValueError →
     db w1 = db w
     ∧ Reminders.send_loop env ec ((pk, obj) :: rest) sc fc w =
         Reminders.send_loop env ec rest sc (S fc) w1)
  ∧ (∀ env u D dry_run w,
       ∃ evs,
         trace (Reminders._process_enterprise_customer env u D dry_run w).1 = trace w ++ evs
         ∧ (∀ pk e, send_raised pk e evs →
              ∃ l, licenses (db w) !! pk = Some l
                ∧ expiration_reminder_sent_date l = None
                ∧ licenses (db (Reminders._process_enterprise_customer env u D dry_run w).1)
                    !! pk = Some l
                ∧ ∀ uu ws we,
                    Reminders.expiring
                      (db (Reminders._process_enterprise_customer env u D dry_run w).1)
                      uu ws we l
                    = Reminders.expiring (db w) uu ws we l)
         ∧ (∀ c, (Reminders._process_enterprise_customer env u D dry_run w).2 = Ok c →
                 failure_count c = failed_sends evs))
  ∧ (∀ env ec pk obj rest sc fc w w1 e,
       PlanExpiration._send_subscription_expiration_email env pk obj ec w = (w1, Raise e) →
       e ≠ ValueError →
       db w1 = db w
       ∧ PlanExpiration.send_loop env ec ((pk, obj) :: rest) sc fc w =
           PlanExpiration.send_loop env ec rest sc (S fc) w1)
  ∧ (∀ env u D dry_run w,
       ∃ evs,
         trace (PlanExpiration._process_enterprise_customer env u D dry_run w).1
           = trace w ++ evs
         ∧ (∀ pk e, send_raised pk e evs →
              ∃ l, licenses (db w) !! pk = Some l
                ∧ subscription_plan_expiration_email_sent_date l = None
                ∧ licenses (db (PlanExpiration._process_enterprise_customer env u D dry_run w).1)
                    !! pk = Some l
                ∧ ∀ uu ws we,
                    PlanExpiration.recently_expired
                      (db (PlanExpiration._process_enterprise_customer env u D dry_run w).1)
                      uu ws we l
                    = PlanExpiration.recently_expired (db w) uu ws we l)
         ∧ (∀ c, (PlanExpiration._process_enterprise_customer env u D dry_run w).2 = Ok c →
                 failure_count c = failed_sends evs)).
Proof.
  split; [|split; [|split]].
  - intros env ec pk obj rest sc fc w w1 e Hsend He.
    rewrite !reminders_send_loop_shape. by eapply send_loop_with_failed.
  - intros env u D dry_run w.
    destruct (reminders_process_effect env u D dry_run w)
      as (evs & Htr & Hp & Ha & _ & _ & Hraised & Hcount & _).
    exists evs. split; [done|]. split; [|done].
    intros pk e Hr. destruct (Hraised pk e Hr) as [(l & Hl & Hm) Heq].
    exists l. repeat split; try done; [congruence|].
    intros uu ws we. unfold Reminders.expiring.
    by rewrite (activated_in_window_tables _ _ _ _ _ _ Hp Ha).
  - intros env ec pk obj rest sc fc w w1 e Hsend He.
    rewrite !plan_expiration_send_loop_shape. by eapply send_loop_with_failed.
  - intros env u D dry_run w.
    destruct (plan_expiration_process_effect env u D dry_run w)
      as (evs & Htr & Hp & Ha & _ & _ & Hraised & Hcount & _).
    exists evs. split; [done|]. split; [|done].
    intros pk e Hr. destruct (Hraised pk e Hr) as [(l & Hl & Hm) Heq].
    exists l. repeat split; try done; [congruence|].
    intros uu ws we. unfold PlanExpiration.recently_expired.
    by rewrite (activated_in_window_tables _ _ _ _ _ _ Hp Ha).
Qed.

(** ** Parsing: validity of the parsed items *)

Lemma check_uuids_ok (env : Env) (items : list string) :
  check_uuids env items = Ok tt ↔ Forall (λ item, is_Some (uuid_UUID env item)) items.
Proof.
  induction items as [|item rest IH]; simpl.
  - split; [constructor|done].
  - rewrite Forall_cons. destruct (uuid_UUID env item) as [u|].
    + rewrite IH. split; [by split; [eexists|]|tauto].
    + split; [done|]. by intros [[? [=]] _].
Qed.

Lemma check_uuids_raises (env : Env) (items : list string) (e : exn) :
  check_uuids env items = Raise e → e = ValueError.
Proof.
  induction items as [|item rest IH]; simpl; [done|].
  destruct (uuid_UUID env item); [done|congruence].
Qed.

Lemma parse_raises_value_error (env : Env) (s : string) (e : exn) :
  _parse_enterprise_customer_uuids env s = Raise e → e = ValueError.
Proof.
  unfold _parse_enterprise_customer_uuids.
  destruct (check_uuids env _) as [[]|e'] eqn:Hc; [done|].
  intros [= <-]. by eapply check_uuids_raises.
Qed.

Lemma parse_valid (env : Env) (s : string) (uuids : list string) :
  _parse_enterprise_customer_uuids env s = Ok uuids →
  Forall (λ u, is_Some (uuid_UUID env u)) uuids.
Proof.
  unfold _parse_enterprise_customer_uuids.
  destruct (check_uuids env _) as [[]|e'] eqn:Hc; [|done].
  intros [= <-]. by apply check_uuids_ok.
Qed.

(** ** Dry runs *)

Lemma reminders_customers_loop_cons (env : Env) (D : Z) (dry_run : bool) (u : string)
    (rest : list string) (ts tf : nat) (w : World) :
  Reminders.customers_loop env D dry_run (u :: rest) ts tf w =
    match Reminders._process_enterprise_customer env u D dry_run w with
    | (w1, Ok c) =>
        Reminders.customers_loop env D dry_run rest
          (ts + success_count c)%nat (tf + failure_count c)%nat w1
    | (w1, Raise ValueError) => (w1, Raise ValueError)
    | (w1, Raise _) => Reminders.customers_loop env D dry_run rest ts (tf + 1)%nat w1
    end.
Proof.
  cbn [Reminders.customers_loop]. unfold mbind, M_bind, try, raise.
  by destruct (Reminders._process_enterprise_customer env u D dry_run w) as [w1 [c|[]]].
Qed.

Lemma plan_expiration_customers_loop_cons (env : Env) (D : Z) (dry_run : bool) (u : string)
    (rest : list string) (ts tf ef : nat) (w : World) :
  PlanExpiration.customers_loop env D dry_run (u :: rest) ts tf ef w =
    match PlanExpiration._process_enterprise_customer env u D dry_run w with
    | (w1, Ok c) =>
        PlanExpiration.customers_loop env D dry_run rest
          (ts + success_count c)%nat (tf + failure_count c)%nat ef w1
    | (w1, Raise ValueError) => (w1, Raise ValueError)
    | (w1, Raise _) =>
        PlanExpiration.customers_loop env D dry_run rest ts tf (ef + 1)%nat w1
    end.
Proof.
  cbn [PlanExpiration.customers_loop]. unfold mbind, M_bind, try, raise.
  by destruct (PlanExpiration._process_enterprise_customer env u D dry_run w)
    as [w1 [c|[]]].
Qed.

(** A dry run of one customer: a log line and a clock read; it raises when
    the selection does, and counts nothing otherwise. *)
Lemma reminders_process_dry_run_eq (env : Env) (u : string) (D : Z) (w : World) :
  Reminders._process_enterprise_customer env u D true w =
    (mkWorld (db w) (trace w ++ [LogProcessing u; ClockRead]),
     match (Reminders._get_expiring_licenses env u D
              (mkWorld (db w) (trace w ++ [LogProcessing u]))).2 with
     | Ok _ => Ok (mkCounts 0 0)
     | Raise e => Raise e
     end).
Proof.
  rewrite reminders_process_shape.
  rewrite (process_with_eq _ _ _ (reminders_selects env u D)). cbn zeta.
  by destruct (_.2) as [[|row rows]|e].
Qed.

Lemma plan_expiration_process_dry_run_eq (env : Env) (u : string) (D : Z) (w : World) :
  PlanExpiration._process_enterprise_customer env u D true w =
    (mkWorld (db w) (trace w ++ [LogProcessing u; ClockRead]),
     match (PlanExpiration._get_recently_expired_plan_licenses env u D
              (mkWorld (db w) (trace w ++ [LogProcessing u]))).2 with
     | Ok _ => Ok (mkCounts 0 0)
     | Raise e => Raise e
     end).
Proof.
  rewrite plan_expiration_process_shape.
  rewrite (process_with_eq _ _ _ (plan_expiration_selects env u D)). cbn zeta.
  by destruct (_.2) as [[|row rows]|e].
Qed.

Lemma reminders_process_dry_run (env : Env) (u : string) (D : Z) (w : World) :
  (∀ tr, expiring_window_in_range (localized_utcnow env tr) D) →
  is_Some (uuid_UUID env u) →
  Reminders._process_enterprise_customer env u D true w =
    (mkWorld (db w) (trace w ++ [LogProcessing u; ClockRead]), Ok (mkCounts 0 0)).
Proof.
  intros Hrange [uu Hu]. rewrite reminders_process_dry_run_eq.
  by rewrite (get_expiring_licenses_eq env u uu D _ Hu (Hrange _)).
Qed.

Lemma plan_expiration_process_dry_run (env : Env) (u : string) (D : Z) (w : World) :
  (∀ tr, recently_expired_window_in_range (localized_utcnow env tr) D) →
  is_Some (uuid_UUID env u) →
  PlanExpiration._process_enterprise_customer env u D true w =
    (mkWorld (db w) (trace w ++ [LogProcessing u; ClockRead]), Ok (mkCounts 0 0)).
Proof.
  intros Hrange [uu Hu]. rewrite plan_expiration_process_dry_run_eq.
  by rewrite (get_recently_expired_plan_licenses_eq env u uu D _ Hu (Hrange _)).
Qed.

(** The world after a dry run over the customers, whatever the selections
    do: the loop goes through all of them. *)
Lemma reminders_customers_loop_dry_run_world (env : Env) (D : Z) (uuids : list string)
    (ts tf : nat) (w : World) :
  ∃ totals,
    Reminders.customers_loop env D true uuids ts tf w =
      (mkWorld (db w) (trace w ++ dry_run_events uuids), Ok totals).
Proof.
  revert ts tf w. induction uuids as [|u rest IH]; intros ts tf w.
  { exists (ts, tf). simpl. rewrite app_nil_r. by destruct w. }
  rewrite reminders_customers_loop_cons, reminders_process_dry_run_eq.
  destruct (_.2) as [rows|e] eqn:Hsel.
  - destruct (IH (ts + success_count (mkCounts 0 0))%nat
                (tf + failure_count (mkCounts 0 0))%nat
                (mkWorld (db w) (trace w ++ [LogProcessing u; ClockRead]))) as [totals ->].
    exists totals. cbn [db trace]. by rewrite <- app_assoc.
  - apply get_expiring_licenses_raises in Hsel as ->.
    destruct (IH ts (tf + 1)%nat
                (mkWorld (db w) (trace w ++ [LogProcessing u; ClockRead]))) as [totals ->].
    exists totals. cbn [db trace]. by rewrite <- app_assoc.
Qed.

Lemma plan_expiration_customers_loop_dry_run_world (env : Env) (D : Z)
    (uuids : list string) (ts tf ef : nat) (w : World) :
  ∃ totals,
    PlanExpiration.customers_loop env D true uuids ts tf ef w =
      (mkWorld (db w) (trace w ++ dry_run_events uuids), Ok totals).
Proof.
  revert ts tf ef w. induction uuids as [|u rest IH]; intros ts tf ef w.
  { exists (ts, tf, ef). simpl. rewrite app_nil_r. by destruct w. }
  rewrite plan_expiration_customers_loop_cons, plan_expiration_process_dry_run_eq.
  destruct (_.2) as [rows|e] eqn:Hsel.
  - destruct (IH (ts + success_count (mkCounts 0 0))%nat
                (tf + failure_count (mkCounts 0 0))%nat ef
                (mkWorld (db w) (trace w ++ [LogProcessing u; ClockRead]))) as [totals ->].
    exists totals. cbn [db trace]. by rewrite <- app_assoc.
  - apply get_recently_expired_plan_licenses_raises in Hsel as ->.
    destruct (IH ts tf (ef + 1)%nat
                (mkWorld (db w) (trace w ++ [LogProcessing u; ClockRead]))) as [totals ->].
    exists totals. cbn [db trace]. by rewrite <- app_assoc.
Qed.

Lemma reminders_customers_loop_dry_run (env : Env) (D : Z) (uuids : list string)
    (ts tf : nat) (w : World) :
  (∀ tr, expiring_window_in_range (localized_utcnow env tr) D) →
  Forall (λ u, is_Some (uuid_UUID env u)) uuids →
  Reminders.customers_loop env D true uuids ts tf w =
    (mkWorld (db w) (trace w ++ dry_run_events uuids), Ok (ts, tf)).
Proof.
  intros Hrange Hvalid. revert ts tf w.
  induction Hvalid as [|u rest Hu _ IH]; intros ts tf w.
  { simpl. rewrite app_nil_r. by destruct w. }
  cbn [Reminders.customers_loop]. unfold mbind at 1, M_bind at 1, try.
  rewrite (reminders_process_dry_run env u D w Hrange Hu), IH.
  cbn [db trace success_count failure_count].
  rewrite !Nat.add_0_r, <- app_assoc. done.
Qed.

Lemma plan_expiration_customers_loop_dry_run (env : Env) (D : Z) (uuids : list string)
    (ts tf ef : nat) (w : World) :
  (∀ tr, recently_expired_window_in_range (localized_utcnow env tr) D) →
  Forall (λ u, is_Some (uuid_UUID env u)) uuids →
  PlanExpiration.customers_loop env D true uuids ts tf ef w =
    (mkWorld (db w) (trace w ++ dry_run_events uuids), Ok (ts, tf, ef)).
Proof.
  intros Hrange Hvalid. revert ts tf ef w.
  induction Hvalid as [|u rest Hu _ IH]; intros ts tf ef w.
  { simpl. rewrite app_nil_r. by destruct w. }
  cbn [PlanExpiration.customers_loop]. unfold mbind at 1, M_bind at 1, try.
  rewrite (plan_expiration_process_dry_run env u D w Hrange Hu), IH.
  cbn [db trace success_count failure_count].
  rewrite !Nat.add_0_r, <- app_assoc. done.
Qed.

Lemma dry_run_events_local (uuids : list string) (e : Event) :
  e ∈ dry_run_events uuids → e = ClockRead ∨ ∃ u, e = LogProcessing u.
Proof.
  unfold dry_run_events. intros Hin.
  apply list_elem_of_bind in Hin as (u & Hin & _).
  apply elem_of_cons in Hin as [->|Hin]; [right; by exists u|].
  apply list_elem_of_singleton in Hin as ->. by left.
Qed.

(** The world a dry run of either command leaves, whatever its outcome. *)
Lemma reminders_handle_dry_run_world (env : Env) (s : string) (D : Z) (w : World) :
  (Reminders.handle env (mkOptions s D true) w).1 =
    match _parse_enterprise_customer_uuids env s with
    | Ok (u :: uuids) => mkWorld (db w) (trace w ++ dry_run_events (u :: uuids))
    | _ => w
    end.
Proof.
  unfold Reminders.handle. cbn [opt_enterprise_customer_uuid opt_days opt_dry_run].
  destruct (_parse_enterprise_customer_uuids env s) as [[|u uuids]|e]; [done| |done].
  unfold mbind, M_bind.
  destruct (reminders_customers_loop_dry_run_world env D (u :: uuids) 0 0 w) as [totals ->].
  by case_bool_decide.
Qed.

Lemma plan_expiration_handle_dry_run_world (env : Env) (s : string) (D : Z) (w : World) :
  (PlanExpiration.handle env (mkOptions s D true) w).1 =
    match _parse_enterprise_customer_uuids env s with
    | Ok (u :: uuids) => mkWorld (db w) (trace w ++ dry_run_events (u :: uuids))
    | _ => w
    end.
Proof.
  unfold PlanExpiration.handle. cbn [opt_enterprise_customer_uuid opt_days opt_dry_run].
  destruct (_parse_enterprise_customer_uuids env s) as [[|u uuids]|e]; [done| |done].
  unfold mbind, M_bind.
  destruct (plan_expiration_customers_loop_dry_run_world env D (u :: uuids) 0 0 0 w)
    as [totals ->].
  by case_bool_decide.
Qed.

(** A dry run of either command whose windows exist, as one equation. *)
Lemma reminders_handle_dry_run (env : Env) (s : string) (D : Z) (w : World) :
  (∀ tr, expiring_window_in_range (localized_utcnow env tr) D) →
  Reminders.handle env (mkOptions s D true) w =
    match _parse_enterprise_customer_uuids env s with
    | Ok (u :: uuids) => (mkWorld (db w) (trace w ++ dry_run_events (u :: uuids)), Ok tt)
    | _ => (w, Raise ValueError)
    end.
Proof.
  intros Hrange.
  unfold Reminders.handle. cbn [opt_enterprise_customer_uuid opt_days opt_dry_run].
  destruct (_parse_enterprise_customer_uuids env s) as [[|u uuids]|e] eqn:Hparse; [done| |].
  - unfold mbind, M_bind.
    by rewrite (reminders_customers_loop_dry_run env D _ 0 0 w Hrange
                  (parse_valid env s _ Hparse)).
  - by rewrite (parse_raises_value_error env s e Hparse).
Qed.

Lemma plan_expiration_handle_dry_run (env : Env) (s : string) (D : Z) (w : World) :
  (∀ tr, recently_expired_window_in_range (localized_utcnow env tr) D) →
  PlanExpiration.handle env (mkOptions s D true) w =
    match _parse_enterprise_customer_uuids env s with
    | Ok (u :: uuids) => (mkWorld (db w) (trace w ++ dry_run_events (u :: uuids)), Ok tt)
    | _ => (w, Raise ValueError)
    end.
Proof.
  intros Hrange.
  unfold PlanExpiration.handle. cbn [opt_enterprise_customer_uuid opt_days opt_dry_run].
  destruct (_parse_enterprise_customer_uuids env s) as [[|u uuids]|e] eqn:Hparse; [done| |].
  - unfold mbind, M_bind.
    by rewrite (plan_expiration_customers_loop_dry_run env D _ 0 0 0 w Hrange
                  (parse_valid env s _ Hparse)).
  - by rewrite (parse_raises_value_error env s e Hparse).
Qed.

(** What every dry run leaves: the tables as they were, and a trace that
    grew by clock reads and log lines only. *)
Lemma dry_run_world_quiet (s : string) (env : Env) (w w' : World) :
  w' = match _parse_enterprise_customer_uuids env s with
       | Ok (u :: uuids) => mkWorld (db w) (trace w ++ dry_run_events (u :: uuids))
       | _ => w
       end →
  db w' = db w
  ∧ ∃ evs, trace w' = trace w ++ evs
      ∧ ∀ e, e ∈ evs → e = ClockRead ∨ ∃ u, e = LogProcessing u.
Proof.
  intros ->. destruct (_parse_enterprise_customer_uuids env s) as [[|u uuids]|e].
  1,3: split; [done|]; exists []; rewrite app_nil_r; split; [done|];
       by intros e0 ?%elem_of_nil.
  split; [done|]. eexists. split; [done|]. apply dry_run_events_local.
Qed.

(** C9, within the range of [datetime].  With [--dry-run], for every
    argument string, number of days and world, each command leaves the
    tables as they are and adds to the trace only clock reads and log lines
    (no enterprise API call, no Braze call, so no email).  When the window
    of the selection exists at every reading of the clock, the command
    returns normally whenever the argument parses to at least one customer,
    and otherwise raises the [ValueError] of the parsing, never the
    exception of the end of a run with failures; each customer processed
    then contributes a success count and a failure count of zero. *)
Theorem dry_run_sends_and_writes_nothing (env : Env) (s : string) (D : Z) (w : World) :
  (db (Reminders.handle env (mkOptions s D true) w).1 = db w
   ∧ (∃ evs, trace (Reminders.handle env (mkOptions s D true) w).1 = trace w ++ evs
        ∧ ∀ e, e ∈ evs → e = ClockRead ∨ ∃ u, e = LogProcessing u)
   ∧ ((∀ tr, expiring_window_in_range (localized_utcnow env tr) D) →
      ((Reminders.handle env (mkOptions s D true) w).2 = Ok tt
       ∨ (Reminders.handle env (mkOptions s D true) w).2 = Raise ValueError)
      ∧ (∀ u uuids, _parse_enterprise_customer_uuids env s = Ok (u :: uuids) →
           (Reminders.handle env (mkOptions s D true) w).2 = Ok tt)
      ∧ (∀ u w0, is_Some (uuid_UUID env u) →
           Reminders._process_enterprise_customer env u D true w0 =
             (mkWorld (db w0) (trace w0 ++ [LogProcessing u; ClockRead]),
              Ok (mkCounts 0 0)))))
  ∧ (db (PlanExpiration.handle env (mkOptions s D true) w).1 = db w
     ∧ (∃ evs, trace (PlanExpiration.handle env (mkOptions s D true) w).1 = trace w ++ evs
          ∧ ∀ e, e ∈ evs → e = ClockRead ∨ ∃ u, e = LogProcessing u)
     ∧ ((∀ tr, recently_expired_window_in_range (localized_utcnow env tr) D) →
        ((PlanExpiration.handle env (mkOptions s D true) w).2 = Ok tt
         ∨ (PlanExpiration.handle env (mkOptions s D true) w).2 = Raise ValueError)
        ∧ (∀ u uuids, _parse_enterprise_customer_uuids env s = Ok (u :: uuids) →
             (PlanExpiration.handle env (mkOptions s D true) w).2 = Ok tt)
        ∧ (∀ u w0, is_Some (uuid_UUID env u) →
             PlanExpiration._process_enterprise_customer env u D true w0 =
               (mkWorld (db w0) (trace w0 ++ [LogProcessing u; ClockRead]),
                Ok (mkCounts 0 0))))).
Proof.
  split.
  - destruct (dry_run_world_quiet s env w _ (reminders_handle_dry_run_world env s D w))
      as [Hdb Hevs].
    split; [exact Hdb|]. split; [exact Hevs|].
    intros Hrange. rewrite (reminders_handle_dry_run env s D w Hrange).
    split; [|split].
    + destruct (_parse_enterprise_customer_uuids env s) as [[|u uuids]|e]; cbn; auto.
    + by intros u uuids ->.
    + intros u w0 Hu. by apply reminders_process_dry_run.
  - destruct (dry_run_world_quiet s env w _ (plan_expiration_handle_dry_run_world env s D w))
      as [Hdb Hevs].
    split; [exact Hdb|]. split; [exact Hevs|].
    intros Hrange. rewrite (plan_expiration_handle_dry_run env s D w Hrange).
    split; [|split].
    + destruct (_parse_enterprise_customer_uuids env s) as [[|u uuids]|e]; cbn; auto.
    + by intros u uuids ->.
    + intros u w0 Hu. by apply plan_expiration_process_dry_run.
Qed.

(** ** Splitting the argument string *)

Local Arguments String.append !_ _ / : simpl nomatch.

Lemma isspace_is_sep (c : string) : isspace c = true → is_sep c = true.
Proof. unfold is_sep. intros ->. apply orb_true_r. Qed.

Lemma all_sep_app (a b : list string) : all_sep (a ++ b) = all_sep a && all_sep b.
Proof. apply forallb_app. Qed.

Lemma all_sep_boundary (g : list string) : all_sep g = true → at_boundary g.
Proof. destruct g as [|c g]; simpl; [done|]. by intros [? _]%andb_true_iff. Qed.

(** [strip] removes a run of whitespace at each end. *)
Lemma lstrip_spec (s : list string) :
  ∃ a, s = a ++ lstrip s ∧ all_sep a = true.
Proof.
  induction s as [|c s IH]; simpl.
  - by exists [].
  - destruct (isspace c) eqn:Hc.
    + destruct IH as (a & Hs & Ha). exists (c :: a). simpl.
      rewrite <- Hs, Ha, (isspace_is_sep c Hc). done.
    + by exists [].
Qed.

Lemma rstrip_spec (s : list string) :
  ∃ b, s = rstrip s ++ b ∧ all_sep b = true.
Proof.
  induction s as [|c s IH]; simpl.
  - by exists [].
  - destruct IH as (b & Hs & Hb). destruct (rstrip s) as [|c' r] eqn:Hr.
    + simpl in Hs. subst b. destruct (isspace c) eqn:Hc.
      * exists (c :: s). simpl. by rewrite (isspace_is_sep c Hc), Hb.
      * exists s. done.
    + exists b. simpl. by rewrite Hs at 1.
Qed.

Lemma strip_spec (s : list string) :
  ∃ a b, s = a ++ strip s ++ b ∧ all_sep a = true ∧ all_sep b = true.
Proof.
  destruct (lstrip_spec s) as (a & Hs & Ha).
  destruct (rstrip_spec (lstrip s)) as (b & Hl & Hb).
  exists a, b. unfold strip. by rewrite <- Hl.
Qed.

(** A piece without separators is not changed by [strip]. *)
Lemma strip_no_sep (p : list string) : no_sep p = true → strip p = p.
Proof.
  intros Hp. unfold strip.
  assert (∀ c, is_sep c = false → isspace c = false) as Hns.
  { intros c Hc. destruct (isspace c) eqn:E; [|done].
    by rewrite (isspace_is_sep c E) in Hc. }
  assert (lstrip p = p) as ->.
  { destruct p as [|c p]; simpl in *; [done|].
    apply andb_true_iff in Hp as [Hc%negb_true_iff _]. by rewrite (Hns c Hc). }
  induction p as [|c p IH]; simpl in *; [done|].
  apply andb_true_iff in Hp as [Hc%negb_true_iff Hp].
  rewrite (IH Hp). destruct p; [by rewrite (Hns c Hc)|done].
Qed.

Lemma tokens_of_prepend (g x : list string) (toks : list (list string)) :
  all_sep g = true → tokens_of x toks → tokens_of (g ++ x) toks.
Proof.
  intros Hg Hx. destruct Hx as [g0 Hg0|g0 t rest toks Hg0 Ht Hb Hrest].
  - apply tokens_of_none. by rewrite all_sep_app, Hg, Hg0.
  - rewrite app_assoc. apply tokens_of_first; try done.
    by rewrite all_sep_app, Hg, Hg0.
Qed.

Lemma tokens_of_append (g x : list string) (toks : list (list string)) :
  all_sep g = true → tokens_of x toks → tokens_of (x ++ g) toks.
Proof.
  intros Hg Hx. induction Hx as [g0 Hg0|g0 t rest toks Hg0 Ht Hb Hrest IH].
  - apply tokens_of_none. by rewrite all_sep_app, Hg, Hg0.
  - rewrite <- !app_assoc. apply tokens_of_first; try done.
    destruct rest; simpl; [by apply all_sep_boundary|done].
Qed.

(** The pieces [re_split] returns: the piece in progress, which ends at a
    boundary, and the pieces of what follows; none contains a separator. *)
Lemma re_split_from_spec (b : bool) (x : list string) :
  ∃ g piece pieces rest,
    re_split_from b x = piece :: pieces
    ∧ x = g ++ piece ++ rest
    ∧ all_sep g = true ∧ (b = false → g = [])
    ∧ no_sep piece = true ∧ Forall (λ p, no_sep p = true) pieces
    ∧ at_boundary rest
    ∧ tokens_of rest (filter (λ p, nonempty p = true) pieces).
Proof.
  revert b. induction x as [|c x IH]; intros b.
  { exists [], [], [], []. simpl. repeat split; try done.
    by apply tokens_of_none. }
  simpl. destruct (is_sep c) eqn:Hc.
  - destruct (IH true) as (g & p & ps & rest & Heq & Hx & Hg & _ & Hp & Hps & Hb & Htok).
    destruct b.
    + exists (c :: g), p, ps, rest. simpl. rewrite Hc, Hg, <- Hx.
      repeat split; try done.
    + exists [], [], (p :: ps), (c :: x). simpl.
      rewrite Heq. repeat split; try done.
      * by constructor.
      * rewrite filter_cons. destruct p as [|c' p].
        -- rewrite decide_False by done.
           rewrite Hx. change (c :: g ++ [] ++ rest) with ((c :: g) ++ rest).
           apply tokens_of_prepend; [|done]. simpl. by rewrite Hc, Hg.
        -- rewrite decide_True by done. rewrite Hx.
           change (c :: g ++ (c' :: p) ++ rest) with ((c :: g) ++ (c' :: p) ++ rest).
           apply tokens_of_first; try done. simpl. by rewrite Hc, Hg.
  - destruct (IH false) as (g & p & ps & rest & Heq & Hx & Hg & Hg0 & Hp & Hps & Hb & Htok).
    rewrite Heq. rewrite (Hg0 eq_refl) in Hx. simpl in Hx.
    exists [], (c :: p), ps, rest. simpl. rewrite Hc, Hp, <- Hx.
    repeat split; try done.
Qed.

Lemma strip_pieces (pieces : list (list string)) :
  Forall (λ p, no_sep p = true) pieces →
  strip <$> filter (λ _uuid, nonempty (strip _uuid) = true) pieces
  = filter (λ p, nonempty p = true) pieces.
Proof.
  induction 1 as [|p ps Hp _ IH]; [done|].
  rewrite !filter_cons, (strip_no_sep p Hp).
  destruct (decide (nonempty p = true)); [|done].
  by rewrite fmap_cons, (strip_no_sep p Hp), IH.
Qed.

(** The items the command parses out of a sequence of characters are
    tokens of it. *)
Lemma parsed_items_tokens (s : list string) :
  tokens_of s
    (strip <$> filter (λ _uuid, nonempty (strip _uuid) = true) (re_split (strip s))).
Proof.
  destruct (strip_spec s) as (a & b & Hs & Ha & Hb).
  rewrite Hs at 1. apply tokens_of_prepend, tokens_of_append; try done.
  unfold re_split.
  destruct (re_split_from_spec false (strip s))
    as (g & p & ps & rest & -> & Hx & _ & Hg & Hp & Hps & Hbd & Htok).
  rewrite strip_pieces by (by constructor).
  rewrite Hx, (Hg eq_refl). simpl. rewrite filter_cons. destruct p as [|c p].
  - by rewrite decide_False by done.
  - rewrite decide_True by done.
    by apply (tokens_of_first [] (c :: p) rest).
Qed.

(** The tokens of a sequence of characters are determined: they are the
    non-empty pieces of its split. *)
Lemma split_all_sep (b : bool) (g : list string) :
  all_sep g = true → filter (λ p, nonempty p = true) (re_split_from b g) = [].
Proof.
  revert b. induction g as [|c g IH]; intros b; simpl; [done|].
  intros [-> Hg]%andb_true_iff. destruct b; [by apply IH|].
  rewrite filter_cons, decide_False by done. by apply IH.
Qed.

Lemma split_at_boundary (b b' : bool) (rest : list string) :
  at_boundary rest →
  filter (λ p, nonempty p = true) (re_split_from b rest)
  = filter (λ p, nonempty p = true) (re_split_from b' rest).
Proof.
  destruct rest as [|c r]; simpl; [done|]. intros ->.
  destruct b, b'; rewrite ?filter_cons, ?decide_False by done; done.
Qed.

Lemma split_skip_sep (b : bool) (g x : list string) :
  all_sep g = true →
  ∃ b', filter (λ p, nonempty p = true) (re_split_from b (g ++ x))
        = filter (λ p, nonempty p = true) (re_split_from b' x).
Proof.
  revert b. induction g as [|c g IH]; intros b; simpl; [by exists b|].
  intros [-> Hg]%andb_true_iff. destruct (IH true Hg) as [b' Heq].
  exists b'. destruct b; [done|]. by rewrite filter_cons, decide_False by done.
Qed.

Lemma split_no_sep (t rest : list string) :
  no_sep t = true → at_boundary rest →
  ∃ ps, re_split_from false (t ++ rest) = t :: ps
        ∧ filter (λ p, nonempty p = true) ps
          = filter (λ p, nonempty p = true) (re_split_from false rest).
Proof.
  intros Ht Hb. induction t as [|c t IH]; simpl in *.
  - destruct rest as [|c r]; simpl in *.
    + by exists [].
    + rewrite Hb. exists (re_split_from true r). split; [done|].
      by rewrite filter_cons, decide_False by done.
  - apply andb_true_iff in Ht as [Hc%negb_true_iff Ht]. rewrite Hc.
    destruct (IH Ht) as (ps & -> & Hps). by exists ps.
Qed.

Lemma tokens_of_split (s : list string) (toks : list (list string)) :
  tokens_of s toks →
  ∀ b, filter (λ p, nonempty p = true) (re_split_from b s) = toks.
Proof.
  induction 1 as [g Hg|g t rest toks Hg [Hne Ht] Hb Hrest IH]; intros b.
  - by apply split_all_sep.
  - destruct (split_skip_sep b g (t ++ rest) Hg) as [b' ->].
    destruct (split_no_sep t rest Ht Hb) as (ps & Heq & Hps).
    assert (re_split_from b' (t ++ rest) = re_split_from false (t ++ rest)) as ->.
    { destruct t as [|c t]; [done|]. simpl in *.
      apply andb_true_iff in Ht as [Hc%negb_true_iff _]. by rewrite Hc. }
    rewrite Heq, filter_cons, decide_True by (by destruct t).
    by rewrite Hps, IH.
Qed.

Lemma tokens_of_unique (s : list string) (toks toks' : list (list string)) :
  tokens_of s toks → tokens_of s toks' → toks = toks'.
Proof.
  intros H H'. by rewrite <- (tokens_of_split s toks H false), (tokens_of_split s toks' H' false).
Qed.



(** *** The characters of a string *)

Lemma string_strong_ind (P : string → Prop) :
  (∀ s, (∀ t, (String.length t < String.length s)%nat → P t) → P s) → ∀ s, P s.
Proof.
  intros Hstep s. remember (String.length s) as n eqn:Hn.
  revert s Hn. induction (lt_wf n) as [n _ IH]. intros s ->.
  apply Hstep. intros t Ht. by apply (IH (String.length t)).
Qed.

Lemma encode_app (a b : list string) : encode (a ++ b) = encode a +:+ encode b.
Proof.
  induction a as [|c a IH]; simpl; [done|].
  rewrite IH. induction c as [|x c IHc]; simpl; [done|by f_equal].
Qed.

Lemma append_assoc (a b c : string) : (a +:+ b) +:+ c = a +:+ b +:+ c.
Proof. induction a as [|x a IH]; simpl; [done|by f_equal]. Qed.

Lemma append_empty_r (s : string) : s +:+ EmptyString = s.
Proof. induction s as [|c s IH]; simpl; [done|by f_equal]. Qed.

Lemma length_append (a b : string) :
  String.length (a +:+ b) = (String.length a + String.length b)%nat.
Proof. induction a as [|x a IH]; simpl; [done|by f_equal]. Qed.

(** The first character of a non-empty string, and the characters of what
    follows it. *)
Lemma chars_cons_inv (s : string) (u : string) (l : list string) :
  chars s = u :: l → ∃ s', s = u +:+ s' ∧ chars s' = l.
Proof.
  destruct s as [|b1 [|b2 [|b3 s3]]]; simpl; [done| | |].
  - intros [= <- <-]. by exists EmptyString.
  - destruct (isspace _); intros [= <- <-]; by eexists.
  - destruct (isspace _); [|destruct (isspace _)]; intros [= <- <-]; by eexists.
Qed.

(** The characters of a string make up the string. *)
Lemma encode_chars (s : string) : encode (chars s) = s.
Proof.
  induction s as [s IH] using string_strong_ind.
  destruct (chars s) as [|u l] eqn:Hc.
  { destruct s as [|b1 [|b2 [|b3 s3]]]; simpl in Hc; [done|done| |].
    - by destruct (isspace _).
    - destruct (isspace _); [done|]. by destruct (isspace _). }
  destruct (chars_cons_inv s u l Hc) as (s' & -> & <-).
  simpl. rewrite IH; [done|].
  destruct u as [|b u]; [|rewrite length_append; simpl; lia].
  exfalso. destruct s' as [|b1 [|b2 [|b3 s3]]]; simpl in Hc; [done|done| |].
  - by destruct (isspace _).
  - destruct (isspace _); [done|]. by destruct (isspace _).
Qed.

(** The characters after a prefix of the characters of a string are the
    characters of the rest of the string. *)
Lemma chars_suffix (s : string) (pre l : list string) :
  chars s = pre ++ l → chars (encode l) = l.
Proof.
  revert s. induction pre as [|u pre IH]; intros s Hs; simpl in Hs.
  - by rewrite <- Hs, encode_chars.
  - apply chars_cons_inv in Hs as (s' & _ & Hs). by apply (IH s').
Qed.

Lemma isspace_elem (u : string) : isspace u = true → u ∈ whitespace_list.
Proof.
  unfold isspace. intros H. apply existsb_exists in H as (x & Hin & Heq).
  apply String.eqb_eq in Heq as ->. by apply list_elem_of_In.
Qed.

(** The twenty-nine cases of a whitespace character. *)
Ltac isspace_cases H :=
  apply isspace_elem in H; unfold whitespace_list in H;
  repeat (apply elem_of_cons in H as [H|H]; [simplify_eq|]);
  try (by apply elem_of_nil in H).

(** No whitespace character begins another one, or begins with a comma, and
    the bytes after its first are continuation bytes. *)
Lemma isspace_one_two (a b : ascii) :
  isspace (String a EmptyString) = true → isspace (String a (String b EmptyString)) = false.
Proof. intros H. isspace_cases H; reflexivity. Qed.

Lemma isspace_one_three (a b c : ascii) :
  isspace (String a EmptyString) = true →
  isspace (String a (String b (String c EmptyString))) = false.
Proof. intros H. isspace_cases H; reflexivity. Qed.

Lemma isspace_two_three (a b c : ascii) :
  isspace (String a (String b EmptyString)) = true →
  isspace (String a (String b (String c EmptyString))) = false.
Proof. intros H. isspace_cases H; reflexivity. Qed.

Lemma isspace_length (u : string) :
  isspace u = true →
  ∃ a, u = String a EmptyString
       ∨ (∃ b, u = String a (String b EmptyString))
       ∨ (∃ b c, u = String a (String b (String c EmptyString))).
Proof. intros H. isspace_cases H; eexists; eauto. Qed.

Lemma isspace_two_continuation (a b : ascii) :
  isspace (String a (String b EmptyString)) = true → is_continuation b = true.
Proof. intros H. isspace_cases H; reflexivity. Qed.

Lemma isspace_three_continuation (a b c : ascii) :
  isspace (String a (String b (String c EmptyString))) = true →
  is_continuation b = true ∧ is_continuation c = true.
Proof. intros H. isspace_cases H; split; reflexivity. Qed.

Lemma isspace_first_byte (a : ascii) (u : string) :
  isspace (String a u) = true → is_continuation a = false.
Proof. intros H. isspace_cases H; reflexivity. Qed.

Lemma isspace_comma (u : string) : isspace (String "," u) = false.
Proof. apply not_true_is_false. intros H. isspace_cases H. Qed.

(** A separator begins with a byte that is no continuation byte. *)
Lemma is_sep_first_byte (u : string) :
  is_sep u = true → ∃ a u', u = String a u' ∧ is_continuation a = false.
Proof.
  unfold is_sep. intros [H|H]%orb_true_iff.
  - apply String.eqb_eq in H as ->. by eexists _, _.
  - destruct u as [|a u']; [isspace_cases H|].
    exists a, u'. split; [done|]. by eapply isspace_first_byte.
Qed.

(** A string that begins with a separator has it for first character. *)
Lemma chars_cons_sep (u s : string) :
  is_sep u = true → chars (u +:+ s) = u :: chars s.
Proof.
  unfold is_sep. intros [H|H]%orb_true_iff.
  - apply String.eqb_eq in H as ->. change ("," +:+ s) with (String "," s).
    destruct s as [|b2 [|b3 s3]]; cbn [chars]; [done| |]; by rewrite !isspace_comma.
  - destruct (isspace_length u H) as (a & [->|[(b & ->)|(b & c & ->)]]).
    + destruct s as [|b2 [|b3 s3]]; simpl; [done| |].
      * by rewrite (isspace_one_two a b2 H).
      * by rewrite (isspace_one_three a b2 b3 H), (isspace_one_two a b2 H).
    + destruct s as [|b3 s3]; simpl; [by rewrite H|].
      by rewrite (isspace_two_three a b b3 H), H.
    + simpl. by rewrite H.
Qed.

(** The characters of a string followed by a string that does not begin
    with a continuation byte: the characters of the one, then those of the
    other. *)
Lemma chars_three (b1 b2 b3 : ascii) (s3 : string) :
  chars (String b1 (String b2 (String b3 s3))) =
    if isspace (String b1 (String b2 (String b3 EmptyString)))
    then String b1 (String b2 (String b3 EmptyString)) :: chars s3
    else if isspace (String b1 (String b2 EmptyString))
         then String b1 (String b2 EmptyString) :: chars (String b3 s3)
         else String b1 EmptyString :: chars (String b2 (String b3 s3)).
Proof. reflexivity. Qed.

Lemma chars_two (b1 b2 : ascii) :
  chars (String b1 (String b2 EmptyString)) =
    if isspace (String b1 (String b2 EmptyString))
    then [String b1 (String b2 EmptyString)]
    else String b1 EmptyString :: chars (String b2 EmptyString).
Proof. reflexivity. Qed.

Lemma chars_app (s r : string) :
  begins_clean r → chars (s +:+ r) = chars s ++ chars r.
Proof.
  intros Hr. induction s as [s IH] using string_strong_ind.
  destruct r as [|c r']; [by rewrite append_empty_r, app_nil_r|]. simpl in Hr.
  assert (∀ a, isspace (String a (String c EmptyString)) = false) as Hc2.
  { intros a. apply not_true_is_false. intros H.
    apply isspace_two_continuation in H. congruence. }
  assert (∀ a b, isspace (String a (String b (String c EmptyString))) = false) as Hc3.
  { intros a b. apply not_true_is_false. intros H.
    apply isspace_three_continuation in H as [_ H]. congruence. }
  assert (∀ a b, isspace (String a (String c (String b EmptyString))) = false) as Hc3'.
  { intros a b. apply not_true_is_false. intros H.
    apply isspace_three_continuation in H as [H _]. congruence. }
  destruct s as [|b1 [|b2 [|b3 s3]]].
  - done.
  - change (String b1 EmptyString +:+ String c r') with (String b1 (String c r')).
    destruct r' as [|d r''].
    + by rewrite chars_two, Hc2.
    + by rewrite chars_three, Hc3', Hc2.
  - change (String b1 (String b2 EmptyString) +:+ String c r')
      with (String b1 (String b2 (String c r'))).
    rewrite chars_three, Hc3, chars_two.
    destruct (isspace (String b1 (String b2 EmptyString))); [done|].
    change (String b2 (String c r')) with (String b2 EmptyString +:+ String c r').
    rewrite IH by (simpl; lia). done.
  - change (String b1 (String b2 (String b3 s3)) +:+ String c r')
      with (String b1 (String b2 (String b3 (s3 +:+ String c r')))).
    rewrite !(chars_three b1 b2 b3).
    destruct (isspace (String b1 (String b2 (String b3 EmptyString)))).
    { rewrite IH by (simpl; lia). done. }
    destruct (isspace (String b1 (String b2 EmptyString))).
    { change (String b3 (s3 +:+ String c r')) with (String b3 s3 +:+ String c r').
      rewrite IH by (simpl; lia). done. }
    change (String b2 (String b3 (s3 +:+ String c r')))
      with (String b2 (String b3 s3) +:+ String c r').
    rewrite IH by (simpl; lia). done.
Qed.

(** The characters of a run of separators followed by any string. *)
Lemma chars_app_sep (g s : string) :
  all_sep (chars g) = true → chars (g +:+ s) = chars g ++ chars s.
Proof.
  induction g as [g IH] using string_strong_ind. intros Hg.
  destruct (chars g) as [|u l] eqn:Hc.
  { rewrite <- (encode_chars g), Hc. done. }
  destruct (chars_cons_inv g u l Hc) as (g' & -> & <-).
  simpl in Hg. apply andb_true_iff in Hg as [Hu Hg].
  rewrite append_assoc, (chars_cons_sep u _ Hu). simpl. f_equal.
  apply IH; [|done].
  destruct (is_sep_first_byte u Hu) as (a & u' & -> & _).
  rewrite length_append. simpl. lia.
Qed.

Lemma at_boundary_begins_clean (l : list string) :
  at_boundary l → begins_clean (encode l).
Proof.
  destruct l as [|u l]; simpl; [done|]. intros Hu.
  by destruct (is_sep_first_byte u Hu) as (a & u' & -> & Ha).
Qed.

(** A token of a string is the characters of its own encoding. *)
Lemma chars_token (s : string) (pre t rest : list string) :
  chars s = pre ++ t ++ rest → at_boundary rest → chars (encode t) = t.
Proof.
  intros Hs Hb.
  pose proof (chars_suffix s pre _ Hs) as Htr.
  rewrite app_assoc in Hs. pose proof (chars_suffix s _ _ Hs) as Hr.
  rewrite encode_app, chars_app, Hr in Htr by (by apply at_boundary_begins_clean).
  by apply app_inv_tail in Htr.
Qed.

(** Every token of a string is the characters of its own encoding. *)
Lemma tokens_of_chars (s : string) (pre l : list string) (toks : list (list string)) :
  chars s = pre ++ l → tokens_of l toks → Forall (λ t, chars (encode t) = t) toks.
Proof.
  intros Hs Htok. revert pre Hs.
  induction Htok as [g Hg|g t rest toks Hg Ht Hb Hrest IH]; intros pre Hs; [done|].
  constructor.
  - apply (chars_token s (pre ++ g) t rest); [by rewrite <- app_assoc|done].
  - apply (IH (pre ++ g ++ t)). by rewrite <- !app_assoc.
Qed.


(** ** retire_old_licenses: the three loops *)

(** A loop that saves [f] of every row: rows with distinct keys end up as
    [f] of what they were, every other row is untouched. *)
Lemma save_loop_effect (loop : list (Z * License) → M unit) (f : License → License) :
  loop [] = mret tt →
  (∀ pk l rest, loop ((pk, l) :: rest) = (save pk (f l);; loop rest)) →
  ∀ rows w,
    NoDup rows.*1 →
    (loop rows w).2 = Ok tt
    ∧ trace (loop rows w).1 = trace w
    ∧ subscription_plans (db (loop rows w).1) = subscription_plans (db w)
    ∧ customer_agreements (db (loop rows w).1) = customer_agreements (db w)
    ∧ (∀ pk, pk ∉ rows.*1 → licenses (db (loop rows w).1) !! pk = licenses (db w) !! pk)
    ∧ (∀ pk l, (pk, l) ∈ rows → licenses (db (loop rows w).1) !! pk = Some (f l)).
Proof.
  intros Hnil Hcons rows. induction rows as [|[pk0 l0] rest IH]; intros w Hnd.
  { rewrite Hnil. repeat split; try done. by intros pk l ?%elem_of_nil. }
  rewrite fmap_cons in Hnd. cbn [fst] in Hnd. apply NoDup_cons in Hnd as [Hpk0 Hnd].
  rewrite Hcons. unfold mbind, M_bind, save.
  set (w1 := mkWorld _ _).
  destruct (IH w1 Hnd) as (Hr & Htr & Hp & Ha & Hout & Hin).
  repeat split; try done.
  - intros pk Hpk. rewrite fmap_cons in Hpk. cbn [fst] in Hpk.
    apply not_elem_of_cons in Hpk as [Hne Hpk].
    rewrite (Hout pk Hpk). subst w1. cbn [db licenses]. by rewrite lookup_insert_ne.
  - intros pk l [[= -> ->]|Hrow]%elem_of_cons.
    + rewrite (Hout pk0 Hpk0). subst w1. cbn [db licenses]. by rewrite lookup_insert_eq.
    + by apply Hin.
Qed.

Lemma retire_revoked_effect (rows : list (Z * License)) (w : World) :
  NoDup rows.*1 →
  (Retire.retire_revoked rows w).2 = Ok tt
  ∧ trace (Retire.retire_revoked rows w).1 = trace w
  ∧ subscription_plans (db (Retire.retire_revoked rows w).1) = subscription_plans (db w)
  ∧ customer_agreements (db (Retire.retire_revoked rows w).1) = customer_agreements (db w)
  ∧ (∀ pk, pk ∉ rows.*1 →
       licenses (db (Retire.retire_revoked rows w).1) !! pk = licenses (db w) !! pk)
  ∧ (∀ pk l, (pk, l) ∈ rows →
       licenses (db (Retire.retire_revoked rows w).1) !! pk = Some (clear_pii l)).
Proof. by apply (save_loop_effect Retire.retire_revoked clear_pii). Qed.

Lemma retire_assigned_effect (rows : list (Z * License)) (w : World) :
  NoDup rows.*1 →
  (Retire.retire_assigned rows w).2 = Ok tt
  ∧ trace (Retire.retire_assigned rows w).1 = trace w
  ∧ subscription_plans (db (Retire.retire_assigned rows w).1) = subscription_plans (db w)
  ∧ customer_agreements (db (Retire.retire_assigned rows w).1) = customer_agreements (db w)
  ∧ (∀ pk, pk ∉ rows.*1 →
       licenses (db (Retire.retire_assigned rows w).1) !! pk = licenses (db w) !! pk)
  ∧ (∀ pk l, (pk, l) ∈ rows →
       licenses (db (Retire.retire_assigned rows w).1) !! pk = Some (reset_to_unassigned l)).
Proof. by apply (save_loop_effect Retire.retire_assigned reset_to_unassigned). Qed.

(** The loop over the licenses of long expired plans: each of its rows
    ends up without PII, REVOKED, and revoked at a time read from the clock
    during the loop. *)
Lemma retire_expired_effect (env : Env) (rows : list (Z * License)) (w : World) :
  NoDup rows.*1 →
  (Retire.retire_expired env rows w).2 = Ok tt
  ∧ trace w `prefix_of` trace (Retire.retire_expired env rows w).1
  ∧ subscription_plans (db (Retire.retire_expired env rows w).1) = subscription_plans (db w)
  ∧ customer_agreements (db (Retire.retire_expired env rows w).1)
    = customer_agreements (db w)
  ∧ (∀ pk, pk ∉ rows.*1 →
       licenses (db (Retire.retire_expired env rows w).1) !! pk = licenses (db w) !! pk)
  ∧ (∀ pk l, (pk, l) ∈ rows →
       ∃ tr, trace w `prefix_of` tr
         ∧ tr `prefix_of` trace (Retire.retire_expired env rows w).1
         ∧ licenses (db (Retire.retire_expired env rows w).1) !! pk
           = Some (set_revoked_date (Some (datetime_now env tr))
                     (set_status REVOKED (clear_pii l)))).
Proof.
  revert w. induction rows as [|[pk0 l0] rest IH]; intros w Hnd.
  { simpl. repeat split; try done. by intros pk l ?%elem_of_nil. }
  rewrite fmap_cons in Hnd. cbn [fst] in Hnd. apply NoDup_cons in Hnd as [Hpk0 Hnd].
  cbn [Retire.retire_expired]. unfold mbind, M_bind, now_naive, save. cbn [db trace].
  set (w1 := mkWorld _ _).
  destruct (IH w1 Hnd) as (Hr & Htr & Hp & Ha & Hout & Hin).
  assert (trace w `prefix_of` trace w1) as Hpre by (by apply prefix_app_r).
  repeat split; try done.
  - by etrans.
  - intros pk Hpk. rewrite fmap_cons in Hpk. cbn [fst] in Hpk.
    apply not_elem_of_cons in Hpk as [Hne Hpk].
    rewrite (Hout pk Hpk). subst w1. cbn [db licenses]. by rewrite lookup_insert_ne.
  - intros pk l [[= -> ->]|Hrow]%elem_of_cons.
    + exists (trace w). split; [done|]. split; [by etrans|].
      rewrite (Hout pk0 Hpk0). subst w1. cbn [db licenses]. by rewrite lookup_insert_eq.
    + destruct (Hin pk l Hrow) as (tr & Hpre1 & Hpre2 & Hl).
      exists tr. split; [by etrans|]. done.
Qed.

(** ** retire_old_licenses: the command *)

(** The rows of a query, seen from a stored license. *)
Lemma table_filter_stored (P : License → bool) (m : gmap Z License) (pk : Z) (l : License) :
  m !! pk = Some l →
  (P l = true → (pk, l) ∈ filter (λ row : Z * License, P row.2) (map_to_list m))
  ∧ (P l = false → pk ∉ (filter (λ row : Z * License, P row.2) (map_to_list m)).*1).
Proof.
  intros Hl. destruct (table_filter_spec P m) as [_ Hin]. split.
  - intros HP. by apply Hin.
  - intros HP Hpk. apply list_elem_of_fmap in Hpk as ([pk' l'] & -> & Hrow).
    apply Hin in Hrow as [Hl' HP']. cbn [fst] in Hl. congruence.
Qed.

(** A run of the command is its three phases, one after the other; each
    phase looks at the table the previous one left. *)
Lemma retire_handle_phases (env : Env) (w : World) :
  let ready := to_date (datetime_now env (trace w)) - DAYS_TO_RETIRE in
  ∃ w1 w2,
    (Retire.handle env w).2 = Ok tt
    ∧ subscription_plans (db w1) = subscription_plans (db w)
    ∧ trace w `prefix_of` trace w1
    ∧ trace w1 `prefix_of` trace (Retire.handle env w).1
    ∧ (∀ pk l, licenses (db w) !! pk = Some l →
         if Retire.expired_for_retirement (db w) ready l
         then ∃ tr, trace w `prefix_of` tr ∧ tr `prefix_of` trace w1
                ∧ licenses (db w1) !! pk
                  = Some (set_revoked_date (Some (datetime_now env tr))
                            (set_status REVOKED (clear_pii l)))
         else licenses (db w1) !! pk = Some l)
    ∧ (∀ pk l, licenses (db w1) !! pk = Some l →
         licenses (db w2) !! pk
         = Some (if Retire.revoked_for_retirement ready l then clear_pii l else l))
    ∧ (∀ pk l, licenses (db w2) !! pk = Some l →
         licenses (db (Retire.handle env w).1) !! pk
         = Some (if Retire.assigned_for_retirement ready l
                 then reset_to_unassigned l else l)).
Proof.
  intros ready. remember (Retire.handle env w) as res eqn:Hres.
  unfold Retire.handle, Retire.query in Hres.
  unfold mbind at 1, M_bind at 1, now_naive in Hres. fold ready in Hres.
  set (w0 := mkWorld (db w) (trace w ++ [ClockRead])) in Hres.
  unfold mbind at 1, M_bind at 1 in Hres.
  unfold mbind at 1, M_bind at 1, get_db, mret, M_ret in Hres.
  set (rows1 := filter _ (map_to_list (licenses (db w0)))) in Hres.
  destruct (table_filter_spec (Retire.expired_for_retirement (db w0) ready)
              (licenses (db w0))) as [Hnd1 _].
  destruct (retire_expired_effect env rows1 w0 Hnd1) as (Hr1 & Htr1 & Hp1 & Ha1 & Hout1 & Hin1).
  unfold mbind at 1, M_bind at 1 in Hres.
  destruct (Retire.retire_expired env rows1 w0) as [w1 r1]. cbn [fst snd] in *. subst r1.
  unfold mbind at 1, M_bind at 1 in Hres. unfold mbind at 1, M_bind at 1 in Hres.
  set (rows2 := filter _ (map_to_list (licenses (db w1)))) in Hres.
  destruct (table_filter_spec (Retire.revoked_for_retirement ready)
              (licenses (db w1))) as [Hnd2 _].
  destruct (retire_revoked_effect rows2 w1 Hnd2) as (Hr2 & Htr2 & Hp2 & Ha2 & Hout2 & Hin2).
  unfold mbind at 1, M_bind at 1 in Hres.
  destruct (Retire.retire_revoked rows2 w1) as [w2 r2]. cbn [fst snd] in *. subst r2.
  unfold mbind at 1, M_bind at 1 in Hres. unfold mbind at 1, M_bind at 1 in Hres.
  set (rows3 := filter _ (map_to_list (licenses (db w2)))) in Hres.
  destruct (table_filter_spec (Retire.assigned_for_retirement ready)
              (licenses (db w2))) as [Hnd3 _].
  destruct (retire_assigned_effect rows3 w2 Hnd3) as (Hr3 & Htr3 & Hp3 & Ha3 & Hout3 & Hin3).
  subst res.
  exists w1, w2. repeat split; try done.
  - etrans; [|exact Htr1]. by apply prefix_app_r.
  - by rewrite Htr3, Htr2.
  - intros pk l Hl.
    destruct (table_filter_stored (Retire.expired_for_retirement (db w0) ready)
                (licenses (db w0)) pk l Hl) as [Hyes Hno].
    change (db w0) with (db w) in *.
    destruct (Retire.expired_for_retirement (db w) ready l).
    + destruct (Hin1 pk l (Hyes eq_refl)) as (tr & Hpre1 & Hpre2 & Hl1).
      exists tr. split; [|done]. etrans; [|exact Hpre1]. by apply prefix_app_r.
    + by rewrite (Hout1 pk (Hno eq_refl)).
  - intros pk l Hl.
    destruct (table_filter_stored (Retire.revoked_for_retirement ready)
                (licenses (db w1)) pk l Hl) as [Hyes Hno].
    destruct (Retire.revoked_for_retirement ready l).
    + by apply Hin2, Hyes.
    + by rewrite (Hout2 pk (Hno eq_refl)).
  - intros pk l Hl.
    destruct (table_filter_stored (Retire.assigned_for_retirement ready)
                (licenses (db w2)) pk l Hl) as [Hyes Hno].
    destruct (Retire.assigned_for_retirement ready l).
    + by apply Hin3, Hyes.
    + by rewrite (Hout3 pk (Hno eq_refl)).
Qed.

Lemma expired_for_retirement_true (d : DB) (today : Z) (l : License) (p : SubscriptionPlan) :
  user_email l ≠ None →
  subscription_plans d !! subscription_plan l = Some p →
  DAYS_TO_RETIRE < today - to_date (expiration_date p) →
  Retire.expired_for_retirement d (today - DAYS_TO_RETIRE) l = true.
Proof.
  intros He Hp Hold. unfold Retire.expired_for_retirement, plan_of. rewrite Hp. simpl.
  rewrite andb_true_iff, !bool_decide_eq_true. split; [done|].
  apply to_date_lt. lia.
Qed.

Lemma expired_for_retirement_false (d : DB) (today : Z) (l : License) :
  user_email l = None
  ∨ (∀ p, subscription_plans d !! subscription_plan l = Some p →
          today - to_date (expiration_date p) ≤ DAYS_TO_RETIRE) →
  Retire.expired_for_retirement d (today - DAYS_TO_RETIRE) l = false.
Proof.
  intros H. unfold Retire.expired_for_retirement, plan_of.
  apply andb_false_iff. destruct H as [He|Hp].
  - left. apply bool_decide_eq_false. rewrite He. intros Hne. by apply Hne.
  - right. destruct (subscription_plans d !! subscription_plan l) as [p|]; [|done].
    simpl. rewrite bool_decide_eq_false, <- to_date_lt. specialize (Hp p eq_refl). lia.
Qed.

(** C6. On a run of [retire_old_licenses], every license with a non-null
    [user_email] whose plan's expiration date is more than [DAYS_TO_RETIRE]
    (90) days before today's date ends the run with its PII cleared, its
    status REVOKED and its [revoked_date] set to a time read from the clock
    during the run, whatever its status was; its other fields are as
    before.  The run returns normally. *)
Theorem expired_plan_licenses_are_revoked (env : Env) (w : World) (pk : Z) (l : License)
    (p : SubscriptionPlan) :
  licenses (db w) !! pk = Some l →
  user_email l ≠ None →
  subscription_plans (db w) !! subscription_plan l = Some p →
  DAYS_TO_RETIRE < to_date (datetime_now env (trace w)) - to_date (expiration_date p) →
  (Retire.handle env w).2 = Ok tt
  ∧ ∃ tr, trace w `prefix_of` tr
      ∧ tr `prefix_of` trace (Retire.handle env w).1
      ∧ licenses (db (Retire.handle env w).1) !! pk
        = Some (mkLicense (uuid l) REVOKED None None (assigned_date l)
                  (Some (datetime_now env tr))
                  (expiration_reminder_sent_date l)
                  (subscription_plan_expiration_email_sent_date l)
                  (subscription_plan l)).
Proof.
  intros Hl He Hp Hold.
  destruct (retire_handle_phases env w)
    as (w1 & w2 & Hr & _ & _ & Hpre & Hph1 & Hph2 & Hph3).
  split; [done|].
  specialize (Hph1 pk l Hl).
  rewrite (expired_for_retirement_true _ _ l p He Hp Hold) in Hph1.
  destruct Hph1 as (tr & Hpre1 & Hpre2 & Hl1).
  exists tr. split; [done|]. split; [by etrans|].
  specialize (Hph2 pk _ Hl1). specialize (Hph3 pk _ Hph2). exact Hph3.
Qed.

(** C7, as amended. On a run of [retire_old_licenses], every license with
    status ASSIGNED and an [assigned_date] more than 90 days before today
    that the first step of the run does not retire as a license of a long
    expired plan (its [user_email] is null, or its plan's expiration date is
    not more than 90 days before today) is reset to unassigned: its status
    becomes UNASSIGNED and its PII and its assignment and revocation
    timestamps are scrubbed. *)
Theorem stale_assigned_licenses_are_reset (env : Env) (w : World) (pk : Z) (l : License)
    (t : Z) :
  licenses (db w) !! pk = Some l →
  status l = ASSIGNED →
  assigned_date l = Some t →
  DAYS_TO_RETIRE < to_date (datetime_now env (trace w)) - to_date t →
  (user_email l = None
   ∨ ∀ p, subscription_plans (db w) !! subscription_plan l = Some p →
          to_date (datetime_now env (trace w)) - to_date (expiration_date p)
          ≤ DAYS_TO_RETIRE) →
  (Retire.handle env w).2 = Ok tt
  ∧ licenses (db (Retire.handle env w).1) !! pk
    = Some (mkLicense (uuid l) UNASSIGNED None None None None
              (expiration_reminder_sent_date l)
              (subscription_plan_expiration_email_sent_date l)
              (subscription_plan l)).
Proof.
  intros Hl Hs Ha Hold Hkeep.
  destruct (retire_handle_phases env w)
    as (w1 & w2 & Hr & _ & _ & _ & Hph1 & Hph2 & Hph3).
  split; [done|].
  specialize (Hph1 pk l Hl). rewrite (expired_for_retirement_false _ _ l Hkeep) in Hph1.
  specialize (Hph2 pk l Hph1).
  assert (Retire.revoked_for_retirement
            (to_date (datetime_now env (trace w)) - DAYS_TO_RETIRE) l = false) as Hrev.
  { unfold Retire.revoked_for_retirement. rewrite Hs. done. }
  rewrite Hrev in Hph2. specialize (Hph3 pk l Hph2).
  assert (Retire.assigned_for_retirement
            (to_date (datetime_now env (trace w)) - DAYS_TO_RETIRE) l = true) as Hasg.
  { unfold Retire.assigned_for_retirement. rewrite Hs, Ha. simpl.
    apply bool_decide_eq_true. lia. }
  by rewrite Hasg in Hph3.
Qed.

(** C8, as amended. On a run of [retire_old_licenses], every license with
    status REVOKED, a non-null [user_email] and a [revoked_date] more than
    90 days before today that the first step of the run does not retire as a
    license of a long expired plan (its plan's expiration date is not more
    than 90 days before today) has only its PII cleared: its status stays
    REVOKED and its [revoked_date] and every other field are as before. *)
Theorem stale_revoked_licenses_lose_only_pii (env : Env) (w : World) (pk : Z) (l : License)
    (t : Z) :
  licenses (db w) !! pk = Some l →
  status l = REVOKED →
  user_email l ≠ None →
  revoked_date l = Some t →
  DAYS_TO_RETIRE < to_date (datetime_now env (trace w)) - to_date t →
  (∀ p, subscription_plans (db w) !! subscription_plan l = Some p →
        to_date (datetime_now env (trace w)) - to_date (expiration_date p)
        ≤ DAYS_TO_RETIRE) →
  (Retire.handle env w).2 = Ok tt
  ∧ licenses (db (Retire.handle env w).1) !! pk
    = Some (mkLicense (uuid l) REVOKED None None (assigned_date l)
              (Some t)
              (expiration_reminder_sent_date l)
              (subscription_plan_expiration_email_sent_date l)
              (subscription_plan l)).
Proof.
  intros Hl Hs He Hrd Hold Hkeep.
  destruct (retire_handle_phases env w)
    as (w1 & w2 & Hr & _ & _ & _ & Hph1 & Hph2 & Hph3).
  split; [done|].
  specialize (Hph1 pk l Hl).
  rewrite (expired_for_retirement_false _ _ l (or_intror Hkeep)) in Hph1.
  specialize (Hph2 pk l Hph1).
  assert (Retire.revoked_for_retirement
            (to_date (datetime_now env (trace w)) - DAYS_TO_RETIRE) l = true) as Hrev.
  { unfold Retire.revoked_for_retirement. rewrite Hs, Hrd. simpl.
    rewrite !andb_true_iff, !bool_decide_eq_true. repeat split; try done. lia. }
  rewrite Hrev in Hph2. specialize (Hph3 pk _ Hph2).
  assert (Retire.assigned_for_retirement
            (to_date (datetime_now env (trace w)) - DAYS_TO_RETIRE) (clear_pii l) = false)
    as Hasg.
  { unfold Retire.assigned_for_retirement. cbn [clear_pii status]. rewrite Hs. done. }
  rewrite Hasg in Hph3. rewrite Hph3. unfold clear_pii. by rewrite Hs, Hrd.
Qed.

(** ** Concrete instances *)

(** A condition on concrete numbers of days holds by computation. *)
Ltac in_range :=
  match goal with
  | |- ?P => refine (bool_decide_eq_true_1 P _); vm_compute; reflexivity
  end.

(** The example license is not among the rows, by the window of [Hin]. *)
Ltac outside_window Hin :=
  let H := fresh in
  intros H; apply Hin in H as (_ & _ & (? & ? & H & _ & _ & ? & ?) & _);
  vm_compute in H; simplify_eq; done.

(** C1, at the example data: with thirty days, the example license is
    selected on the thirtieth day before its plan expires, and neither on
    the day before nor on the day after. *)
Lemma get_expiring_licenses_exact_witness :
  uuid_UUID (example_env (timedelta 19870 + 500)) example_uuid_string = Some example_uuid
  ∧ expiring_window_in_range (timedelta 19870 + 500) 30
  ∧ (∃ rows,
       (Reminders._get_expiring_licenses (example_env (timedelta 19870 + 500))
          example_uuid_string 30 (example_world example_activated)).2 = Ok rows
       ∧ (1, example_activated) ∈ rows)
  ∧ (∃ rows,
       (Reminders._get_expiring_licenses (example_env (timedelta 19869 + 500))
          example_uuid_string 30 (example_world example_activated)).2 = Ok rows
       ∧ (1, example_activated) ∉ rows)
  ∧ (∃ rows,
       (Reminders._get_expiring_licenses (example_env (timedelta 19871 + 500))
          example_uuid_string 30 (example_world example_activated)).2 = Ok rows
       ∧ (1, example_activated) ∉ rows).
Proof.
  assert (expiring_window_in_range (timedelta 19870 + 500) 30) as Hrange by in_range.
  split; [reflexivity|]. split; [exact Hrange|]. split; [|split].
  - destruct (get_expiring_licenses_exact (example_env (timedelta 19870 + 500))
                (example_world example_activated) example_uuid_string example_uuid 30 eq_refl)
      as [Hin _].
    destruct (Hin Hrange) as (rows & Heq & _ & Hrows).
    exists rows. split; [by rewrite Heq|].
    apply Hrows. split; [reflexivity|]. split; [reflexivity|]. split; [|reflexivity].
    exists example_plan, example_agreement.
    split; [reflexivity|]. split; [reflexivity|]. split; [reflexivity|].
    vm_compute. split; [intros H; discriminate H|reflexivity].
  - destruct (get_expiring_licenses_exact (example_env (timedelta 19869 + 500))
                (example_world example_activated) example_uuid_string example_uuid 30 eq_refl)
      as [Hin _].
    destruct (Hin ltac:(in_range)) as (rows & Heq & _ & Hrows).
    exists rows. split; [by rewrite Heq|]. outside_window Hrows.
  - destruct (get_expiring_licenses_exact (example_env (timedelta 19871 + 500))
                (example_world example_activated) example_uuid_string example_uuid 30 eq_refl)
      as [Hin _].
    destruct (Hin ltac:(in_range)) as (rows & Heq & _ & Hrows).
    exists rows. split; [by rewrite Heq|]. outside_window Hrows.
Defined.

(** C1 as stated fails where the calendar ends.  The plan of the example
    license expires at noon of 9999-12-31, a datetime of Python, and today
    is 2913026 days before that day: the license is ACTIVATED, of the
    customer, not yet reminded, and its plan's expiration date falls within
    the calendar day 2913026 days after the current time; but the end of
    the window, 00:00:00 of the following day, is no datetime, the
    selection raises [OverflowError] and returns no license.  With 3000000
    days the target day itself is past the year 9999, and the selection
    raises as well. *)
Lemma license_expiring_on_the_last_day_is_not_returned :
  uuid_UUID (example_env (timedelta 19870 + 500)) example_uuid_string = Some example_uuid
  ∧ licenses example_db_last_day !! 1 = Some example_activated
  ∧ status example_activated = ACTIVATED
  ∧ subscription_plans example_db_last_day !! subscription_plan example_activated
    = Some example_last_day_plan
  ∧ customer_agreements example_db_last_day !! customer_agreement example_last_day_plan
    = Some example_agreement
  ∧ enterprise_customer_uuid example_agreement = example_uuid
  ∧ datetime_min ≤ expiration_date example_last_day_plan ≤ datetime_max
  ∧ datetime_of_date (to_date (timedelta 19870 + 500) + 2913026)
    ≤ expiration_date example_last_day_plan
    < datetime_of_date (to_date (timedelta 19870 + 500) + 2913026 + 1)
  ∧ expiration_reminder_sent_date example_activated = None
  ∧ Reminders._get_expiring_licenses (example_env (timedelta 19870 + 500))
      example_uuid_string 2913026 (mkWorld example_db_last_day [])
    = (mkWorld example_db_last_day [ClockRead], Raise Exception_)
  ∧ Reminders._get_expiring_licenses (example_env (timedelta 19870 + 500))
      example_uuid_string 3000000 (example_world example_activated)
    = (mkWorld (example_db example_activated) [ClockRead], Raise Exception_).
Proof. repeat split; vm_compute; try reflexivity; intros H; discriminate H. Qed.

(** C5, at the example data: with a look back of seven days, the example
    license is selected on the day after its plan expired and on the
    seventh day after, and neither on the day of the expiration, an hour
    after it, nor on the eighth day after. *)
Lemma get_recently_expired_plan_licenses_exact_witness :
  uuid_UUID (example_env (timedelta 19901 + 500)) example_uuid_string = Some example_uuid
  ∧ recently_expired_window_in_range (timedelta 19901 + 500) 7
  ∧ (∃ rows,
       (PlanExpiration._get_recently_expired_plan_licenses (example_env (timedelta 19901 + 500))
          example_uuid_string 7 (example_world example_activated)).2 = Ok rows
       ∧ (1, example_activated) ∈ rows)
  ∧ (∃ rows,
       (PlanExpiration._get_recently_expired_plan_licenses (example_env (timedelta 19907 + 500))
          example_uuid_string 7 (example_world example_activated)).2 = Ok rows
       ∧ (1, example_activated) ∈ rows)
  ∧ (∃ rows,
       (PlanExpiration._get_recently_expired_plan_licenses
          (example_env (example_expiration + 3600000000))
          example_uuid_string 7 (example_world example_activated)).2 = Ok rows
       ∧ (1, example_activated) ∉ rows)
  ∧ (∃ rows,
       (PlanExpiration._get_recently_expired_plan_licenses (example_env (timedelta 19908 + 500))
          example_uuid_string 7 (example_world example_activated)).2 = Ok rows
       ∧ (1, example_activated) ∉ rows).
Proof.
  assert (recently_expired_window_in_range (timedelta 19901 + 500) 7) as Hrange by in_range.
  split; [reflexivity|]. split; [exact Hrange|]. split; [|split; [|split]].
  - destruct (get_recently_expired_plan_licenses_exact (example_env (timedelta 19901 + 500))
                (example_world example_activated) example_uuid_string example_uuid 7 eq_refl)
      as [Hin _].
    destruct (Hin Hrange) as (rows & Heq & _ & Hrows).
    exists rows. split; [by rewrite Heq|].
    apply Hrows. split; [reflexivity|]. split; [reflexivity|]. split; [|reflexivity].
    exists example_plan, example_agreement.
    split; [reflexivity|]. split; [reflexivity|]. split; [reflexivity|].
    vm_compute. split; [intros H; discriminate H|reflexivity].
  - destruct (get_recently_expired_plan_licenses_exact (example_env (timedelta 19907 + 500))
                (example_world example_activated) example_uuid_string example_uuid 7 eq_refl)
      as [Hin _].
    destruct (Hin ltac:(in_range)) as (rows & Heq & _ & Hrows).
    exists rows. split; [by rewrite Heq|].
    apply Hrows. split; [reflexivity|]. split; [reflexivity|]. split; [|reflexivity].
    exists example_plan, example_agreement.
    split; [reflexivity|]. split; [reflexivity|]. split; [reflexivity|].
    vm_compute. split; [intros H; discriminate H|reflexivity].
  - destruct (get_recently_expired_plan_licenses_exact
                (example_env (example_expiration + 3600000000))
                (example_world example_activated) example_uuid_string example_uuid 7 eq_refl)
      as [Hin _].
    destruct (Hin ltac:(in_range)) as (rows & Heq & _ & Hrows).
    exists rows. split; [by rewrite Heq|]. outside_window Hrows.
  - destruct (get_recently_expired_plan_licenses_exact (example_env (timedelta 19908 + 500))
                (example_world example_activated) example_uuid_string example_uuid 7 eq_refl)
      as [Hin _].
    destruct (Hin ltac:(in_range)) as (rows & Heq & _ & Hrows).
    exists rows. split; [by rewrite Heq|]. outside_window Hrows.
Defined.

(** C5 as stated fails for a look back past the start of the calendar.
    Three days after its plan expired the example license is ACTIVATED, of
    the customer, not yet notified, and its plan's expiration date is at or
    after today's midnight minus 3000000 days and before today's midnight;
    but 3000000 days before today is before the year 1, the selection
    raises [OverflowError] and returns no license. *)
Lemma recently_expired_license_is_not_returned_for_a_far_look_back :
  uuid_UUID (example_env (timedelta 19903 + 500)) example_uuid_string = Some example_uuid
  ∧ licenses (example_db example_activated) !! 1 = Some example_activated
  ∧ status example_activated = ACTIVATED
  ∧ subscription_plans (example_db example_activated) !! subscription_plan example_activated
    = Some example_plan
  ∧ customer_agreements (example_db example_activated) !! customer_agreement example_plan
    = Some example_agreement
  ∧ enterprise_customer_uuid example_agreement = example_uuid
  ∧ datetime_of_date (to_date (timedelta 19903 + 500)) - timedelta 3000000
    ≤ expiration_date example_plan
    < datetime_of_date (to_date (timedelta 19903 + 500))
  ∧ subscription_plan_expiration_email_sent_date example_activated = None
  ∧ PlanExpiration._get_recently_expired_plan_licenses (example_env (timedelta 19903 + 500))
      example_uuid_string 3000000 (example_world example_activated)
    = (mkWorld (example_db example_activated) [ClockRead], Raise Exception_).
Proof. repeat split; vm_compute; try reflexivity; intros H; discriminate H. Qed.

(** C6, at the example data: a hundred days after the example plan
    expired, its activated license is revoked and loses its PII. *)
Lemma expired_plan_licenses_are_revoked_witness :
  licenses (db (example_world example_activated)) !! 1 = Some example_activated
  ∧ user_email example_activated ≠ None
  ∧ subscription_plans (db (example_world example_activated))
      !! subscription_plan example_activated = Some example_plan
  ∧ DAYS_TO_RETIRE
    < to_date (datetime_now (example_env (timedelta 20000))
                 (trace (example_world example_activated)))
      - to_date (expiration_date example_plan)
  ∧ licenses (db (Retire.handle (example_env (timedelta 20000))
                    (example_world example_activated)).1) !! 1
    = Some (mkLicense 1001%N REVOKED None None (Some (timedelta 19600))
              (Some (timedelta 20000)) None None 1).
Proof.
  assert (user_email example_activated ≠ None) as He by discriminate.
  assert (DAYS_TO_RETIRE
          < to_date (datetime_now (example_env (timedelta 20000))
                       (trace (example_world example_activated)))
            - to_date (expiration_date example_plan)) as Hold by (vm_compute; reflexivity).
  split; [reflexivity|]. split; [exact He|]. split; [reflexivity|]. split; [exact Hold|].
  destruct (expired_plan_licenses_are_revoked (example_env (timedelta 20000))
              (example_world example_activated) 1 example_activated example_plan
              eq_refl He eq_refl Hold) as (_ & tr & _ & _ & Hl).
  rewrite Hl. reflexivity.
Defined.

(** C7 as stated fails: a license with status ASSIGNED, assigned 110 days
    before today, whose plan expired 100 days before today, ends the run
    REVOKED, with its [assigned_date] still on it, and not reset to
    unassigned: the first step of the run retires it as a license of a long
    expired plan, and the third step, which looks for ASSIGNED licenses, no
    longer finds it. *)
Lemma stale_assigned_license_on_expired_plan_is_revoked :
  licenses (db (example_world example_assigned)) !! 1 = Some example_assigned
  ∧ status example_assigned = ASSIGNED
  ∧ assigned_date example_assigned = Some (timedelta 19890)
  ∧ DAYS_TO_RETIRE
    < to_date (datetime_now (example_env (timedelta 20000))
                 (trace (example_world example_assigned)))
      - to_date (timedelta 19890)
  ∧ (Retire.handle (example_env (timedelta 20000)) (example_world example_assigned)).2
    = Ok tt
  ∧ licenses (db (Retire.handle (example_env (timedelta 20000))
                    (example_world example_assigned)).1) !! 1
    = Some (mkLicense 1002%N REVOKED None None (Some (timedelta 19890))
              (Some (timedelta 20000)) None None 1)
  ∧ status (reset_to_unassigned example_assigned) = UNASSIGNED.
Proof. repeat split; vm_compute; reflexivity. Qed.

(** C7 as amended, at the example data: the license was assigned 95 days
    before today and its plan expired 85 days before today. *)
Lemma stale_assigned_licenses_are_reset_witness :
  licenses (db (example_world example_assigned)) !! 1 = Some example_assigned
  ∧ status example_assigned = ASSIGNED
  ∧ assigned_date example_assigned = Some (timedelta 19890)
  ∧ DAYS_TO_RETIRE
    < to_date (datetime_now (example_env (timedelta 19985))
                 (trace (example_world example_assigned)))
      - to_date (timedelta 19890)
  ∧ to_date (datetime_now (example_env (timedelta 19985))
               (trace (example_world example_assigned)))
    - to_date (expiration_date example_plan) ≤ DAYS_TO_RETIRE
  ∧ licenses (db (Retire.handle (example_env (timedelta 19985))
                    (example_world example_assigned)).1) !! 1
    = Some (mkLicense 1002%N UNASSIGNED None None None None None None 1).
Proof.
  assert (DAYS_TO_RETIRE
          < to_date (datetime_now (example_env (timedelta 19985))
                       (trace (example_world example_assigned)))
            - to_date (timedelta 19890)) as Hold by (vm_compute; reflexivity).
  assert (to_date (datetime_now (example_env (timedelta 19985))
                     (trace (example_world example_assigned)))
          - to_date (expiration_date example_plan) ≤ DAYS_TO_RETIRE) as Hkeep
    by (vm_compute; intros H; discriminate H).
  split; [reflexivity|]. split; [reflexivity|]. split; [reflexivity|].
  split; [exact Hold|]. split; [exact Hkeep|].
  apply (stale_assigned_licenses_are_reset (example_env (timedelta 19985))
           (example_world example_assigned) 1 example_assigned (timedelta 19890)
           eq_refl eq_refl eq_refl Hold).
  right. intros p Hp. injection Hp as <-. exact Hkeep.
Defined.

(** C8 as stated fails: a license with status REVOKED, a [user_email] and a
    [revoked_date] 110 days before today, whose plan expired 100 days before
    today, ends the run with a new [revoked_date], the time of the run: the
    first step of the run retires it as a license of a long expired plan. *)
Lemma stale_revoked_license_on_expired_plan_is_revoked_anew :
  licenses (db (example_world example_revoked)) !! 1 = Some example_revoked
  ∧ status example_revoked = REVOKED
  ∧ user_email example_revoked ≠ None
  ∧ revoked_date example_revoked = Some (timedelta 19890)
  ∧ DAYS_TO_RETIRE
    < to_date (datetime_now (example_env (timedelta 20000))
                 (trace (example_world example_revoked)))
      - to_date (timedelta 19890)
  ∧ (Retire.handle (example_env (timedelta 20000)) (example_world example_revoked)).2
    = Ok tt
  ∧ licenses (db (Retire.handle (example_env (timedelta 20000))
                    (example_world example_revoked)).1) !! 1
    = Some (mkLicense 1003%N REVOKED None None (Some (timedelta 19600))
              (Some (timedelta 20000)) None None 1)
  ∧ timedelta 20000 ≠ timedelta 19890.
Proof. repeat split; try discriminate; vm_compute; reflexivity. Qed.

(** C8 as amended, at the example data: the license was revoked 95 days
    before today and its plan expired 85 days before today. *)
Lemma stale_revoked_licenses_lose_only_pii_witness :
  licenses (db (example_world example_revoked)) !! 1 = Some example_revoked
  ∧ status example_revoked = REVOKED
  ∧ user_email example_revoked ≠ None
  ∧ revoked_date example_revoked = Some (timedelta 19890)
  ∧ DAYS_TO_RETIRE
    < to_date (datetime_now (example_env (timedelta 19985))
                 (trace (example_world example_revoked)))
      - to_date (timedelta 19890)
  ∧ to_date (datetime_now (example_env (timedelta 19985))
               (trace (example_world example_revoked)))
    - to_date (expiration_date example_plan) ≤ DAYS_TO_RETIRE
  ∧ licenses (db (Retire.handle (example_env (timedelta 19985))
                    (example_world example_revoked)).1) !! 1
    = Some (mkLicense 1003%N REVOKED None None (Some (timedelta 19600))
              (Some (timedelta 19890)) None None 1).
Proof.
  assert (user_email example_revoked ≠ None) as He by discriminate.
  assert (DAYS_TO_RETIRE
          < to_date (datetime_now (example_env (timedelta 19985))
                       (trace (example_world example_revoked)))
            - to_date (timedelta 19890)) as Hold by (vm_compute; reflexivity).
  assert (to_date (datetime_now (example_env (timedelta 19985))
                     (trace (example_world example_revoked)))
          - to_date (expiration_date example_plan) ≤ DAYS_TO_RETIRE) as Hkeep
    by (vm_compute; intros H; discriminate H).
  split; [reflexivity|]. split; [reflexivity|]. split; [exact He|]. split; [reflexivity|].
  split; [exact Hold|]. split; [exact Hkeep|].
  apply (stale_revoked_licenses_lose_only_pii (example_env (timedelta 19985))
           (example_world example_revoked) 1 example_revoked (timedelta 19890)
           eq_refl eq_refl He eq_refl Hold).
  intros p Hp. injection Hp as <-. exact Hkeep.
Defined.

(** C3, at the example data: a run for two customers.  The enterprise API
    is down for the first customer, whose processing raises; the second
    customer is processed all the same and its license is sent its email;
    the command ends by raising. *)
Lemma partial_failures_are_aggregated_witness :
  _parse_enterprise_customer_uuids (example_env_two_customers (timedelta 19870))
    (example_uuid_string +:+ "," +:+ example_other_uuid_string)
  = Ok [example_uuid_string; example_other_uuid_string]
  ∧ [example_uuid_string; example_other_uuid_string] ≠ []
  ∧ customer_results
      (λ u, Reminders._process_enterprise_customer
              (example_env_two_customers (timedelta 19870)) u 30 false)
      [example_uuid_string; example_other_uuid_string]
      (mkWorld example_db_two_customers [])
    = [Raise Exception_; Ok (mkCounts 1 0)]
  ∧ (Raise ValueError ∉
       (customer_results
          (λ u, Reminders._process_enterprise_customer
                  (example_env_two_customers (timedelta 19870)) u 30 false)
          [example_uuid_string; example_other_uuid_string]
          (mkWorld example_db_two_customers [])))
  ∧ Reminders.customers_loop (example_env_two_customers (timedelta 19870)) 30 false
      [example_uuid_string; example_other_uuid_string] 0 0
      (mkWorld example_db_two_customers [])
    = (after_customers
         (λ u, Reminders._process_enterprise_customer
                 (example_env_two_customers (timedelta 19870)) u 30 false)
         [example_uuid_string; example_other_uuid_string]
         (mkWorld example_db_two_customers []),
       Ok (1, 1)%nat)
  ∧ processed
      (trace (Reminders.handle (example_env_two_customers (timedelta 19870))
                (mkOptions (example_uuid_string +:+ "," +:+ example_other_uuid_string)
                   30 false)
                (mkWorld example_db_two_customers [])).1)
    = [example_uuid_string; example_other_uuid_string]
  ∧ emails_sent 2
      (trace (Reminders.handle (example_env_two_customers (timedelta 19870))
                (mkOptions (example_uuid_string +:+ "," +:+ example_other_uuid_string)
                   30 false)
                (mkWorld example_db_two_customers [])).1) = 1%nat
  ∧ (Reminders.handle (example_env_two_customers (timedelta 19870))
       (mkOptions (example_uuid_string +:+ "," +:+ example_other_uuid_string) 30 false)
       (mkWorld example_db_two_customers [])).2
    = Raise Exception_.
Proof.
  assert ([example_uuid_string; example_other_uuid_string] ≠ []) as Hne by discriminate.
  assert (customer_results
            (λ u, Reminders._process_enterprise_customer
                    (example_env_two_customers (timedelta 19870)) u 30 false)
            [example_uuid_string; example_other_uuid_string]
            (mkWorld example_db_two_customers [])
          = [Raise Exception_; Ok (mkCounts 1 0)]) as Hresults by (vm_compute; reflexivity).
  assert (Raise ValueError ∉
            (customer_results
               (λ u, Reminders._process_enterprise_customer
                       (example_env_two_customers (timedelta 19870)) u 30 false)
               [example_uuid_string; example_other_uuid_string]
               (mkWorld example_db_two_customers []))) as Hno.
  { rewrite Hresults. intros Hin.
    apply elem_of_cons in Hin as [Hin|Hin]; [discriminate Hin|].
    apply list_elem_of_singleton in Hin. discriminate Hin. }
  destruct (partial_failures_are_aggregated (example_env_two_customers (timedelta 19870))
              (example_uuid_string +:+ "," +:+ example_other_uuid_string) 30 false
              (mkWorld example_db_two_customers [])
              [example_uuid_string; example_other_uuid_string] eq_refl Hne) as [Hreminders _].
  destruct (Hreminders Hno) as (Hloop & Hprocessed & Hhandle).
  split; [reflexivity|]. split; [exact Hne|]. split; [exact Hresults|]. split; [exact Hno|].
  split; [rewrite Hloop, Hresults; reflexivity|].
  split; [rewrite Hhandle; exact Hprocessed|].
  split; [rewrite Hhandle; vm_compute; reflexivity|].
  rewrite Hhandle, Hresults. reflexivity.
Defined.

(** C2, at the example data: one run sends the example license its email
    and marks it; no later selection returns it. *)
Lemma one_email_per_license_witness :
  (emails_sent 1
     (trace (runs Reminders.handle
               [(example_env (timedelta 19870), mkOptions example_uuid_string 30 false);
                (example_env (timedelta 19870 + 7200000000),
                 mkOptions example_uuid_string 30 false)]
               (mkWorld (example_db example_activated) []))) ≤ 1)%nat
  ∧ licenses (db (example_world example_activated)) !! 1 = Some example_activated
  ∧ Reminders._send_expiration_reminder_email (example_env (timedelta 19870)) 1
      example_activated ∅ (example_world example_activated)
    = (mkWorld (example_db example_activated)
         [ClockRead; BrazeAliasCall 1 None; CampaignMessage 1 None], Ok tt)
  ∧ (Reminders.send_loop (example_env (timedelta 19870)) ∅ [(1, example_activated)] 0 0
       (example_world example_activated)).2 = Ok (mkCounts 1 0)
  ∧ licenses (db (Reminders.handle (example_env (timedelta 19870))
                    (mkOptions example_uuid_string 30 false)
                    (example_world example_activated)).1) !! 1
    = Some (set_expiration_reminder_sent_date (Some (timedelta 19870)) example_activated)
  ∧ (∃ rows,
       (Reminders._get_expiring_licenses (example_env (timedelta 19870 + 7200000000))
          example_uuid_string 30
          (runs Reminders.handle []
             (Reminders.handle (example_env (timedelta 19870))
                (mkOptions example_uuid_string 30 false)
                (example_world example_activated)).1)).2 = Ok rows
       ∧ 1 ∉ rows.*1)
  ∧ licenses (db (PlanExpiration.handle (example_env (timedelta 19903))
                    (mkOptions example_uuid_string 7 false)
                    (example_world example_activated)).1) !! 1
    = Some (set_subscription_plan_expiration_email_sent_date (Some (timedelta 19903))
              example_activated)
  ∧ (∃ rows,
       (PlanExpiration._get_recently_expired_plan_licenses
          (example_env (timedelta 19904)) example_uuid_string 7
          (runs PlanExpiration.handle []
             (PlanExpiration.handle (example_env (timedelta 19903))
                (mkOptions example_uuid_string 7 false)
                (example_world example_activated)).1)).2 = Ok rows
       ∧ 1 ∉ rows.*1).
Proof.
  destruct one_email_per_license as (Honce & Hsent & Hskip & _ & _ & Hskip').
  split; [apply Honce|]. split; [reflexivity|]. split; [reflexivity|].
  split.
  { rewrite (Hsent (example_env (timedelta 19870)) ∅ 1 example_activated example_activated
               [] 0%nat 0%nat (example_world example_activated) _ eq_refl eq_refl).
    reflexivity. }
  split; [reflexivity|]. split.
  { eexists. split; [reflexivity|].
    apply (Hskip []
             (Reminders.handle (example_env (timedelta 19870))
                (mkOptions example_uuid_string 30 false)
                (example_world example_activated)).1
             1 (set_expiration_reminder_sent_date (Some (timedelta 19870)) example_activated)
             (timedelta 19870) (example_env (timedelta 19870 + 7200000000))
             example_uuid_string 30); reflexivity. }
  split; [reflexivity|].
  eexists. split; [reflexivity|].
  apply (Hskip' []
           (PlanExpiration.handle (example_env (timedelta 19903))
              (mkOptions example_uuid_string 7 false)
              (example_world example_activated)).1
           1 (set_subscription_plan_expiration_email_sent_date (Some (timedelta 19903))
                example_activated)
           (timedelta 19903) (example_env (timedelta 19904)) example_uuid_string 7);
    reflexivity.
Defined.

(** C4, at the example data: Braze refuses the campaign message, the
    failure is counted and the row of the license is as it was. *)
Lemma failed_send_leaves_license_eligible_witness :
  Reminders._send_expiration_reminder_email (example_env_braze_refuses (timedelta 19870)) 1
    example_activated ∅ (example_world example_activated)
  = (mkWorld (example_db example_activated)
       [ClockRead; BrazeAliasCall 1 None; CampaignMessage 1 (Some BrazeClientError)],
     Raise BrazeClientError)
  ∧ BrazeClientError ≠ ValueError
  ∧ (Reminders.send_loop (example_env_braze_refuses (timedelta 19870)) ∅
       [(1, example_activated)] 0 0 (example_world example_activated)).2
    = Ok (mkCounts 0 1)
  ∧ send_raised 1 BrazeClientError
      (trace (Reminders._process_enterprise_customer
                (example_env_braze_refuses (timedelta 19870)) example_uuid_string 30 false
                (example_world example_activated)).1)
  ∧ licenses (db (Reminders._process_enterprise_customer
                    (example_env_braze_refuses (timedelta 19870)) example_uuid_string 30
                    false (example_world example_activated)).1) !! 1
    = Some example_activated.
Proof.
  destruct failed_send_leaves_license_eligible as (Hstep & Hprocess & _).
  assert (BrazeClientError ≠ ValueError) as Hne by discriminate.
  assert (send_raised 1 BrazeClientError
            (trace (Reminders._process_enterprise_customer
                      (example_env_braze_refuses (timedelta 19870)) example_uuid_string 30
                      false (example_world example_activated)).1)) as Hraised.
  { right. vm_compute. do 5 apply list_elem_of_further. apply list_elem_of_here. }
  split; [reflexivity|]. split; [exact Hne|]. split.
  { destruct (Hstep (example_env_braze_refuses (timedelta 19870)) ∅ 1 example_activated []
                0%nat 0%nat (example_world example_activated) _ BrazeClientError
                eq_refl Hne) as [_ ->].
    reflexivity. }
  split; [exact Hraised|].
  destruct (Hprocess (example_env_braze_refuses (timedelta 19870)) example_uuid_string 30
              false (example_world example_activated)) as (evs & Htr & Hkept & _).
  cbn [example_world trace app] in Htr. rewrite Htr in Hraised.
  destruct (Hkept 1 BrazeClientError Hraised) as (l & Hl & _ & Hl' & _).
  rewrite Hl', <- Hl. reflexivity.
Defined.

(** C9, at the example data. *)
Lemma dry_run_sends_and_writes_nothing_witness :
  _parse_enterprise_customer_uuids (example_env (timedelta 19870)) example_uuid_string
  = Ok [example_uuid_string]
  ∧ is_Some (uuid_UUID (example_env (timedelta 19870)) example_uuid_string)
  ∧ expiring_window_in_range (timedelta 19870) 30
  ∧ (Reminders.handle (example_env (timedelta 19870))
       (mkOptions example_uuid_string 30 true) (example_world example_activated)).2 = Ok tt
  ∧ db (Reminders.handle (example_env (timedelta 19870))
          (mkOptions example_uuid_string 30 true) (example_world example_activated)).1
    = example_db example_activated
  ∧ (Reminders._process_enterprise_customer (example_env (timedelta 19870))
       example_uuid_string 30 true (example_world example_activated)).2
    = Ok (mkCounts 0 0)
  ∧ db (Reminders.handle (example_env (timedelta 19870))
          (mkOptions example_uuid_string 3000000 true) (example_world example_activated)).1
    = example_db example_activated.
Proof.
  destruct (dry_run_sends_and_writes_nothing (example_env (timedelta 19870))
              example_uuid_string 30 (example_world example_activated))
    as [(Hdb & _ & Hok) _].
  destruct (dry_run_sends_and_writes_nothing (example_env (timedelta 19870))
              example_uuid_string 3000000 (example_world example_activated))
    as [(Hdb' & _) _].
  assert (is_Some (uuid_UUID (example_env (timedelta 19870)) example_uuid_string)) as Hvalid
    by (by eexists).
  assert (∀ tr, expiring_window_in_range
                  (localized_utcnow (example_env (timedelta 19870)) tr) 30) as Hrange
    by (intros tr; in_range).
  destruct (Hok Hrange) as (_ & Hret & Hzero).
  split; [reflexivity|]. split; [exact Hvalid|]. split; [exact (Hrange [])|].
  split; [by eapply Hret|]. split; [exact Hdb|].
  split; [|exact Hdb'].
  by rewrite (Hzero example_uuid_string (example_world example_activated) Hvalid).
Defined.

(** C9 as stated fails for days far away: a dry run with 3000000 days
    processes the one customer, whose selection raises [OverflowError]; the
    customer counts as a failure, and both commands end with the exception
    of the end of a run with failures. *)
Lemma dry_run_with_far_days_ends_with_failure :
  _parse_enterprise_customer_uuids (example_env (timedelta 19870)) example_uuid_string
  = Ok [example_uuid_string]
  ∧ Reminders.handle (example_env (timedelta 19870))
      (mkOptions example_uuid_string 3000000 true) (example_world example_activated)
    = (mkWorld (example_db example_activated)
         [LogProcessing example_uuid_string; ClockRead], Raise Exception_)
  ∧ PlanExpiration.handle (example_env (timedelta 19870))
      (mkOptions example_uuid_string 3000000 true) (example_world example_activated)
    = (mkWorld (example_db example_activated)
         [LogProcessing example_uuid_string; ClockRead], Raise Exception_).
Proof. repeat split; vm_compute; reflexivity. Qed.

(** * Further properties *)

(** ** Events of the email commands *)

Lemma alias_precedes_message_app (tr1 tr2 : list Event) :
  alias_precedes_message tr1 → alias_precedes_message tr2 →
  alias_precedes_message (tr1 ++ tr2).
Proof.
  intros H1 H2 i pk o Hi. destruct (decide (i < List.length tr1)%nat) as [Hlt|Hge].
  - rewrite lookup_app_l in Hi by done. destruct (H1 i pk o Hi) as (j & -> & Hj).
    exists j. split; [done|]. rewrite lookup_app_l by lia. done.
  - rewrite lookup_app_r in Hi by lia. destruct (H2 _ pk o Hi) as (j & Hij & Hj).
    exists (List.length tr1 + j)%nat. split; [lia|]. rewrite lookup_app_r by lia.
    by replace (List.length tr1 + j - List.length tr1)%nat with j by lia.
Qed.

Lemma failed_calls_app (tr1 tr2 : list Event) :
  failed_calls (tr1 ++ tr2) = (failed_calls tr1 + failed_calls tr2)%nat.
Proof. unfold failed_calls. by rewrite List.filter_app, length_app. Qed.

Lemma accepted_app (tr1 tr2 : list Event) :
  accepted (tr1 ++ tr2) = (accepted tr1 + accepted tr2)%nat.
Proof. unfold accepted. by rewrite List.filter_app, length_app. Qed.

(** A short list of events in which every campaign message comes right
    after its alias. *)
Ltac alias_first :=
  intros [|[|[|[|[|i]]]]] ? ? Hi; simplify_eq/=; eauto.

Section SendTrace.

Context (mark : option Z → License → License).
Context (campaign : option string) (env : Env) (ec : gmap string string).

(** The four ways one pass through the body of the loop can go, for a
    license whose row is stored. *)
Lemma send_and_mark_cases (pk : Z) (obj l : License) (w : World) :
  licenses (db w) !! pk = Some l →
  (unconfigured campaign
   ∧ send_and_mark campaign mark env ec (pk, obj) w
     = (mkWorld (db w) (trace w ++ [ClockRead]), Raise ValueError))
  ∨ (¬ unconfigured campaign
     ∧ ((∃ e, send_and_mark campaign mark env ec (pk, obj) w
              = (mkWorld (db w) (trace w ++ [ClockRead; BrazeAliasCall pk (Some e)]), Raise e))
        ∨ (∃ e, send_and_mark campaign mark env ec (pk, obj) w
                = (mkWorld (db w)
                     (trace w ++ [ClockRead; BrazeAliasCall pk None;
                                  CampaignMessage pk (Some e)]), Raise e))
        ∨ (∃ t, send_and_mark campaign mark env ec (pk, obj) w
                = (mkWorld
                     (mkDB (alter (mark (Some t)) pk (licenses (db w)))
                        (subscription_plans (db w)) (customer_agreements (db w)))
                     (trace w ++ [ClockRead; BrazeAliasCall pk None;
                                  CampaignMessage pk None; ClockRead]), Ok tt)))).
Proof.
  intros Hl. unfold send_and_mark, send_email_with. unfold_monad. simpl.
  destruct campaign as [[|c s]|]; simpl.
  1,3: left; split; [by (left + right)|done].
  right. split; [by intros [|]|].
  destruct (create_braze_alias_for_emails env _ _) as [e1|] eqn:E1; simpl.
  { left. exists e1. by rewrite <- app_assoc. }
  destruct (send_campaign_message env _ _ _ _) as [e2|] eqn:E2; simpl.
  { right. left. exists e2. by rewrite <- !app_assoc. }
  rewrite Hl. right. right. eexists. by rewrite <- !app_assoc.
Qed.

Lemma send_loop_trace (rows : list (Z * License)) (sc fc : nat) (w : World) :
  (∀ pk, pk ∈ rows.*1 → is_Some (licenses (db w) !! pk)) →
  ∃ evs,
    trace (send_loop_with campaign mark env ec rows sc fc w).1 = trace w ++ evs
    ∧ alias_precedes_message evs
    ∧ Forall (λ e, e = ClockRead ∨ is_braze_event e = true) evs
    ∧ (unconfigured campaign →
         db (send_loop_with campaign mark env ec rows sc fc w).1 = db w
         ∧ Forall (λ e, e = ClockRead) evs
         ∧ (rows ≠ [] →
              (send_loop_with campaign mark env ec rows sc fc w).2 = Raise ValueError))
    ∧ match (send_loop_with campaign mark env ec rows sc fc w).2 with
      | Ok c =>
          success_count c = (sc + accepted evs)%nat
          ∧ failure_count c = (fc + failed_calls evs)%nat
          ∧ (success_count c + failure_count c = sc + fc + List.length rows)%nat
      | Raise e =>
          e = ValueError ∧ (¬ unconfigured campaign → (0 < failed_calls evs)%nat)
      end.
Proof.
  revert sc fc w. induction rows as [|[pk0 obj] rest IH]; intros sc fc w Hex.
  { exists []. simpl. rewrite app_nil_r. repeat split; try done; lia. }
  destruct (Hex pk0) as [l0 Hl0]; [apply list_elem_of_here|].
  rewrite send_loop_with_cons.
  assert (∀ w1, (∀ pk, licenses (db w1) !! pk = licenses (db w) !! pk
                       ∨ ∃ f, licenses (db w1) = alter f pk0 (licenses (db w))) →
                ∀ pk, pk ∈ rest.*1 → is_Some (licenses (db w1) !! pk)) as Hex1.
  { intros w1 Hw1 pk Hin.
    assert (is_Some (licenses (db w) !! pk)) as Hs
      by (apply Hex; rewrite fmap_cons; by apply list_elem_of_further).
    destruct (Hw1 pk) as [->|[f ->]]; [done|].
    rewrite lookup_alter. case_decide; [subst|done]. by apply fmap_is_Some. }
  destruct (send_and_mark_cases pk0 obj l0 w Hl0)
    as [[Hun ->]|[Hcf [[e ->]|[[e ->]|[t ->]]]]].
  - exists [ClockRead]. cbn [fst snd db trace].
    split; [done|]. split; [by alias_first|]. split; [by repeat constructor|].
    split; [intros _; split; [done|]; split; [by repeat constructor|done]|].
    split; [done|]. intros Hcf. by destruct Hcf.
  - assert (e = ValueError ∨ e ≠ ValueError) as [->|He] by (destruct e; (by left) || by right).
    { exists [ClockRead; BrazeAliasCall pk0 (Some ValueError)]. cbn [fst snd db trace].
      repeat split; try done; try (by alias_first); try (by repeat constructor);
        try (cbn; lia).
      all: intros Hun; by destruct Hcf. }
    set (w1 := mkWorld (db w) (trace w ++ [ClockRead; BrazeAliasCall pk0 (Some e)])).
    destruct (IH sc (S fc) w1) as (evs & Htr & Hal & Hev & Hun & Hres).
    { apply Hex1. intros pk. by left. }
    assert (match e with
            | ValueError => (w1, Raise ValueError)
            | _ => send_loop_with campaign mark env ec rest sc (S fc) w1
            end = send_loop_with campaign mark env ec rest sc (S fc) w1) as ->
      by (by destruct e).
    exists ([ClockRead; BrazeAliasCall pk0 (Some e)] ++ evs).
    split; [by rewrite Htr, app_assoc|].
    split; [apply alias_precedes_message_app; [by alias_first|done]|].
    split; [apply Forall_app; split; [by repeat constructor|done]|].
    split; [intros ?; by destruct Hcf|].
    destruct (send_loop_with campaign mark env ec rest sc (S fc) w1) as [w2 [c|e']];
      cbn [fst snd] in *;
      [|destruct Hres as [-> Hpos]; split; [done|]; intros Hc; specialize (Hpos Hc);
        rewrite failed_calls_app; lia].
    rewrite accepted_app, failed_calls_app.
    change (accepted [ClockRead; BrazeAliasCall pk0 (Some e)]) with 0%nat.
    change (failed_calls [ClockRead; BrazeAliasCall pk0 (Some e)]) with 1%nat.
    cbn [List.length]. lia.
  - assert (e = ValueError ∨ e ≠ ValueError) as [->|He] by (destruct e; (by left) || by right).
    { exists [ClockRead; BrazeAliasCall pk0 None; CampaignMessage pk0 (Some ValueError)].
      cbn [fst snd db trace].
      repeat split; try done; try (by alias_first); try (by repeat constructor);
        try (cbn; lia).
      all: intros Hun; by destruct Hcf. }
    set (w1 := mkWorld (db w) (trace w ++ [ClockRead; BrazeAliasCall pk0 None;
                                            CampaignMessage pk0 (Some e)])).
    destruct (IH sc (S fc) w1) as (evs & Htr & Hal & Hev & Hun & Hres).
    { apply Hex1. intros pk. by left. }
    assert (match e with
            | ValueError => (w1, Raise ValueError)
            | _ => send_loop_with campaign mark env ec rest sc (S fc) w1
            end = send_loop_with campaign mark env ec rest sc (S fc) w1) as ->
      by (by destruct e).
    exists ([ClockRead; BrazeAliasCall pk0 None; CampaignMessage pk0 (Some e)] ++ evs).
    split; [by rewrite Htr, app_assoc|].
    split; [apply alias_precedes_message_app; [by alias_first|done]|].
    split; [apply Forall_app; split; [by repeat constructor|done]|].
    split; [intros ?; by destruct Hcf|].
    destruct (send_loop_with campaign mark env ec rest sc (S fc) w1) as [w2 [c|e']];
      cbn [fst snd] in *;
      [|destruct Hres as [-> Hpos]; split; [done|]; intros Hc; specialize (Hpos Hc);
        rewrite failed_calls_app; lia].
    rewrite accepted_app, failed_calls_app.
    change (accepted [ClockRead; BrazeAliasCall pk0 None; CampaignMessage pk0 (Some e)])
      with 0%nat.
    change (failed_calls [ClockRead; BrazeAliasCall pk0 None; CampaignMessage pk0 (Some e)])
      with 1%nat.
    cbn [List.length]. lia.
  - set (w1 := mkWorld _ _).
    destruct (IH (S sc) fc w1) as (evs & Htr & Hal & Hev & Hun & Hres).
    { apply Hex1. intros pk. right. by eexists. }
    exists ([ClockRead; BrazeAliasCall pk0 None; CampaignMessage pk0 None; ClockRead] ++ evs).
    split; [by rewrite Htr, app_assoc|].
    split; [apply alias_precedes_message_app; [by alias_first|done]|].
    split; [apply Forall_app; split; [by repeat constructor|done]|].
    split; [intros ?; by destruct Hcf|].
    destruct (send_loop_with campaign mark env ec rest (S sc) fc w1) as [w2 [c|e']];
      cbn [fst snd] in *;
      [|destruct Hres as [-> Hpos]; split; [done|]; intros Hc; specialize (Hpos Hc);
        rewrite failed_calls_app; lia].
    rewrite accepted_app, failed_calls_app.
    change (accepted [ClockRead; BrazeAliasCall pk0 None; CampaignMessage pk0 None; ClockRead])
      with 1%nat.
    change (failed_calls [ClockRead; BrazeAliasCall pk0 None; CampaignMessage pk0 None;
                          ClockRead]) with 0%nat.
    cbn [List.length]. lia.
Qed.

End SendTrace.

Section ProcessTrace.

Context (marker : License → option Z) (mark : option Z → License → License).
Context (select : M (list (Z * License))).
Hypothesis select_ok : selects marker select.
Context (campaign : option string) (env : Env).

(** The events of the processing of one customer, and what its outcome
    says about them. *)
Lemma process_with_trace (u : string) (dry_run : bool) (w : World) :
  ∃ evs,
    trace (process_with select campaign mark env u dry_run w).1 = trace w ++ evs
    ∧ alias_precedes_message evs
    ∧ (unconfigured campaign →
         db (process_with select campaign mark env u dry_run w).1 = db w
         ∧ Forall (λ e, is_braze_event e = false) evs)
    ∧ (∀ e, EnterpriseApiCall u (Some e) ∈ evs →
         db (process_with select campaign mark env u dry_run w).1 = db w
         ∧ Forall (λ e, is_braze_event e = false) evs
         ∧ (process_with select campaign mark env u dry_run w).2 = Raise e)
    ∧ (∀ rows, (select (mkWorld (db w) (trace w ++ [LogProcessing u]))).2 = Ok rows →
         match (process_with select campaign mark env u dry_run w).2 with
         | Ok c =>
             if dry_run then evs = [LogProcessing u; ClockRead]
             else (success_count c + failure_count c)%nat = List.length rows
         | Raise ValueError => ¬ unconfigured campaign → (0 < failed_calls evs)%nat
         | Raise _ => failed_calls evs = 1%nat
         end)
    ∧ match (process_with select campaign mark env u dry_run w).2 with
      | Ok c => success_count c = accepted evs ∧ failure_count c = failed_calls evs
      | Raise ValueError => True
      | Raise _ => accepted evs = 0%nat ∧ (failed_calls evs ≤ 1)%nat
      end.
Proof.
  rewrite (process_with_eq marker mark select select_ok). cbn zeta.
  destruct (select_ok (mkWorld (db w) (trace w ++ [LogProcessing u])))
    as (r & Hsel & Hrows).
  rewrite Hsel. cbn [db trace snd] in *.
  assert (alias_precedes_message [LogProcessing u; ClockRead]) as Hquiet by alias_first.
  assert (∀ e, EnterpriseApiCall u (Some e) ∉ [LogProcessing u; ClockRead]) as Hnoapi.
  { intros e Hin. repeat (apply elem_of_cons in Hin as [Hin|Hin]; [done|]).
    by apply elem_of_nil in Hin. }
  destruct r as [[|row rows]|e].
  - exists [LogProcessing u; ClockRead]. cbn [fst snd db trace].
    repeat split; try done; try (by repeat constructor); try (by exfalso; eapply Hnoapi).
    intros rows [= <-]. by destruct dry_run.
  - destruct dry_run.
    { exists [LogProcessing u; ClockRead]. cbn [fst snd db trace].
      repeat split; try done; try (by repeat constructor); try (by exfalso; eapply Hnoapi). }
    destruct (Hrows (row :: rows) eq_refl) as [Hnd Hstored].
    destruct (get_enterprise_customer_data env _ u) as [ec|e] eqn:Hapi.
    + set (w3 := mkWorld (db w)
                   ((trace w ++ [LogProcessing u; ClockRead]) ++ [EnterpriseApiCall u None])).
      destruct (send_loop_trace mark campaign env ec (row :: rows) 0 0 w3)
        as (evs & Htr & Hal & Hev & Hun & Hres).
      { intros pk Hin. apply list_elem_of_fmap in Hin as ([pk' l] & -> & Hin).
        apply Hstored in Hin as [Hin _]. by exists l. }
      assert (Forall (λ e, e = ClockRead ∨ is_braze_event e = true) evs →
              ∀ e, EnterpriseApiCall u (Some e) ∉ evs) as Hnoapi'.
      { intros Hall e Hin. rewrite Forall_forall in Hall.
        by destruct (Hall _ Hin) as [?|?]. }
      exists ([LogProcessing u; ClockRead; EnterpriseApiCall u None] ++ evs).
      split; [rewrite Htr; subst w3; cbn [trace]; by rewrite <- !app_assoc|].
      split; [apply alias_precedes_message_app; [by alias_first|done]|].
      split.
      { intros Hc. destruct (Hun Hc) as (Hdb & Hclock & _). split; [done|].
        apply Forall_app. split; [by repeat constructor|].
        eapply Forall_impl; [exact Hclock|]. by intros ? ->. }
      split.
      { intros e Hin. apply elem_of_app in Hin as [Hin|Hin].
        - repeat (apply elem_of_cons in Hin as [Hin|Hin]; [done|]).
          by apply elem_of_nil in Hin.
        - by destruct (Hnoapi' Hev e). }
      rewrite accepted_app, failed_calls_app.
      change (accepted [LogProcessing u; ClockRead; EnterpriseApiCall u None]) with 0%nat.
      change (failed_calls [LogProcessing u; ClockRead; EnterpriseApiCall u None]) with 0%nat.
      destruct (send_loop_with campaign mark env ec (row :: rows) 0 0 w3) as [w4 [c|e]];
        cbn [fst snd] in *.
      * split; [intros ? [= <-]|]; lia.
      * destruct Hres as [-> Hpos]. split; [|done].
        intros ? _ Hc. specialize (Hpos Hc). lia.
    + exists [LogProcessing u; ClockRead; EnterpriseApiCall u (Some e)].
      cbn [fst snd db trace]. rewrite <- app_assoc.
      split; [done|]. split; [by alias_first|].
      split; [intros _; split; [done|by repeat constructor]|].
      split.
      { intros e' Hin. do 2 (apply elem_of_cons in Hin as [Hin|Hin]; [done|]).
        apply list_elem_of_singleton in Hin. injection Hin as ->.
        repeat split; try done. by repeat constructor. }
      destruct e; repeat split; try done; cbn; lia.
  - exists [LogProcessing u; ClockRead]. cbn [fst snd db trace].
    repeat split; try done; try (by repeat constructor); try (by exfalso; eapply Hnoapi).
    destruct e; repeat split; try done; cbn; lia.
Qed.

End ProcessTrace.

(** ** The email commands: what a whole run does *)

(** The selections return rows whenever the customer's string is a UUID
    and the window exists. *)
Lemma reminders_select_returns (env : Env) (u : string) (D : Z) (w : World) :
  is_Some (uuid_UUID env u) →
  expiring_window_in_range (localized_utcnow env (trace w)) D →
  ∃ rows, (Reminders._get_expiring_licenses env u D w).2 = Ok rows.
Proof.
  intros [uu Hu] Hrange. rewrite (get_expiring_licenses_eq env u uu D w Hu Hrange).
  by eexists.
Qed.

Lemma plan_expiration_select_returns (env : Env) (u : string) (D : Z) (w : World) :
  is_Some (uuid_UUID env u) →
  recently_expired_window_in_range (localized_utcnow env (trace w)) D →
  ∃ rows, (PlanExpiration._get_recently_expired_plan_licenses env u D w).2 = Ok rows.
Proof.
  intros [uu Hu] Hrange.
  rewrite (get_recently_expired_plan_licenses_eq env u uu D w Hu Hrange). by eexists.
Qed.

(** The totals of the loop over the customers count the events of the run:
    the successes are the campaign messages Braze accepted, and the
    failures are at least the calls that raised; they are exactly those
    calls when every customer's string is a UUID and the window exists at
    every reading of the clock, so that no selection raises. *)
Lemma reminders_customers_loop_counts (env : Env) (D : Z) (dry_run : bool)
    (uuids : list string) (ts tf : nat) (w : World) :
  ∃ evs,
    trace (Reminders.customers_loop env D dry_run uuids ts tf w).1 = trace w ++ evs
    ∧ match (Reminders.customers_loop env D dry_run uuids ts tf w).2 with
      | Ok (ts', tf') =>
          ts' = (ts + accepted evs)%nat ∧ (tf + failed_calls evs ≤ tf')%nat
      | Raise e => e = ValueError
      end
    ∧ (Forall (λ u, is_Some (uuid_UUID env u)) uuids →
       (∀ tr, expiring_window_in_range (localized_utcnow env tr) D) →
       match (Reminders.customers_loop env D dry_run uuids ts tf w).2 with
       | Ok (ts', tf') => tf' = (tf + failed_calls evs)%nat
       | Raise e =>
           ¬ unconfigured (BRAZE_LICENSE_EXPIRATION_REMINDER_CAMPAIGN env) →
           (0 < failed_calls evs)%nat
       end).
Proof.
  revert ts tf w. induction uuids as [|u rest IH]; intros ts tf w.
  { exists []. simpl. rewrite app_nil_r. split; [done|]. cbn. split; [lia|]. intros _ _. lia. }
  rewrite reminders_customers_loop_cons, reminders_process_shape.
  destruct (process_with_trace expiration_reminder_sent_date set_expiration_reminder_sent_date
              _ (reminders_selects env u D) (BRAZE_LICENSE_EXPIRATION_REMINDER_CAMPAIGN env)
              env u dry_run w) as (evs1 & Htr1 & _ & _ & _ & Hsel & Hres).
  assert (Forall (λ u, is_Some (uuid_UUID env u)) (u :: rest) →
          (∀ tr, expiring_window_in_range (localized_utcnow env tr) D) →
          ∃ rows, (Reminders._get_expiring_licenses env u D
                     (mkWorld (db w) (trace w ++ [LogProcessing u]))).2 = Ok rows) as Hrows.
  { intros Hv Hr. apply Forall_cons in Hv as [Hu _]. by apply reminders_select_returns. }
  destruct (process_with _ _ _ env u dry_run w) as [w1 [c|e]]; cbn [fst snd] in *.
  - destruct Hres as [Hs Hf].
    destruct (IH (ts + success_count c)%nat (tf + failure_count c)%nat w1)
      as (evs2 & Htr2 & Hres2 & Hcond2).
    exists (evs1 ++ evs2). split; [by rewrite Htr2, Htr1, app_assoc|].
    rewrite accepted_app, failed_calls_app.
    destruct (Reminders.customers_loop _ _ _ _ _ _ w1) as [w2 [[ts' tf']|e]];
      cbn [fst snd] in *.
    + split; [lia|]. intros Hv Hr. specialize (Hcond2 (Forall_inv_tail Hv) Hr). lia.
    + split; [done|]. intros Hv Hr Hc. specialize (Hcond2 (Forall_inv_tail Hv) Hr Hc). lia.
  - destruct e.
    + exists evs1. split; [done|]. split; [done|].
      intros Hv Hr Hc. destruct (Hrows Hv Hr) as [rows Hrows']. exact (Hsel rows Hrows' Hc).
    + destruct Hres as [Ha Hf].
      destruct (IH ts (tf + 1)%nat w1) as (evs2 & Htr2 & Hres2 & Hcond2).
      exists (evs1 ++ evs2). split; [by rewrite Htr2, Htr1, app_assoc|].
      rewrite accepted_app, failed_calls_app.
      destruct (Reminders.customers_loop _ _ _ _ _ _ w1) as [w2 [[ts' tf']|e]];
        cbn [fst snd] in *.
      * split; [lia|]. intros Hv Hr. specialize (Hcond2 (Forall_inv_tail Hv) Hr).
        destruct (Hrows Hv Hr) as [rows Hrows']. specialize (Hsel rows Hrows'). lia.
      * split; [done|]. intros Hv Hr Hc. specialize (Hcond2 (Forall_inv_tail Hv) Hr Hc). lia.
    + destruct Hres as [Ha Hf].
      destruct (IH ts (tf + 1)%nat w1) as (evs2 & Htr2 & Hres2 & Hcond2).
      exists (evs1 ++ evs2). split; [by rewrite Htr2, Htr1, app_assoc|].
      rewrite accepted_app, failed_calls_app.
      destruct (Reminders.customers_loop _ _ _ _ _ _ w1) as [w2 [[ts' tf']|e]];
        cbn [fst snd] in *.
      * split; [lia|]. intros Hv Hr. specialize (Hcond2 (Forall_inv_tail Hv) Hr).
        destruct (Hrows Hv Hr) as [rows Hrows']. specialize (Hsel rows Hrows'). lia.
      * split; [done|]. intros Hv Hr Hc. specialize (Hcond2 (Forall_inv_tail Hv) Hr Hc). lia.
Qed.

Lemma plan_expiration_customers_loop_counts (env : Env) (D : Z) (dry_run : bool)
    (uuids : list string) (ts tf ef : nat) (w : World) :
  ∃ evs,
    trace (PlanExpiration.customers_loop env D dry_run uuids ts tf ef w).1 = trace w ++ evs
    ∧ match (PlanExpiration.customers_loop env D dry_run uuids ts tf ef w).2 with
      | Ok (ts', tf', ef') =>
          ts' = (ts + accepted evs)%nat ∧ (tf + ef + failed_calls evs ≤ tf' + ef')%nat
      | Raise e => e = ValueError
      end
    ∧ (Forall (λ u, is_Some (uuid_UUID env u)) uuids →
       (∀ tr, recently_expired_window_in_range (localized_utcnow env tr) D) →
       match (PlanExpiration.customers_loop env D dry_run uuids ts tf ef w).2 with
       | Ok (ts', tf', ef') => (tf' + ef' = tf + ef + failed_calls evs)%nat
       | Raise e =>
           ¬ unconfigured (BRAZE_SUBSCRIPTION_PLAN_EXPIRATION_CAMPAIGN env) →
           (0 < failed_calls evs)%nat
       end).
Proof.
  revert ts tf ef w. induction uuids as [|u rest IH]; intros ts tf ef w.
  { exists []. simpl. rewrite app_nil_r. split; [done|]. cbn. split; [lia|]. intros _ _. lia. }
  rewrite plan_expiration_customers_loop_cons, plan_expiration_process_shape.
  destruct (process_with_trace subscription_plan_expiration_email_sent_date
              set_subscription_plan_expiration_email_sent_date
              _ (plan_expiration_selects env u D)
              (BRAZE_SUBSCRIPTION_PLAN_EXPIRATION_CAMPAIGN env)
              env u dry_run w) as (evs1 & Htr1 & _ & _ & _ & Hsel & Hres).
  assert (Forall (λ u, is_Some (uuid_UUID env u)) (u :: rest) →
          (∀ tr, recently_expired_window_in_range (localized_utcnow env tr) D) →
          ∃ rows, (PlanExpiration._get_recently_expired_plan_licenses env u D
                     (mkWorld (db w) (trace w ++ [LogProcessing u]))).2 = Ok rows) as Hrows.
  { intros Hv Hr. apply Forall_cons in Hv as [Hu _].
    by apply plan_expiration_select_returns. }
  destruct (process_with _ _ _ env u dry_run w) as [w1 [c|e]]; cbn [fst snd] in *.
  - destruct Hres as [Hs Hf].
    destruct (IH (ts + success_count c)%nat (tf + failure_count c)%nat ef w1)
      as (evs2 & Htr2 & Hres2 & Hcond2).
    exists (evs1 ++ evs2). split; [by rewrite Htr2, Htr1, app_assoc|].
    rewrite accepted_app, failed_calls_app.
    destruct (PlanExpiration.customers_loop _ _ _ _ _ _ _ w1) as [w2 [[[ts' tf'] ef']|e]];
      cbn [fst snd] in *.
    + split; [lia|]. intros Hv Hr. specialize (Hcond2 (Forall_inv_tail Hv) Hr). lia.
    + split; [done|]. intros Hv Hr Hc. specialize (Hcond2 (Forall_inv_tail Hv) Hr Hc). lia.
  - destruct e.
    + exists evs1. split; [done|]. split; [done|].
      intros Hv Hr Hc. destruct (Hrows Hv Hr) as [rows Hrows']. exact (Hsel rows Hrows' Hc).
    + destruct Hres as [Ha Hf].
      destruct (IH ts tf (ef + 1)%nat w1) as (evs2 & Htr2 & Hres2 & Hcond2).
      exists (evs1 ++ evs2). split; [by rewrite Htr2, Htr1, app_assoc|].
      rewrite accepted_app, failed_calls_app.
      destruct (PlanExpiration.customers_loop _ _ _ _ _ _ _ w1) as [w2 [[[ts' tf'] ef']|e]];
        cbn [fst snd] in *.
      * split; [lia|]. intros Hv Hr. specialize (Hcond2 (Forall_inv_tail Hv) Hr).
        destruct (Hrows Hv Hr) as [rows Hrows']. specialize (Hsel rows Hrows'). lia.
      * split; [done|]. intros Hv Hr Hc. specialize (Hcond2 (Forall_inv_tail Hv) Hr Hc). lia.
    + destruct Hres as [Ha Hf].
      destruct (IH ts tf (ef + 1)%nat w1) as (evs2 & Htr2 & Hres2 & Hcond2).
      exists (evs1 ++ evs2). split; [by rewrite Htr2, Htr1, app_assoc|].
      rewrite accepted_app, failed_calls_app.
      destruct (PlanExpiration.customers_loop _ _ _ _ _ _ _ w1) as [w2 [[[ts' tf'] ef']|e]];
        cbn [fst snd] in *.
      * split; [lia|]. intros Hv Hr. specialize (Hcond2 (Forall_inv_tail Hv) Hr).
        destruct (Hrows Hv Hr) as [rows Hrows']. specialize (Hsel rows Hrows'). lia.
      * split; [done|]. intros Hv Hr Hc. specialize (Hcond2 (Forall_inv_tail Hv) Hr Hc). lia.
Qed.

(** X1. The exit status of a run of either email command tells whether a
    call to the outside failed.  When the command returns normally, no call
    to the enterprise API or to Braze raised during the run, and a
    [BrazeClientError] never leaves the command.  When the window of the
    selection exists at every reading of the clock (the number of days
    keeps the dates within the years 1 to 9999, so that no selection raises
    [OverflowError]), the exception of the end of the run means that at
    least one call raised; with the campaign setting configured and an
    argument that parses to at least one customer, the command then returns
    normally exactly when no call raised. *)
Theorem exit_status_reports_failed_calls (env : Env) (options : Options) (w : World) :
  (∃ evs,
     trace (Reminders.handle env options w).1 = trace w ++ evs
     ∧ ((Reminders.handle env options w).2 = Ok tt → failed_calls evs = 0%nat)
     ∧ (Reminders.handle env options w).2 ≠ Raise BrazeClientError
     ∧ ((∀ tr, expiring_window_in_range (localized_utcnow env tr) (opt_days options)) →
        ((Reminders.handle env options w).2 = Raise Exception_ → (0 < failed_calls evs)%nat)
        ∧ (¬ unconfigured (BRAZE_LICENSE_EXPIRATION_REMINDER_CAMPAIGN env) →
           ∀ u uuids,
             _parse_enterprise_customer_uuids env (opt_enterprise_customer_uuid options)
               = Ok (u :: uuids) →
             ((Reminders.handle env options w).2 = Ok tt ↔ failed_calls evs = 0%nat))))
  ∧ (∃ evs,
       trace (PlanExpiration.handle env options w).1 = trace w ++ evs
       ∧ ((PlanExpiration.handle env options w).2 = Ok tt → failed_calls evs = 0%nat)
       ∧ (PlanExpiration.handle env options w).2 ≠ Raise BrazeClientError
       ∧ ((∀ tr, recently_expired_window_in_range (localized_utcnow env tr)
                   (opt_days options)) →
          ((PlanExpiration.handle env options w).2 = Raise Exception_
           → (0 < failed_calls evs)%nat)
          ∧ (¬ unconfigured (BRAZE_SUBSCRIPTION_PLAN_EXPIRATION_CAMPAIGN env) →
             ∀ u uuids,
               _parse_enterprise_customer_uuids env (opt_enterprise_customer_uuid options)
                 = Ok (u :: uuids) →
               ((PlanExpiration.handle env options w).2 = Ok tt
                ↔ failed_calls evs = 0%nat)))).
Proof.
  split.
  - unfold Reminders.handle.
    destruct (_parse_enterprise_customer_uuids env _) as [[|u uuids]|e] eqn:Hparse.
    + exists []. rewrite app_nil_r. by repeat split.
    + destruct (reminders_customers_loop_counts env (opt_days options) (opt_dry_run options)
                  (u :: uuids) 0 0 w) as (evs & Htr & Hres & Hcond).
      pose proof (λ Hr, Hcond (parse_valid env _ _ Hparse) Hr) as Hexact. clear Hcond.
      exists evs. unfold mbind, M_bind.
      destruct (Reminders.customers_loop _ _ _ _ _ _ w) as [w1 [[ts tf]|e]];
        cbn [fst snd] in *.
      * destruct Hres as [-> Hle].
        case_bool_decide; cbn [fst snd].
        -- split; [done|]. split; [done|]. split; [done|].
           intros Hr. specialize (Hexact Hr). split; [intros _; lia|].
           intros _ ? ? _. split; [done|lia].
        -- split; [done|]. split; [intros _; lia|]. split; [done|].
           intros Hr. specialize (Hexact Hr). split; [done|].
           intros _ ? ? _. split; [intros _; lia|done].
      * subst e. split; [done|]. split; [done|]. split; [done|].
        intros Hr. specialize (Hexact Hr). split; [done|].
        intros Hc ? ? _. specialize (Hexact Hc). split; [done|lia].
    + rewrite (parse_raises_value_error env _ e Hparse).
      exists []. rewrite app_nil_r. by repeat split.
  - unfold PlanExpiration.handle.
    destruct (_parse_enterprise_customer_uuids env _) as [[|u uuids]|e] eqn:Hparse.
    + exists []. rewrite app_nil_r. by repeat split.
    + destruct (plan_expiration_customers_loop_counts env (opt_days options)
                  (opt_dry_run options) (u :: uuids) 0 0 0 w) as (evs & Htr & Hres & Hcond).
      pose proof (λ Hr, Hcond (parse_valid env _ _ Hparse) Hr) as Hexact. clear Hcond.
      exists evs. unfold mbind, M_bind.
      destruct (PlanExpiration.customers_loop _ _ _ _ _ _ _ w) as [w1 [[[ts tf] ef]|e]];
        cbn [fst snd] in *.
      * destruct Hres as [-> Hle].
        case_bool_decide; cbn [fst snd].
        -- split; [done|]. split; [done|]. split; [done|].
           intros Hr. specialize (Hexact Hr). split; [intros _; lia|].
           intros _ ? ? _. split; [done|lia].
        -- split; [done|]. split; [intros _; lia|]. split; [done|].
           intros Hr. specialize (Hexact Hr). split; [done|].
           intros _ ? ? _. split; [intros _; lia|done].
      * subst e. split; [done|]. split; [done|]. split; [done|].
        intros Hr. specialize (Hexact Hr). split; [done|].
        intros Hc ? ? _. specialize (Hexact Hc). split; [done|lia].
    + rewrite (parse_raises_value_error env _ e Hparse).
      exists []. rewrite app_nil_r. by repeat split.
Qed.

(** X2. In every run of either email command, each campaign message is
    sent right after the Braze alias of the same license was created, and
    that creation returned normally: no message is sent for a license whose
    alias could not be created. *)
Theorem campaign_message_follows_alias (env : Env) (options : Options) (w : World) :
  (∃ evs, trace (Reminders.handle env options w).1 = trace w ++ evs
     ∧ alias_precedes_message evs)
  ∧ (∃ evs, trace (PlanExpiration.handle env options w).1 = trace w ++ evs
       ∧ alias_precedes_message evs).
Proof.
  split.
  - apply (reminders_handle_preserves
             (λ w', ∃ evs, trace w' = trace w ++ evs ∧ alias_precedes_message evs)).
    + intros u w1 (evs1 & Htr1 & Hal1). rewrite reminders_process_shape.
      destruct (process_with_trace expiration_reminder_sent_date
                  set_expiration_reminder_sent_date _ (reminders_selects env u (opt_days options))
                  (BRAZE_LICENSE_EXPIRATION_REMINDER_CAMPAIGN env) env u
                  (opt_dry_run options) w1) as (evs2 & Htr2 & Hal2 & _).
      exists (evs1 ++ evs2). split; [by rewrite Htr2, Htr1, app_assoc|].
      by apply alias_precedes_message_app.
    + exists []. by rewrite app_nil_r.
  - apply (plan_expiration_handle_preserves
             (λ w', ∃ evs, trace w' = trace w ++ evs ∧ alias_precedes_message evs)).
    + intros u w1 (evs1 & Htr1 & Hal1). rewrite plan_expiration_process_shape.
      destruct (process_with_trace subscription_plan_expiration_email_sent_date
                  set_subscription_plan_expiration_email_sent_date _
                  (plan_expiration_selects env u (opt_days options))
                  (BRAZE_SUBSCRIPTION_PLAN_EXPIRATION_CAMPAIGN env) env u
                  (opt_dry_run options) w1) as (evs2 & Htr2 & Hal2 & _).
      exists (evs1 ++ evs2). split; [by rewrite Htr2, Htr1, app_assoc|].
      by apply alias_precedes_message_app.
    + exists []. by rewrite app_nil_r.
Qed.

(** X3. When the command's campaign setting is missing or empty, a run
    makes no call to Braze, for any license of any customer, and leaves the
    tables as they were. *)
Theorem unconfigured_campaign_sends_nothing (env : Env) (options : Options) (w : World) :
  (unconfigured (BRAZE_LICENSE_EXPIRATION_REMINDER_CAMPAIGN env) →
     db (Reminders.handle env options w).1 = db w
     ∧ (∃ evs, trace (Reminders.handle env options w).1 = trace w ++ evs
          ∧ Forall (λ e, is_braze_event e = false) evs))
  ∧ (unconfigured (BRAZE_SUBSCRIPTION_PLAN_EXPIRATION_CAMPAIGN env) →
       db (PlanExpiration.handle env options w).1 = db w
       ∧ (∃ evs, trace (PlanExpiration.handle env options w).1 = trace w ++ evs
            ∧ Forall (λ e, is_braze_event e = false) evs)).
Proof.
  split; intros Hun.
  - apply (reminders_handle_preserves
             (λ w', db w' = db w
                    ∧ ∃ evs, trace w' = trace w ++ evs
                        ∧ Forall (λ e, is_braze_event e = false) evs)).
    + intros u w1 (Hdb1 & evs1 & Htr1 & Hno1). rewrite reminders_process_shape.
      destruct (process_with_trace expiration_reminder_sent_date
                  set_expiration_reminder_sent_date _ (reminders_selects env u (opt_days options))
                  (BRAZE_LICENSE_EXPIRATION_REMINDER_CAMPAIGN env) env u
                  (opt_dry_run options) w1) as (evs2 & Htr2 & _ & Hquiet & _).
      destruct (Hquiet Hun) as [Hdb2 Hno2]. split; [congruence|].
      exists (evs1 ++ evs2). split; [by rewrite Htr2, Htr1, app_assoc|].
      by apply Forall_app.
    + split; [done|]. exists []. by rewrite app_nil_r.
  - apply (plan_expiration_handle_preserves
             (λ w', db w' = db w
                    ∧ ∃ evs, trace w' = trace w ++ evs
                        ∧ Forall (λ e, is_braze_event e = false) evs)).
    + intros u w1 (Hdb1 & evs1 & Htr1 & Hno1). rewrite plan_expiration_process_shape.
      destruct (process_with_trace subscription_plan_expiration_email_sent_date
                  set_subscription_plan_expiration_email_sent_date _
                  (plan_expiration_selects env u (opt_days options))
                  (BRAZE_SUBSCRIPTION_PLAN_EXPIRATION_CAMPAIGN env) env u
                  (opt_dry_run options) w1) as (evs2 & Htr2 & _ & Hquiet & _).
      destruct (Hquiet Hun) as [Hdb2 Hno2]. split; [congruence|].
      exists (evs1 ++ evs2). split; [by rewrite Htr2, Htr1, app_assoc|].
      by apply Forall_app.
    + split; [done|]. exists []. by rewrite app_nil_r.
Qed.

(** X4. When the enterprise API raises for a customer, the processing of
    that customer raises the same exception, has made no call to Braze and
    has written nothing. *)
Theorem enterprise_api_failure_skips_the_customer (env : Env) (u : string) (D : Z)
    (dry_run : bool) (w : World) :
  (∃ evs, trace (Reminders._process_enterprise_customer env u D dry_run w).1 = trace w ++ evs
     ∧ ∀ e, EnterpriseApiCall u (Some e) ∈ evs →
         db (Reminders._process_enterprise_customer env u D dry_run w).1 = db w
         ∧ Forall (λ e, is_braze_event e = false) evs
         ∧ (Reminders._process_enterprise_customer env u D dry_run w).2 = Raise e)
  ∧ (∃ evs, trace (PlanExpiration._process_enterprise_customer env u D dry_run w).1
            = trace w ++ evs
       ∧ ∀ e, EnterpriseApiCall u (Some e) ∈ evs →
           db (PlanExpiration._process_enterprise_customer env u D dry_run w).1 = db w
           ∧ Forall (λ e, is_braze_event e = false) evs
           ∧ (PlanExpiration._process_enterprise_customer env u D dry_run w).2 = Raise e).
Proof.
  split.
  - rewrite reminders_process_shape.
    destruct (process_with_trace expiration_reminder_sent_date
                set_expiration_reminder_sent_date _ (reminders_selects env u D)
                (BRAZE_LICENSE_EXPIRATION_REMINDER_CAMPAIGN env) env u dry_run w)
      as (evs & Htr & _ & _ & Hapi & _).
    by exists evs.
  - rewrite plan_expiration_process_shape.
    destruct (process_with_trace subscription_plan_expiration_email_sent_date
                set_subscription_plan_expiration_email_sent_date _
                (plan_expiration_selects env u D)
                (BRAZE_SUBSCRIPTION_PLAN_EXPIRATION_CAMPAIGN env) env u dry_run w)
      as (evs & Htr & _ & _ & Hapi & _).
    by exists evs.
Qed.

(** X5. The counts the processing of a customer returns, when it is not a
    dry run: the success count is the number of campaign messages Braze
    accepted, the failure count the number of calls that raised, and the
    two add up to the number of licenses the selection returned: every
    selected license was tried once. *)
Theorem customer_counts_match_the_events (env : Env) (u : string) (D : Z) (w : World) :
  (∃ evs, trace (Reminders._process_enterprise_customer env u D false w).1 = trace w ++ evs
     ∧ ∀ c, (Reminders._process_enterprise_customer env u D false w).2 = Ok c →
         success_count c = accepted evs
         ∧ failure_count c = failed_calls evs
         ∧ ∀ rows,
             (Reminders._get_expiring_licenses env u D
                (mkWorld (db w) (trace w ++ [LogProcessing u]))).2 = Ok rows →
             (success_count c + failure_count c)%nat = List.length rows)
  ∧ (∃ evs, trace (PlanExpiration._process_enterprise_customer env u D false w).1
            = trace w ++ evs
       ∧ ∀ c, (PlanExpiration._process_enterprise_customer env u D false w).2 = Ok c →
           success_count c = accepted evs
           ∧ failure_count c = failed_calls evs
           ∧ ∀ rows,
               (PlanExpiration._get_recently_expired_plan_licenses env u D
                  (mkWorld (db w) (trace w ++ [LogProcessing u]))).2 = Ok rows →
               (success_count c + failure_count c)%nat = List.length rows).
Proof.
  split.
  - rewrite reminders_process_shape.
    destruct (process_with_trace expiration_reminder_sent_date
                set_expiration_reminder_sent_date _ (reminders_selects env u D)
                (BRAZE_LICENSE_EXPIRATION_REMINDER_CAMPAIGN env) env u false w)
      as (evs & Htr & _ & _ & _ & Hsel & Hres).
    exists evs. split; [done|]. intros c Hc. rewrite Hc in Hres, Hsel.
    destruct Hres as [Hs Hf]. split; [done|]. split; [done|].
    intros rows Hrows. exact (Hsel rows Hrows).
  - rewrite plan_expiration_process_shape.
    destruct (process_with_trace subscription_plan_expiration_email_sent_date
                set_subscription_plan_expiration_email_sent_date _
                (plan_expiration_selects env u D)
                (BRAZE_SUBSCRIPTION_PLAN_EXPIRATION_CAMPAIGN env) env u false w)
      as (evs & Htr & _ & _ & _ & Hsel & Hres).
    exists evs. split; [done|]. intros c Hc. rewrite Hc in Hres, Hsel.
    destruct Hres as [Hs Hf]. split; [done|]. split; [done|].
    intros rows Hrows. exact (Hsel rows Hrows).
Qed.

Section Frame.

Context (marker : License → option Z) (mark : option Z → License → License).
Hypothesis marker_mark : ∀ v l, marker (mark v l) = v.

Lemma marked_exactly_the_emailed_refl (w : World) :
  marked_exactly_the_emailed marker mark w w.
Proof. exists []. rewrite app_nil_r. repeat split. intros pk. by left. Qed.

Lemma marked_exactly_the_emailed_trans (w0 w1 w2 : World) :
  marked_exactly_the_emailed marker mark w0 w1 →
  marked_exactly_the_emailed marker mark w1 w2 →
  marked_exactly_the_emailed marker mark w0 w2.
Proof.
  intros (evs1 & Htr1 & Hp1 & Ha1 & H1) (evs2 & Htr2 & Hp2 & Ha2 & H2).
  exists (evs1 ++ evs2). split; [by rewrite Htr2, Htr1, app_assoc|].
  split; [congruence|]. split; [congruence|].
  intros pk. rewrite emails_sent_app.
  destruct (H2 pk) as [[Heq2 Hs2]|(l1 & t2 & Hl1 & Hm1 & Hl2 & Hs2)].
  - rewrite Heq2, Hs2, Nat.add_0_r. apply H1.
  - destruct (H1 pk) as [[Heq1 Hs1]|(l & t & Hl & Hm & Hl1' & Hs1)].
    + right. exists l1, t2. rewrite <- Heq1, Hs1, Hs2. done.
    + rewrite Hl1 in Hl1'. injection Hl1' as ->. by rewrite marker_mark in Hm1.
Qed.

Context (select : M (list (Z * License))).
Hypothesis select_ok : selects marker select.
Context (campaign : option string) (env : Env).

Lemma process_with_marks_the_emailed (u : string) (dry_run : bool) (w : World) :
  marked_exactly_the_emailed marker mark w
    (process_with select campaign mark env u dry_run w).1.
Proof.
  destruct (process_with_effect marker mark select select_ok campaign env u dry_run w)
    as (evs & Htr & Hp & Ha & _ & Hrows & _).
  exists evs. repeat split; try done.
  intros pk. destruct (Hrows pk) as [?|((l & Hl & Hm) & Hs & l' & tr & Hl' & Hnew)]; [by left|].
  right. exists l, (localized_utcnow env tr). repeat split; try done. congruence.
Qed.

End Frame.

(** X6. Whatever its outcome, a run of either email command changes
    nothing in the tables but the marker of the licenses it sent an email
    to: plans and agreements are as before, and every license row is either
    as before, with no email sent, or had a null marker, was sent exactly
    one email during the run, and differs by its marker only. *)
Theorem run_marks_exactly_the_emailed (env : Env) (options : Options) (w : World) :
  marked_exactly_the_emailed expiration_reminder_sent_date
    set_expiration_reminder_sent_date w (Reminders.handle env options w).1
  ∧ marked_exactly_the_emailed subscription_plan_expiration_email_sent_date
      set_subscription_plan_expiration_email_sent_date w
      (PlanExpiration.handle env options w).1.
Proof.
  split.
  - apply (reminders_handle_preserves
             (marked_exactly_the_emailed expiration_reminder_sent_date
                set_expiration_reminder_sent_date w));
      [|apply marked_exactly_the_emailed_refl].
    intros u w1 Hw1. eapply marked_exactly_the_emailed_trans; [done|exact Hw1|].
    rewrite reminders_process_shape.
    apply process_with_marks_the_emailed, reminders_selects.
  - apply (plan_expiration_handle_preserves
             (marked_exactly_the_emailed subscription_plan_expiration_email_sent_date
                set_subscription_plan_expiration_email_sent_date w));
      [|apply marked_exactly_the_emailed_refl].
    intros u w1 Hw1. eapply marked_exactly_the_emailed_trans; [done|exact Hw1|].
    rewrite plan_expiration_process_shape.
    apply process_with_marks_the_emailed, plan_expiration_selects.
Qed.

(** The loop over a list of customers in two parts. *)
Lemma reminders_customers_loop_app (env : Env) (D : Z) (dry_run : bool)
    (pre post : list string) (ts tf : nat) (w : World) :
  Reminders.customers_loop env D dry_run (pre ++ post) ts tf w =
    match Reminders.customers_loop env D dry_run pre ts tf w with
    | (w1, Ok (ts', tf')) => Reminders.customers_loop env D dry_run post ts' tf' w1
    | (w1, Raise e) => (w1, Raise e)
    end.
Proof.
  revert ts tf w. induction pre as [|u pre IH]; intros ts tf w; [done|].
  rewrite <- app_comm_cons, !reminders_customers_loop_cons.
  destruct (Reminders._process_enterprise_customer env u D dry_run w) as [w1 [c|[]]];
    by rewrite ?IH.
Qed.

Lemma plan_expiration_customers_loop_app (env : Env) (D : Z) (dry_run : bool)
    (pre post : list string) (ts tf ef : nat) (w : World) :
  PlanExpiration.customers_loop env D dry_run (pre ++ post) ts tf ef w =
    match PlanExpiration.customers_loop env D dry_run pre ts tf ef w with
    | (w1, Ok (ts', tf', ef')) =>
        PlanExpiration.customers_loop env D dry_run post ts' tf' ef' w1
    | (w1, Raise e) => (w1, Raise e)
    end.
Proof.
  revert ts tf ef w. induction pre as [|u pre IH]; intros ts tf ef w; [done|].
  rewrite <- app_comm_cons, !plan_expiration_customers_loop_cons.
  destruct (PlanExpiration._process_enterprise_customer env u D dry_run w) as [w1 [c|[]]];
    by rewrite ?IH.
Qed.

(** X7. A [ValueError] raised while a customer is processed ends the run
    at once: the command raises it from the world that customer's
    processing left, and the customers listed after it are not processed. *)
Theorem value_error_ends_the_run (env : Env) (s : string) (D : Z) (dry_run : bool)
    (w : World) (pre post : list string) (u : string) :
  _parse_enterprise_customer_uuids env s = Ok (pre ++ u :: post) →
  (let process := λ u, Reminders._process_enterprise_customer env u D dry_run in
   Raise ValueError ∉ customer_results process pre w →
   (process u (after_customers process pre w)).2 = Raise ValueError →
   Reminders.handle env (mkOptions s D dry_run) w
     = ((process u (after_customers process pre w)).1, Raise ValueError)
   ∧ processed (trace (Reminders.handle env (mkOptions s D dry_run) w).1)
     = processed (trace w) ++ pre ++ [u])
  ∧ (let process := λ u, PlanExpiration._process_enterprise_customer env u D dry_run in
     Raise ValueError ∉ customer_results process pre w →
     (process u (after_customers process pre w)).2 = Raise ValueError →
     PlanExpiration.handle env (mkOptions s D dry_run) w
       = ((process u (after_customers process pre w)).1, Raise ValueError)
     ∧ processed (trace (PlanExpiration.handle env (mkOptions s D dry_run) w).1)
       = processed (trace w) ++ pre ++ [u]).
Proof.
  intros Hparse. split; intros process Hno Hu.
  - assert (Reminders.handle env (mkOptions s D dry_run) w
            = ((process u (after_customers process pre w)).1, Raise ValueError)) as Heq.
    { unfold Reminders.handle. cbn [opt_enterprise_customer_uuid opt_days opt_dry_run].
      rewrite Hparse.
      assert (Reminders.customers_loop env D dry_run (pre ++ u :: post) 0 0 w
              = ((process u (after_customers process pre w)).1, Raise ValueError)) as Hloop.
      { rewrite reminders_customers_loop_app.
        rewrite (reminders_customers_loop env D dry_run pre 0 0 w Hno).
        rewrite reminders_customers_loop_cons.
        change (process u (after_customers process pre w))
          with (Reminders._process_enterprise_customer env u D dry_run
                  (after_customers process pre w)) in *.
        destruct (Reminders._process_enterprise_customer env u D dry_run _) as [w1 r].
        cbn [snd] in Hu. by subst r. }
      remember (pre ++ u :: post) as uuids eqn:Huuids.
      destruct uuids as [|u0 uuids]; [by destruct pre|].
      unfold mbind, M_bind. by rewrite Hloop. }
    split; [done|]. rewrite Heq. cbn [fst].
    destruct (reminders_process_effect env u D dry_run (after_customers process pre w))
      as (evs & Htr & _ & _ & Hp & _).
    change (Reminders._process_enterprise_customer env u D dry_run
              (after_customers process pre w))
      with (process u (after_customers process pre w)) in Htr.
    rewrite Htr, processed_app, Hp.
    rewrite (after_customers_processed process pre w); [by rewrite <- app_assoc|].
    intros u0 w0.
    destruct (reminders_process_effect env u0 D dry_run w0) as (evs0 & ? & _ & _ & ? & _).
    by exists evs0.
  - assert (PlanExpiration.handle env (mkOptions s D dry_run) w
            = ((process u (after_customers process pre w)).1, Raise ValueError)) as Heq.
    { unfold PlanExpiration.handle. cbn [opt_enterprise_customer_uuid opt_days opt_dry_run].
      rewrite Hparse.
      assert (PlanExpiration.customers_loop env D dry_run (pre ++ u :: post) 0 0 0 w
              = ((process u (after_customers process pre w)).1, Raise ValueError)) as Hloop.
      { rewrite plan_expiration_customers_loop_app.
        destruct (plan_expiration_customers_loop env D dry_run pre 0 0 0 w Hno)
          as (tf & ef & -> & _).
        rewrite plan_expiration_customers_loop_cons.
        change (process u (after_customers process pre w))
          with (PlanExpiration._process_enterprise_customer env u D dry_run
                  (after_customers process pre w)) in *.
        destruct (PlanExpiration._process_enterprise_customer env u D dry_run _) as [w1 r].
        cbn [snd] in Hu. by subst r. }
      remember (pre ++ u :: post) as uuids eqn:Huuids.
      destruct uuids as [|u0 uuids]; [by destruct pre|].
      unfold mbind, M_bind. by rewrite Hloop. }
    split; [done|]. rewrite Heq. cbn [fst].
    destruct (plan_expiration_process_effect env u D dry_run (after_customers process pre w))
      as (evs & Htr & _ & _ & Hp & _).
    change (PlanExpiration._process_enterprise_customer env u D dry_run
              (after_customers process pre w))
      with (process u (after_customers process pre w)) in Htr.
    rewrite Htr, processed_app, Hp.
    rewrite (after_customers_processed process pre w); [by rewrite <- app_assoc|].
    intros u0 w0.
    destruct (plan_expiration_process_effect env u0 D dry_run w0)
      as (evs0 & ? & _ & _ & ? & _).
    by exists evs0.
Qed.

(** ** The selections: windows *)

Lemma get_expiring_licenses_rows (env : Env) (s : string) (D : Z) (w : World)
    (rows : list (Z * License)) (pk : Z) (l : License) :
  (Reminders._get_expiring_licenses env s D w).2 = Ok rows →
  (pk, l) ∈ rows →
  licenses (db w) !! pk = Some l
  ∧ ∃ p, plan_of (db w) l = Some p
      ∧ datetime_of_date (to_date (localized_utcnow env (trace w)) + D) ≤ expiration_date p
      ∧ expiration_date p < datetime_of_date (to_date (localized_utcnow env (trace w)) + D + 1).
Proof.
  intros Hrows Hin.
  apply get_expiring_licenses_inv in Hrows as (u & Hu & _ & ->).
  apply table_filter_spec in Hin as [Hl Hexp]. split; [done|].
  apply expiring_spec in Hexp as (_ & (p & a & Hp & _ & _ & Hlo & Hhi) & _).
  by exists p.
Qed.

Lemma get_recently_expired_plan_licenses_rows (env : Env) (s : string) (N_ : Z) (w : World)
    (rows : list (Z * License)) (pk : Z) (l : License) :
  (PlanExpiration._get_recently_expired_plan_licenses env s N_ w).2 = Ok rows →
  (pk, l) ∈ rows →
  licenses (db w) !! pk = Some l
  ∧ ∃ p, plan_of (db w) l = Some p
      ∧ datetime_of_date (to_date (localized_utcnow env (trace w)) - N_) ≤ expiration_date p
      ∧ expiration_date p < datetime_of_date (to_date (localized_utcnow env (trace w))).
Proof.
  intros Hrows Hin.
  apply get_recently_expired_plan_licenses_inv in Hrows as (u & Hu & _ & ->).
  apply table_filter_spec in Hin as [Hl Hexp]. split; [done|].
  apply recently_expired_spec in Hexp as (_ & (p & a & Hp & _ & _ & Hlo & Hhi) & _).
  by exists p.
Qed.

(** X8. For a license that [_get_expiring_licenses] selected for [D]
    days, the [days_until_expiration] computed when its email is prepared on
    the same UTC day is [D] or [D - 1]; it is [D] exactly when the time of
    day of the clock is not later than the time of day the plan expires
    at. *)
Theorem reminder_announces_days_or_one_less (env : Env) (s : string) (D : Z) (w : World)
    (rows : list (Z * License)) (pk : Z) (l : License) (p : SubscriptionPlan) (now : Z) :
  (Reminders._get_expiring_licenses env s D w).2 = Ok rows →
  (pk, l) ∈ rows →
  plan_of (db w) l = Some p →
  to_date now = to_date (localized_utcnow env (trace w)) →
  D - 1 ≤ days_until_expiration (expiration_date p) now ≤ D
  ∧ (days_until_expiration (expiration_date p) now = D
     ↔ now mod DAY ≤ expiration_date p mod DAY).
Proof.
  intros Hrows Hin Hp Hday.
  destruct (get_expiring_licenses_rows env s D w rows pk l Hrows Hin)
    as (_ & p' & Hp' & Hlo & Hhi).
  rewrite Hp in Hp'. injection Hp' as <-.
  rewrite <- Hday in Hlo, Hhi. unfold days_until_expiration.
  unfold datetime_of_date, to_date in *. pose proof DAY_pos as HD.
  pose proof (Z.div_mod now DAY ltac:(lia)) as Hnow.
  pose proof (Z.mod_pos_bound now DAY HD) as Hnr.
  pose proof (Z.div_mod (expiration_date p) DAY ltac:(lia)) as Hexp.
  pose proof (Z.mod_pos_bound (expiration_date p) DAY HD) as Her.
  assert (expiration_date p / DAY = now / DAY + D) as Hq by nia.
  destruct (decide (now mod DAY ≤ expiration_date p mod DAY)) as [Hle|Hgt].
  - assert ((expiration_date p - now) / DAY = D) as ->.
    { symmetry. apply (Z.div_unique _ _ D (expiration_date p mod DAY - now mod DAY)); nia. }
    split; [lia|]. done.
  - assert ((expiration_date p - now) / DAY = D - 1) as ->.
    { symmetry.
      apply (Z.div_unique _ _ (D - 1) (DAY + expiration_date p mod DAY - now mod DAY)); nia. }
    split; [lia|]. split; [lia|done].
Qed.

(** X9. For a license that [_get_recently_expired_plan_licenses] selected
    for a look back of [N_] days, the [days_since_expiration] computed when
    its email is prepared on the same UTC day lies between 1 and [N_]. *)
Theorem plan_expiration_announces_one_to_days (env : Env) (s : string) (N_ : Z) (w : World)
    (rows : list (Z * License)) (pk : Z) (l : License) (p : SubscriptionPlan) (now : Z) :
  (PlanExpiration._get_recently_expired_plan_licenses env s N_ w).2 = Ok rows →
  (pk, l) ∈ rows →
  plan_of (db w) l = Some p →
  to_date now = to_date (localized_utcnow env (trace w)) →
  1 ≤ days_since_expiration (expiration_date p) now ≤ N_.
Proof.
  intros Hrows Hin Hp Hday.
  destruct (get_recently_expired_plan_licenses_rows env s N_ w rows pk l Hrows Hin)
    as (_ & p' & Hp' & Hlo & Hhi).
  rewrite Hp in Hp'. injection Hp' as <-.
  rewrite <- Hday in Hlo, Hhi. unfold days_since_expiration.
  apply to_date_ge in Hlo. apply to_date_lt in Hhi. lia.
Qed.

(** X10. On the same tables, a license selected for a reminder [D] days
    ahead is not selected for a plan expiration email by a selection whose
    clock shows a day not later than the reminder's target day; so, for
    [D] of zero or more, never on the same day. *)
Theorem reminder_and_expiration_selections_are_disjoint (env1 env2 : Env) (s1 s2 : string)
    (D N_ : Z) (w1 w2 : World) (rows1 rows2 : list (Z * License)) (pk : Z) :
  db w2 = db w1 →
  to_date (localized_utcnow env2 (trace w2))
    ≤ to_date (localized_utcnow env1 (trace w1)) + D →
  (Reminders._get_expiring_licenses env1 s1 D w1).2 = Ok rows1 →
  (PlanExpiration._get_recently_expired_plan_licenses env2 s2 N_ w2).2 = Ok rows2 →
  pk ∈ rows1.*1 → pk ∉ rows2.*1.
Proof.
  intros Hdb Hday Hrows1 Hrows2 Hin1 Hin2.
  apply list_elem_of_fmap in Hin1 as ([pk1 l1] & -> & Hin1).
  apply list_elem_of_fmap in Hin2 as ([pk2 l2] & Hpk & Hin2). cbn [fst] in Hpk. subst pk2.
  destruct (get_expiring_licenses_rows env1 s1 D w1 rows1 pk1 l1 Hrows1 Hin1)
    as (Hl1 & p1 & Hp1 & Hlo1 & _).
  destruct (get_recently_expired_plan_licenses_rows env2 s2 N_ w2 rows2 pk1 l2 Hrows2 Hin2)
    as (Hl2 & p2 & Hp2 & _ & Hhi2).
  rewrite Hdb in Hl2, Hp2. rewrite Hl1 in Hl2. injection Hl2 as <-.
  rewrite Hp1 in Hp2. injection Hp2 as <-.
  apply to_date_ge in Hlo1. apply to_date_lt in Hhi2. lia.
Qed.

Lemma recently_expired_empty_window (d : DB) (u : N) (today N_ : Z) (l : License) :
  N_ ≤ 0 →
  PlanExpiration.recently_expired d u
    (datetime_of_date (today - N_)) (datetime_of_date today) l = false.
Proof.
  intros HN. apply not_true_is_false. intros Hsel.
  apply recently_expired_spec in Hsel as (_ & (p & a & _ & _ & _ & Hlo & Hhi) & _).
  unfold datetime_of_date in *. pose proof DAY_pos. nia.
Qed.

(** With an empty window the selection returns no row. *)
Lemma get_recently_expired_plan_licenses_empty_window (env : Env) (u : string) (N_ : Z)
    (w : World) (rows : list (Z * License)) :
  N_ ≤ 0 →
  (PlanExpiration._get_recently_expired_plan_licenses env u N_ w).2 = Ok rows →
  rows = [].
Proof.
  intros HN Hrows.
  apply get_recently_expired_plan_licenses_inv in Hrows as (uu & _ & _ & ->).
  destruct (filter _ _) as [|[pk l] rows] eqn:Hf; [done|].
  assert ((pk, l) ∈ (pk, l) :: rows) as Hin by apply list_elem_of_here.
  rewrite <- Hf in Hin. apply list_elem_of_filter in Hin as [Hsel _]. cbn [snd] in Hsel.
  by rewrite recently_expired_empty_window in Hsel.
Qed.

Lemma plan_expiration_process_empty_window (env : Env) (u : string) (N_ : Z)
    (dry_run : bool) (w : World) :
  N_ ≤ 0 →
  PlanExpiration._process_enterprise_customer env u N_ dry_run w =
    PlanExpiration._process_enterprise_customer env u N_ true w.
Proof.
  intros HN. rewrite !plan_expiration_process_shape.
  rewrite !(process_with_eq _ _ _ (plan_expiration_selects env u N_)). cbn zeta.
  destruct (_.2) as [rows|e] eqn:Hsel; [|done].
  by rewrite (get_recently_expired_plan_licenses_empty_window env u N_ _ rows HN Hsel).
Qed.

Lemma plan_expiration_customers_loop_empty_window (env : Env) (N_ : Z) (dry_run : bool)
    (uuids : list string) (ts tf ef : nat) (w : World) :
  N_ ≤ 0 →
  PlanExpiration.customers_loop env N_ dry_run uuids ts tf ef w =
    PlanExpiration.customers_loop env N_ true uuids ts tf ef w.
Proof.
  intros HN. revert ts tf ef w.
  induction uuids as [|u rest IH]; intros ts tf ef w; [done|].
  rewrite !plan_expiration_customers_loop_cons.
  rewrite (plan_expiration_process_empty_window env u N_ dry_run w HN).
  destruct (PlanExpiration._process_enterprise_customer env u N_ true w) as [w1 [c|[]]];
    by rewrite ?IH.
Qed.

(** X11. With a number of days since expiration of zero or less, the
    window of the plan expiration command is empty: the selection returns
    no license (where the window exists; it raises [OverflowError] where
    the day the window starts with is past the year 9999), and a run does
    exactly what a dry run does, the tables staying as they were. *)
Theorem nonpositive_days_since_expiration_selects_nothing (env : Env) (s : string)
    (N_ : Z) (dry_run : bool) (w : World) :
  N_ ≤ 0 →
  (∀ u w0, is_Some (uuid_UUID env u) →
     (recently_expired_window_in_range (localized_utcnow env (trace w0)) N_ →
      (PlanExpiration._get_recently_expired_plan_licenses env u N_ w0).2 = Ok [])
     ∧ (¬ recently_expired_window_in_range (localized_utcnow env (trace w0)) N_ →
        (PlanExpiration._get_recently_expired_plan_licenses env u N_ w0).2
        = Raise Exception_))
  ∧ PlanExpiration.handle env (mkOptions s N_ dry_run) w
    = PlanExpiration.handle env (mkOptions s N_ true) w
  ∧ db (PlanExpiration.handle env (mkOptions s N_ dry_run) w).1 = db w.
Proof.
  intros HN.
  assert (PlanExpiration.handle env (mkOptions s N_ dry_run) w
          = PlanExpiration.handle env (mkOptions s N_ true) w) as Heq.
  { unfold PlanExpiration.handle. cbn [opt_enterprise_customer_uuid opt_days opt_dry_run].
    destruct (_parse_enterprise_customer_uuids env s) as [[|u uuids]|e]; [done| |done].
    unfold mbind, M_bind.
    by rewrite (plan_expiration_customers_loop_empty_window env N_ dry_run _ 0 0 0 w HN). }
  split; [|split; [done|]].
  - intros u w0 [uu Hu]. split.
    + intros Hrange.
      destruct (plan_expiration_select_returns env u N_ w0 (ex_intro _ uu Hu) Hrange)
        as [rows Hrows].
      by rewrite Hrows,
        (get_recently_expired_plan_licenses_empty_window env u N_ w0 rows HN Hrows).
    + intros Hrange. by rewrite get_recently_expired_plan_licenses_overflow.
  - rewrite Heq.
    by destruct (dry_run_world_quiet s env w _
                   (plan_expiration_handle_dry_run_world env s N_ w)).
Qed.

(** ** Parsing: composition and round trip *)

(** A string is parsed by checking its tokens. *)
Lemma parse_by_tokens (env : Env) (s : string) (toks : list (list string)) :
  tokens_of (chars s) toks →
  _parse_enterprise_customer_uuids env s
  = match check_uuids env (encode <$> toks) with
    | Ok _ => Ok (encode <$> toks)
    | Raise e => Raise e
    end.
Proof.
  intros Htok. unfold _parse_enterprise_customer_uuids.
  by rewrite (tokens_of_unique (chars s) _ _ (parsed_items_tokens (chars s)) Htok).
Qed.

Lemma check_uuids_app (env : Env) (items1 items2 : list string) :
  check_uuids env (items1 ++ items2)
  = match check_uuids env items1 with
    | Ok _ => check_uuids env items2
    | Raise e => Raise e
    end.
Proof.
  induction items1 as [|item rest IH]; simpl; [done|].
  by destruct (uuid_UUID env item).
Qed.

(** The tokens of two strings put together with separators in between. *)
Lemma tokens_of_concat (s1 g s2 : list string) (toks1 toks2 : list (list string)) :
  all_sep g = true → g ≠ [] →
  tokens_of s1 toks1 → tokens_of s2 toks2 →
  tokens_of (s1 ++ g ++ s2) (toks1 ++ toks2).
Proof.
  intros Hg Hne H1 H2. induction H1 as [g0 Hg0|g0 t rest toks Hg0 Ht Hb Hrest IH].
  - simpl. rewrite app_assoc. apply tokens_of_prepend; [|done].
    by rewrite all_sep_app, Hg0, Hg.
  - rewrite <- !app_assoc. simpl. apply tokens_of_first; try done.
    destruct rest as [|c rest]; [|done]. simpl.
    destruct g as [|c g]; [done|]. simpl in *. by apply andb_true_iff in Hg as [? _].
Qed.

(** The characters of two strings put together with separators in
    between. *)
Lemma chars_concat (s1 g s2 : string) :
  all_sep (chars g) = true → g ≠ EmptyString →
  chars (s1 +:+ g +:+ s2) = chars s1 ++ chars g ++ chars s2
  ∧ chars g ≠ [].
Proof.
  intros Hg Hne.
  destruct (chars g) as [|u l] eqn:Hc.
  { by rewrite <- (encode_chars g), Hc in Hne. }
  split; [|done].
  rewrite <- Hc, <- (chars_app_sep g s2) by (by rewrite Hc).
  apply chars_app.
  destruct (chars_cons_inv g u l Hc) as (g' & -> & _).
  simpl in Hg. apply andb_true_iff in Hg as [Hu _].
  by destruct (is_sep_first_byte u Hu) as (a & u' & -> & Ha).
Qed.

(** X12. Parsing two argument strings put together with a non-empty run
    of separators in between (commas, and whitespace characters of one or
    more bytes) gives the items of the first followed by the items of the
    second, and raises [ValueError] when either does. *)
Theorem parse_of_concatenation (env : Env) (s1 g s2 : string) :
  all_sep (chars g) = true → g ≠ EmptyString →
  _parse_enterprise_customer_uuids env (s1 +:+ g +:+ s2)
  = match _parse_enterprise_customer_uuids env s1,
          _parse_enterprise_customer_uuids env s2 with
    | Ok uuids1, Ok uuids2 => Ok (uuids1 ++ uuids2)
    | _, _ => Raise ValueError
    end.
Proof.
  intros Hg Hne.
  destruct (chars_concat s1 g s2 Hg Hne) as [Hchars Hne'].
  pose proof (parsed_items_tokens (chars s1)) as H1.
  pose proof (parsed_items_tokens (chars s2)) as H2.
  pose proof (tokens_of_concat _ _ _ _ _ Hg Hne' H1 H2) as H12.
  rewrite <- Hchars in H12.
  rewrite (parse_by_tokens env _ _ H12).
  rewrite (parse_by_tokens env s1 _ H1), (parse_by_tokens env s2 _ H2).
  rewrite fmap_app, check_uuids_app.
  destruct (check_uuids env _) as [[]|e1] eqn:E1.
  - destruct (check_uuids env _) as [[]|e2] eqn:E2 in |- *; [done|].
    by rewrite (check_uuids_raises env _ e2 E2).
  - by rewrite (check_uuids_raises env _ e1 E1).
Qed.

Lemma tokens_of_tokens (s : list string) (toks : list (list string)) :
  tokens_of s toks → Forall is_token toks.
Proof. induction 1; by constructor. Qed.

Lemma chars_join_commas (toks : list (list string)) :
  Forall (λ t, chars (encode t) = t) toks →
  chars (join_commas (encode <$> toks)) = join_chars toks.
Proof.
  induction 1 as [|t rest Ht Hrest IH]; [done|].
  destruct rest as [|t' rest]; [done|].
  change (join_commas (encode <$> t :: t' :: rest))
    with (encode t +:+ String "," (join_commas (encode <$> t' :: rest))).
  rewrite chars_app by done. rewrite Ht.
  change (String "," (join_commas (encode <$> t' :: rest)))
    with ("," +:+ join_commas (encode <$> t' :: rest)).
  rewrite chars_cons_sep by done. by rewrite IH.
Qed.

(** The tokens of a list of tokens joined by commas are the list. *)
Lemma tokens_of_join_chars (toks : list (list string)) :
  Forall is_token toks → tokens_of (join_chars toks) toks.
Proof.
  induction 1 as [|t rest Ht Hrest IH]; [by apply tokens_of_none|].
  destruct rest as [|t' rest].
  - cbn [join_chars].
    assert (tokens_of ([] ++ t ++ []) [t]) as Hone.
    { apply tokens_of_first; try done. }
    simpl in Hone. by rewrite app_nil_r in Hone.
  - change (join_chars (t :: t' :: rest)) with (t ++ "," :: join_chars (t' :: rest)).
    apply (tokens_of_first [] t ("," :: join_chars (t' :: rest))); try done.
    by apply (tokens_of_prepend [","]).
Qed.

(** X13. The items [_parse_enterprise_customer_uuids] returns, joined by
    commas, parse to the same items. *)
Theorem parse_join_commas_round_trip (env : Env) (s : string) (uuids : list string) :
  _parse_enterprise_customer_uuids env s = Ok uuids →
  _parse_enterprise_customer_uuids env (join_commas uuids) = Ok uuids.
Proof.
  intros Hparse. pose proof (parse_valid env s uuids Hparse) as Hvalid.
  pose proof (parsed_items_tokens (chars s)) as Htok.
  set (toks := strip <$> _) in Htok.
  assert (uuids = encode <$> toks) as ->.
  { unfold _parse_enterprise_customer_uuids in Hparse. fold toks in Hparse.
    destruct (check_uuids env _); [|done]. by injection Hparse as <-. }
  pose proof (tokens_of_join_chars _ (tokens_of_tokens _ _ Htok)) as Hjoin.
  rewrite <- (chars_join_commas toks) in Hjoin
    by (by apply (tokens_of_chars s [] (chars s))).
  rewrite (parse_by_tokens env _ toks Hjoin).
  apply check_uuids_ok in Hvalid. by rewrite Hvalid.
Qed.

(** ** retire_old_licenses: a whole run *)

(** A run, row by row: plans and agreements are as before, no row appears
    or disappears, and every license is what the three steps make of it. *)
Lemma retire_handle_rows (env : Env) (w : World) :
  let ready := to_date (datetime_now env (trace w)) - DAYS_TO_RETIRE in
  (Retire.handle env w).2 = Ok tt
  ∧ subscription_plans (db (Retire.handle env w).1) = subscription_plans (db w)
  ∧ customer_agreements (db (Retire.handle env w).1) = customer_agreements (db w)
  ∧ ∀ pk,
      match licenses (db w) !! pk with
      | None => licenses (db (Retire.handle env w).1) !! pk = None
      | Some l =>
          ∃ tr, licenses (db (Retire.handle env w).1) !! pk
                = Some (retired (db w) ready (datetime_now env tr) l)
      end.
Proof.
  intros ready. remember (Retire.handle env w) as res eqn:Hres.
  unfold Retire.handle, Retire.query in Hres.
  unfold mbind at 1, M_bind at 1, now_naive in Hres. fold ready in Hres.
  set (w0 := mkWorld (db w) (trace w ++ [ClockRead])) in Hres.
  unfold mbind at 1, M_bind at 1 in Hres.
  unfold mbind at 1, M_bind at 1, get_db, mret, M_ret in Hres.
  set (rows1 := filter _ (map_to_list (licenses (db w0)))) in Hres.
  destruct (table_filter_spec (Retire.expired_for_retirement (db w0) ready)
              (licenses (db w0))) as [Hnd1 Hmem1].
  destruct (retire_expired_effect env rows1 w0 Hnd1) as (Hr1 & Htr1 & Hp1 & Ha1 & Hout1 & Hin1).
  unfold mbind at 1, M_bind at 1 in Hres.
  destruct (Retire.retire_expired env rows1 w0) as [w1 r1]. cbn [fst snd] in *. subst r1.
  unfold mbind at 1, M_bind at 1 in Hres. unfold mbind at 1, M_bind at 1 in Hres.
  set (rows2 := filter _ (map_to_list (licenses (db w1)))) in Hres.
  destruct (table_filter_spec (Retire.revoked_for_retirement ready)
              (licenses (db w1))) as [Hnd2 Hmem2].
  destruct (retire_revoked_effect rows2 w1 Hnd2) as (Hr2 & Htr2 & Hp2 & Ha2 & Hout2 & Hin2).
  unfold mbind at 1, M_bind at 1 in Hres.
  destruct (Retire.retire_revoked rows2 w1) as [w2 r2]. cbn [fst snd] in *. subst r2.
  unfold mbind at 1, M_bind at 1 in Hres. unfold mbind at 1, M_bind at 1 in Hres.
  set (rows3 := filter _ (map_to_list (licenses (db w2)))) in Hres.
  destruct (table_filter_spec (Retire.assigned_for_retirement ready)
              (licenses (db w2))) as [Hnd3 Hmem3].
  destruct (retire_assigned_effect rows3 w2 Hnd3) as (Hr3 & Htr3 & Hp3 & Ha3 & Hout3 & Hin3).
  subst res.
  split; [done|]. split; [by rewrite Hp3, Hp2, Hp1|]. split; [by rewrite Ha3, Ha2, Ha1|].
  assert (∀ (P : License → bool) (m : gmap Z License) pk,
            m !! pk = None → pk ∉ (filter (λ row : Z * License, P row.2) (map_to_list m)).*1)
    as Hnone.
  { intros P m pk Hm Hpk. apply list_elem_of_fmap in Hpk as ([pk' l'] & -> & Hrow).
    apply table_filter_spec in Hrow as [Hl' _]. cbn [fst] in Hm. congruence. }
  intros pk. change (db w0) with (db w) in *.
  destruct (licenses (db w) !! pk) as [l|] eqn:Hl.
  - unfold retired.
    (* the first step *)
    assert (∃ tr, licenses (db w1) !! pk
                  = Some (if Retire.expired_for_retirement (db w) ready l
                          then set_revoked_date (Some (datetime_now env tr))
                                 (set_status REVOKED (clear_pii l))
                          else l)) as [tr Hl1].
    { destruct (table_filter_stored (Retire.expired_for_retirement (db w) ready)
                  (licenses (db w)) pk l Hl) as [Hyes Hno].
      destruct (Retire.expired_for_retirement (db w) ready l).
      - destruct (Hin1 pk l (Hyes eq_refl)) as (tr & _ & _ & Hl1). by exists tr.
      - exists []. by rewrite (Hout1 pk (Hno eq_refl)). }
    exists tr. set (l1 := if Retire.expired_for_retirement (db w) ready l then _ else l) in *.
    (* the second step *)
    assert (licenses (db w2) !! pk
            = Some (if Retire.revoked_for_retirement ready l1 then clear_pii l1 else l1))
      as Hl2.
    { destruct (table_filter_stored (Retire.revoked_for_retirement ready)
                  (licenses (db w1)) pk l1 Hl1) as [Hyes Hno].
      destruct (Retire.revoked_for_retirement ready l1).
      - by apply Hin2, Hyes.
      - by rewrite (Hout2 pk (Hno eq_refl)). }
    set (l2 := if Retire.revoked_for_retirement ready l1 then _ else l1) in *.
    (* the third step *)
    destruct (table_filter_stored (Retire.assigned_for_retirement ready)
                (licenses (db w2)) pk l2 Hl2) as [Hyes Hno].
    destruct (Retire.assigned_for_retirement ready l2).
    + by apply Hin3, Hyes.
    + by rewrite (Hout3 pk (Hno eq_refl)).
  - assert (licenses (db w1) !! pk = None) as Hl1
      by (rewrite Hout1; [done|by apply Hnone]).
    assert (licenses (db w2) !! pk = None) as Hl2
      by (rewrite Hout2; [done|by apply Hnone]).
    rewrite Hout3; [done|by apply Hnone].
Qed.

(** A license that a step's query does not select, by its fields. *)
Ltac not_due :=
  apply not_true_is_false;
  unfold Retire.revoked_for_retirement, Retire.assigned_for_retirement,
    Retire.expired_for_retirement;
  rewrite ?andb_true_iff, ?bool_decide_eq_true; cbn;
  intro; destruct_and?; try done; congruence.

(** What the three steps make of a license is due for none of them. *)
Lemma retired_not_due (d : DB) (ready t : Z) (l : License) :
  Retire.expired_for_retirement d ready (retired d ready t l) = false
  ∧ Retire.revoked_for_retirement ready (retired d ready t l) = false
  ∧ Retire.assigned_for_retirement ready (retired d ready t l) = false.
Proof.
  unfold retired.
  destruct (Retire.expired_for_retirement d ready l) eqn:E1.
  { set (l1 := set_revoked_date _ _).
    assert (Retire.revoked_for_retirement ready l1 = false) as -> by not_due.
    assert (Retire.assigned_for_retirement ready l1 = false) as E3 by not_due.
    rewrite E3. repeat split; try done; not_due. }
  destruct (Retire.revoked_for_retirement ready l) eqn:E2.
  { assert (status l = REVOKED) as Hs.
    { unfold Retire.revoked_for_retirement in E2.
      rewrite !andb_true_iff, !bool_decide_eq_true in E2. tauto. }
    assert (Retire.assigned_for_retirement ready (clear_pii l) = false) as E3
      by not_due.
    rewrite E3. repeat split; try done; not_due. }
  destruct (Retire.assigned_for_retirement ready l) eqn:E3; [|done].
  repeat split; not_due.
Qed.

Lemma retired_not_due_id (d : DB) (ready t : Z) (l : License) :
  Retire.expired_for_retirement d ready l = false →
  Retire.revoked_for_retirement ready l = false →
  Retire.assigned_for_retirement ready l = false →
  retired d ready t l = l.
Proof. intros E1 E2 E3. unfold retired. by rewrite E1, E2, E3. Qed.

(** A license due at a date is due at every later date. *)
Lemma due_for_retirement_mono (d : DB) (ready ready' : Z) (l : License) :
  ready ≤ ready' →
  (Retire.expired_for_retirement d ready l = true →
   Retire.expired_for_retirement d ready' l = true)
  ∧ (Retire.revoked_for_retirement ready l = true →
     Retire.revoked_for_retirement ready' l = true)
  ∧ (Retire.assigned_for_retirement ready l = true →
     Retire.assigned_for_retirement ready' l = true).
Proof.
  intros Hle. unfold Retire.expired_for_retirement, Retire.revoked_for_retirement,
    Retire.assigned_for_retirement, datetime_of_date.
  pose proof DAY_pos.
  destruct (plan_of d l) as [p|], (revoked_date l) as [tr|], (assigned_date l) as [ta|];
    cbn; rewrite ?andb_true_iff, ?bool_decide_eq_true; repeat split; try tauto;
    intros; repeat split; try tauto; try nia; try lia.
Qed.

(** The first query looks at the plans only. *)
Lemma expired_for_retirement_tables (d d' : DB) (ready : Z) (l : License) :
  subscription_plans d' = subscription_plans d →
  Retire.expired_for_retirement d' ready l = Retire.expired_for_retirement d ready l.
Proof. intros Hp. unfold Retire.expired_for_retirement, plan_of. by rewrite Hp. Qed.

(** Every row a run leaves is what the three steps made of a row it found. *)
Lemma retired_rows (env : Env) (w : World) (pk : Z) (l : License) :
  licenses (db (Retire.handle env w).1) !! pk = Some l →
  ∃ l0 tr,
    licenses (db w) !! pk = Some l0
    ∧ l = retired (db w) (to_date (datetime_now env (trace w)) - DAYS_TO_RETIRE)
            (datetime_now env tr) l0.
Proof.
  intros Hl. destruct (retire_handle_rows env w) as (_ & _ & _ & Hrows).
  specialize (Hrows pk). destruct (licenses (db w) !! pk) as [l0|]; [|congruence].
  destruct Hrows as [tr Hl']. exists l0, tr. split; [done|]. congruence.
Qed.

(** X14. After a run of [retire_old_licenses], no license of the table
    is one that any of the three queries of the run would select with the
    run's date: nothing is left that was due for retirement. *)
Theorem nothing_left_to_retire (env : Env) (w : World) (pk : Z) (l : License) :
  licenses (db (Retire.handle env w).1) !! pk = Some l →
  let ready := to_date (datetime_now env (trace w)) - DAYS_TO_RETIRE in
  Retire.expired_for_retirement (db (Retire.handle env w).1) ready l = false
  ∧ Retire.revoked_for_retirement ready l = false
  ∧ Retire.assigned_for_retirement ready l = false.
Proof.
  intros Hl ready.
  destruct (retired_rows env w pk l Hl) as (l0 & tr & _ & ->).
  destruct (retire_handle_rows env w) as (_ & Hp & _).
  destruct (retired_not_due (db w) ready (datetime_now env tr) l0) as (E1 & E2 & E3).
  by rewrite (expired_for_retirement_tables (db w) _ ready _ Hp).
Qed.

(** X15. A run of [retire_old_licenses] returns normally, leaves the
    plans and the agreements as they were, adds and removes no license, and
    leaves every license that none of its three queries selects exactly as
    it was. *)
Theorem retire_leaves_the_rest_alone (env : Env) (w : World) :
  let ready := to_date (datetime_now env (trace w)) - DAYS_TO_RETIRE in
  (Retire.handle env w).2 = Ok tt
  ∧ subscription_plans (db (Retire.handle env w).1) = subscription_plans (db w)
  ∧ customer_agreements (db (Retire.handle env w).1) = customer_agreements (db w)
  ∧ (∀ pk, licenses (db (Retire.handle env w).1) !! pk = None
           ↔ licenses (db w) !! pk = None)
  ∧ (∀ pk l, licenses (db w) !! pk = Some l →
       Retire.expired_for_retirement (db w) ready l = false →
       Retire.revoked_for_retirement ready l = false →
       Retire.assigned_for_retirement ready l = false →
       licenses (db (Retire.handle env w).1) !! pk = Some l).
Proof.
  intros ready. destruct (retire_handle_rows env w) as (Hr & Hp & Ha & Hrows).
  repeat split; try done.
  - intros Hnone. specialize (Hrows pk).
    destruct (licenses (db w) !! pk) as [l0|]; [|done].
    destruct Hrows as [tr Hl']. congruence.
  - intros Hnone. specialize (Hrows pk). by rewrite Hnone in Hrows.
  - intros pk l Hl E1 E2 E3. specialize (Hrows pk). rewrite Hl in Hrows.
    destruct Hrows as [tr ->]. by rewrite retired_not_due_id.
Qed.

(** X16. A second run of [retire_old_licenses] whose clock shows the same
    day as the first run's, or an earlier one, changes nothing in the
    tables. *)
Theorem retire_again_changes_nothing (env env' : Env) (w : World) :
  to_date (datetime_now env' (trace (Retire.handle env w).1))
    ≤ to_date (datetime_now env (trace w)) →
  db (Retire.handle env' (Retire.handle env w).1).1 = db (Retire.handle env w).1.
Proof.
  intros Hday. set (w1 := (Retire.handle env w).1) in *.
  destruct (retire_handle_rows env' w1) as (_ & Hp & Ha & Hrows).
  assert (licenses (db (Retire.handle env' w1).1) = licenses (db w1)) as Hl.
  { apply map_eq. intros pk. specialize (Hrows pk).
    destruct (licenses (db w1) !! pk) as [l|] eqn:Hl; [|done].
    destruct Hrows as [tr ->]. f_equal.
    destruct (retired_rows env w pk l Hl) as (l0 & tr0 & _ & ->).
    set (ready := to_date (datetime_now env (trace w)) - DAYS_TO_RETIRE).
    destruct (retired_not_due (db w) ready (datetime_now env tr0) l0) as (E1 & E2 & E3).
    destruct (retire_handle_rows env w) as (_ & Hp0 & _).
    rewrite <- (expired_for_retirement_tables (db w) (db w1) ready _ Hp0) in E1.
    destruct (due_for_retirement_mono (db w1)
                (to_date (datetime_now env' (trace w1)) - DAYS_TO_RETIRE) ready
                (retired (db w) ready (datetime_now env tr0) l0) ltac:(subst ready; lia))
      as (M1 & M2 & M3).
    apply retired_not_due_id; apply not_true_is_false; intros Hdue.
    - apply M1 in Hdue. congruence.
    - apply M2 in Hdue. congruence.
    - apply M3 in Hdue. congruence. }
  destruct (db (Retire.handle env' w1).1), (db w1). cbn in *. by subst.
Qed.


(** ** A run that exits normally leaves nothing to send *)

Section AllMarked.

Context (mark : option Z → License → License).
Context (campaign : option string) (env : Env) (ec : gmap string string).

(** When the loop finishes without a failure, every row of it is marked
    and every other row is as it was. *)
Lemma send_loop_all_marked (rows : list (Z * License)) (sc fc : nat) (w : World) (c : Counts) :
  NoDup rows.*1 →
  (∀ pk l, (pk, l) ∈ rows → licenses (db w) !! pk = Some l) →
  (send_loop_with campaign mark env ec rows sc fc w).2 = Ok c →
  failure_count c = fc →
  (∀ pk, pk ∉ rows.*1 →
     licenses (db (send_loop_with campaign mark env ec rows sc fc w).1) !! pk
     = licenses (db w) !! pk)
  ∧ (∀ pk l, (pk, l) ∈ rows →
       ∃ t, licenses (db (send_loop_with campaign mark env ec rows sc fc w).1) !! pk
            = Some (mark (Some t) l)).
Proof.
  revert sc fc w. induction rows as [|[pk0 obj] rest IH]; intros sc fc w Hnd Hst Hres Hfc.
  { split; [done|]. by intros pk l ?%elem_of_nil. }
  rewrite fmap_cons in Hnd. cbn [fst] in Hnd. apply NoDup_cons in Hnd as [Hpk0 Hnd].
  assert (licenses (db w) !! pk0 = Some obj) as Hl0 by apply Hst, list_elem_of_here.
  rewrite send_loop_with_cons in Hres |- *.
  (* a failure would show in the count *)
  assert (∀ w1, (∀ pk, pk ∈ rest.*1 → is_Some (licenses (db w1) !! pk)) →
                (send_loop_with campaign mark env ec rest sc (S fc) w1).2 ≠ Ok c) as Hfail.
  { intros w1 Hex1 Hc.
    destruct (send_loop_trace mark campaign env ec rest sc (S fc) w1 Hex1)
      as (evs & _ & _ & _ & _ & Hcount).
    rewrite Hc in Hcount. lia. }
  assert (∀ pk, pk ∈ rest.*1 → is_Some (licenses (db w) !! pk)) as Hex.
  { intros pk Hin. apply list_elem_of_fmap in Hin as ([pk' l] & -> & Hin).
    exists l. apply Hst. by apply list_elem_of_further. }
  destruct (send_and_mark_cases mark campaign env ec pk0 obj obj w Hl0)
    as [[_ Heq]|[_ [[e Heq]|[[e Heq]|[t Heq]]]]]; rewrite Heq in Hres |- *.
  - done.
  - destruct e; [done| |]; by apply Hfail in Hres.
  - destruct e; [done| |]; by apply Hfail in Hres.
  - set (w1 := mkWorld _ _) in *.
    assert (∀ pk, pk ≠ pk0 → licenses (db w1) !! pk = licenses (db w) !! pk) as Hne.
    { intros pk Hpk. subst w1. cbn [db licenses]. by rewrite lookup_alter_ne. }
    destruct (IH (S sc) fc w1 Hnd) as [Hout Hin]; try done.
    { intros pk l Hrow. rewrite Hne.
      - apply Hst. by apply list_elem_of_further.
      - intros ->. apply Hpk0. apply list_elem_of_fmap. by exists (pk0, l). }
    split.
    + intros pk Hpk. rewrite fmap_cons in Hpk. cbn [fst] in Hpk.
      apply not_elem_of_cons in Hpk as [Hpk Hrest]. rewrite (Hout pk Hrest). by apply Hne.
    + intros pk l [[= -> ->]|Hrow]%elem_of_cons; [|by apply Hin].
      exists t. rewrite (Hout pk0 Hpk0). subst w1. cbn [db licenses].
      by rewrite lookup_alter_eq, Hl0.
Qed.

End AllMarked.

Section Settled.

Context (marker : License → option Z) (mark : option Z → License → License).
Context (select : M (list (Z * License))).
Hypothesis select_ok : selects marker select.
Context (campaign : option string) (env : Env).

(** A customer whose processing finished without a failure has nothing
    left to send. *)
Lemma process_with_settles (F : License → bool) (u : string) (w : World) (c : Counts) :
  (∀ t l, F (mark (Some t) l) = false) →
  (select (mkWorld (db w) (trace w ++ [LogProcessing u]))).2
    = Ok (filter (λ row : Z * License, F row.2) (map_to_list (licenses (db w)))) →
  (process_with select campaign mark env u false w).2 = Ok c →
  failure_count c = 0%nat →
  nothing_to_send F (db (process_with select campaign mark env u false w).1).
Proof.
  intros HF Hsel Hres Hfc. unfold nothing_to_send.
  rewrite (process_with_eq marker mark select select_ok) in Hres |- *.
  cbn zeta in *. rewrite Hsel in Hres |- *.
  destruct (table_filter_spec F (licenses (db w))) as [Hnd Hmem].
  destruct (filter _ _) as [|row rows] eqn:Hf.
  - intros pk l Hl. cbn [fst db] in Hl. apply not_true_is_false. intros HFl.
    assert ((pk, l) ∈ ([] : list (Z * License))) as Hin by (by apply Hmem).
    by apply elem_of_nil in Hin.
  - destruct (get_enterprise_customer_data env _ u) as [ec|e]; [|done].
    set (w3 := mkWorld (db w) (_ ++ [EnterpriseApiCall u None])) in *.
    assert (∀ pk l, (pk, l) ∈ row :: rows → licenses (db w3) !! pk = Some l) as Hst.
    { intros pk l Hrow. by apply Hmem in Hrow as [? _]. }
    destruct (send_loop_all_marked mark campaign env ec (row :: rows) 0 0 w3 c
                Hnd Hst Hres Hfc) as [Hout Hin].
    intros pk l' Hl'. destruct (decide (pk ∈ (row :: rows).*1)) as [Hpk|Hpk].
    + apply list_elem_of_fmap in Hpk as ([pk' l] & -> & Hrow).
      destruct (Hin _ _ Hrow) as [t Hl]. cbn [fst] in *. rewrite Hl in Hl'.
      injection Hl' as <-. apply HF.
    + rewrite (Hout pk Hpk) in Hl'. apply not_true_is_false. intros HFl.
      apply Hpk. apply list_elem_of_fmap. exists (pk, l'). split; [done|]. by apply Hmem.
Qed.

(** With nothing to send, the processing of a customer is what a dry run
    does. *)
Lemma process_with_nothing_to_send (F : License → bool) (u : string) (dry_run : bool)
    (w : World) :
  (select (mkWorld (db w) (trace w ++ [LogProcessing u]))).2
    = Ok (filter (λ row : Z * License, F row.2) (map_to_list (licenses (db w)))) →
  nothing_to_send F (db w) →
  process_with select campaign mark env u dry_run w
  = (mkWorld (db w) (trace w ++ [LogProcessing u; ClockRead]), Ok (mkCounts 0 0)).
Proof.
  intros Hsel Hnone. rewrite (process_with_eq marker mark select select_ok).
  cbn zeta. rewrite Hsel.
  destruct (filter _ _) as [|[pk l] rows] eqn:Hf; [done|].
  assert ((pk, l) ∈ (pk, l) :: rows) as Hin by apply list_elem_of_here.
  rewrite <- Hf in Hin. apply table_filter_spec in Hin as [Hl HF].
  by rewrite (Hnone pk l Hl) in HF.
Qed.

End Settled.

(** Marking leaves nothing new to send. *)
Lemma nothing_to_send_marked (marker : License → option Z)
    (mark : option Z → License → License) (F : License → bool) (w w' : World) :
  (∀ t l, F (mark (Some t) l) = false) →
  marked_exactly_the_emailed marker mark w w' →
  nothing_to_send F (db w) → nothing_to_send F (db w').
Proof.
  intros HF (evs & _ & _ & _ & Hrows) Hnone pk l' Hl'.
  destruct (Hrows pk) as [[Heq _]|(l & t & Hl & _ & Hnew & _)].
  - rewrite Heq in Hl'. by apply (Hnone pk).
  - rewrite Hnew in Hl'. injection Hl' as <-. apply HF.
Qed.

Lemma expiring_marked (d : DB) (u : N) (ws we t : Z) (l : License) :
  Reminders.expiring d u ws we (set_expiration_reminder_sent_date (Some t) l) = false.
Proof. unfold Reminders.expiring. cbn. apply andb_false_r. Qed.

Lemma recently_expired_marked (d : DB) (u : N) (ws we t : Z) (l : License) :
  PlanExpiration.recently_expired d u ws we
    (set_subscription_plan_expiration_email_sent_date (Some t) l) = false.
Proof. unfold PlanExpiration.recently_expired. cbn. apply andb_false_r. Qed.

Lemma expiring_tables (d d' : DB) (u : N) (ws we : Z) :
  subscription_plans d' = subscription_plans d →
  customer_agreements d' = customer_agreements d →
  Reminders.expiring d' u ws we = Reminders.expiring d u ws we.
Proof.
  intros Hp Ha. unfold Reminders.expiring, activated_in_window, agreement_of, plan_of.
  by rewrite Hp, Ha.
Qed.

Lemma recently_expired_tables (d d' : DB) (u : N) (ws we : Z) :
  subscription_plans d' = subscription_plans d →
  customer_agreements d' = customer_agreements d →
  PlanExpiration.recently_expired d' u ws we = PlanExpiration.recently_expired d u ws we.
Proof.
  intros Hp Ha.
  unfold PlanExpiration.recently_expired, activated_in_window, agreement_of, plan_of.
  by rewrite Hp, Ha.
Qed.

Lemma parse_same_uuids (env env' : Env) (s : string) :
  (∀ u, uuid_UUID env' u = uuid_UUID env u) →
  _parse_enterprise_customer_uuids env' s = _parse_enterprise_customer_uuids env s.
Proof.
  intros Hsame. unfold _parse_enterprise_customer_uuids.
  assert (∀ items, check_uuids env' items = check_uuids env items) as ->; [|done].
  induction items as [|item rest IH]; simpl; [done|]. by rewrite Hsame, IH.
Qed.

(** The loop over the customers changes the tables by marking only. *)
Lemma reminders_customers_loop_marks (env : Env) (D : Z) (dry_run : bool)
    (uuids : list string) (ts tf : nat) (w : World) :
  marked_exactly_the_emailed expiration_reminder_sent_date set_expiration_reminder_sent_date
    w (Reminders.customers_loop env D dry_run uuids ts tf w).1.
Proof.
  apply (reminders_customers_loop_preserves
           (marked_exactly_the_emailed expiration_reminder_sent_date
              set_expiration_reminder_sent_date w));
    [|apply marked_exactly_the_emailed_refl].
  intros u w1 Hw1. eapply marked_exactly_the_emailed_trans; [done|exact Hw1|].
  rewrite reminders_process_shape.
  apply process_with_marks_the_emailed, reminders_selects.
Qed.

Lemma plan_expiration_customers_loop_marks (env : Env) (D : Z) (dry_run : bool)
    (uuids : list string) (ts tf ef : nat) (w : World) :
  marked_exactly_the_emailed subscription_plan_expiration_email_sent_date
    set_subscription_plan_expiration_email_sent_date
    w (PlanExpiration.customers_loop env D dry_run uuids ts tf ef w).1.
Proof.
  apply (plan_expiration_customers_loop_preserves
           (marked_exactly_the_emailed subscription_plan_expiration_email_sent_date
              set_subscription_plan_expiration_email_sent_date w));
    [|apply marked_exactly_the_emailed_refl].
  intros u w1 Hw1. eapply marked_exactly_the_emailed_trans; [done|exact Hw1|].
  rewrite plan_expiration_process_shape.
  apply process_with_marks_the_emailed, plan_expiration_selects.
Qed.

(** The loop over the customers, when it ends with the failure count it
    started with: no customer has anything left to send. *)
Lemma reminders_customers_loop_settles (env : Env) (D day : Z) (uuids : list string)
    (ts tf ts' : nat) (w w' : World) :
  (∀ tr, to_date (localized_utcnow env tr) = day) →
  (∀ tr, expiring_window_in_range (localized_utcnow env tr) D) →
  Forall (λ u, is_Some (uuid_UUID env u)) uuids →
  Reminders.customers_loop env D false uuids ts tf w = (w', Ok (ts', tf)) →
  ∀ u uu, u ∈ uuids → uuid_UUID env u = Some uu →
    nothing_to_send
      (Reminders.expiring (db w) uu (datetime_of_date (day + D))
         (datetime_of_date (day + D + 1)))
      (db w').
Proof.
  intros Hday Hr Hvalid. revert ts tf w.
  induction Hvalid as [|u0 rest Hu0 Hrest IH]; intros ts tf w Hloop u uu Hin Hu.
  { by apply elem_of_nil in Hin. }
  rewrite reminders_customers_loop_cons in Hloop.
  destruct (reminders_process_effect env u0 D false w) as (evs1 & _ & Hp1 & Ha1 & _).
  pose proof (process_with_settles expiration_reminder_sent_date
                set_expiration_reminder_sent_date _ (reminders_selects env u0 D)
                (BRAZE_LICENSE_EXPIRATION_REMINDER_CAMPAIGN env) env
                (Reminders.expiring (db w) uu (datetime_of_date (day + D))
                   (datetime_of_date (day + D + 1))) u0 w) as Hsettle.
  rewrite <- reminders_process_shape in Hsettle.
  assert (∀ ts0 tf0 w1,
            Reminders.customers_loop env D false rest ts0 tf0 w1 = (w', Ok (ts', tf)) →
            (tf0 ≤ tf)%nat
            ∧ marked_exactly_the_emailed expiration_reminder_sent_date
                set_expiration_reminder_sent_date w1 w') as Hrest'.
  { intros ts0 tf0 w1 Hrun.
    destruct (reminders_customers_loop_counts env D false rest ts0 tf0 w1)
      as (evs & _ & Hcount & _).
    pose proof (reminders_customers_loop_marks env D false rest ts0 tf0 w1) as Hmarks.
    rewrite Hrun in Hcount, Hmarks. cbn [fst snd] in *. split; [lia|done]. }
  destruct (Reminders._process_enterprise_customer env u0 D false w) as [w1 [c|e]];
    cbn [fst snd] in *.
  - destruct (Hrest' _ _ _ Hloop) as [Hle Hmarks].
    replace (tf + failure_count c)%nat with tf in Hloop by lia.
    apply elem_of_cons in Hin as [->|Hin].
    + eapply nothing_to_send_marked; [apply expiring_marked|exact Hmarks|].
      apply (Hsettle c); try done; [apply expiring_marked| |lia].
      rewrite (get_expiring_licenses_eq env u0 uu D _ Hu (Hr _)). cbn [snd db trace].
      by rewrite Hday.
    + rewrite <- (expiring_tables (db w) (db w1)) by done.
      by eapply IH.
  - destruct e; [done| |]; destruct (Hrest' _ _ _ Hloop); lia.
Qed.

Lemma plan_expiration_customers_loop_settles (env : Env) (D day : Z) (uuids : list string)
    (ts tf ef ts' : nat) (w w' : World) :
  (∀ tr, to_date (localized_utcnow env tr) = day) →
  (∀ tr, recently_expired_window_in_range (localized_utcnow env tr) D) →
  Forall (λ u, is_Some (uuid_UUID env u)) uuids →
  PlanExpiration.customers_loop env D false uuids ts tf ef w = (w', Ok (ts', tf, ef)) →
  ∀ u uu, u ∈ uuids → uuid_UUID env u = Some uu →
    nothing_to_send
      (PlanExpiration.recently_expired (db w) uu (datetime_of_date (day - D))
         (datetime_of_date day))
      (db w').
Proof.
  intros Hday Hr Hvalid. revert ts tf ef w.
  induction Hvalid as [|u0 rest Hu0 Hrest IH]; intros ts tf ef w Hloop u uu Hin Hu.
  { by apply elem_of_nil in Hin. }
  rewrite plan_expiration_customers_loop_cons in Hloop.
  destruct (plan_expiration_process_effect env u0 D false w) as (evs1 & _ & Hp1 & Ha1 & _).
  pose proof (process_with_settles subscription_plan_expiration_email_sent_date
                set_subscription_plan_expiration_email_sent_date _
                (plan_expiration_selects env u0 D)
                (BRAZE_SUBSCRIPTION_PLAN_EXPIRATION_CAMPAIGN env) env
                (PlanExpiration.recently_expired (db w) uu (datetime_of_date (day - D))
                   (datetime_of_date day)) u0 w) as Hsettle.
  rewrite <- plan_expiration_process_shape in Hsettle.
  assert (∀ ts0 tf0 ef0 w1,
            PlanExpiration.customers_loop env D false rest ts0 tf0 ef0 w1
              = (w', Ok (ts', tf, ef)) →
            (tf0 + ef0 ≤ tf + ef)%nat
            ∧ marked_exactly_the_emailed subscription_plan_expiration_email_sent_date
                set_subscription_plan_expiration_email_sent_date w1 w') as Hrest'.
  { intros ts0 tf0 ef0 w1 Hrun.
    destruct (plan_expiration_customers_loop_counts env D false rest ts0 tf0 ef0 w1)
      as (evs & _ & Hcount & _).
    pose proof (plan_expiration_customers_loop_marks env D false rest ts0 tf0 ef0 w1)
      as Hmarks.
    rewrite Hrun in Hcount, Hmarks. cbn [fst snd] in *. split; [lia|done]. }
  destruct (PlanExpiration._process_enterprise_customer env u0 D false w) as [w1 [c|e]];
    cbn [fst snd] in *.
  - destruct (Hrest' _ _ _ _ Hloop) as [Hle Hmarks].
    replace (tf + failure_count c)%nat with tf in Hloop by lia.
    apply elem_of_cons in Hin as [->|Hin].
    + eapply nothing_to_send_marked; [apply recently_expired_marked|exact Hmarks|].
      apply (Hsettle c); try done; [apply recently_expired_marked| |lia].
      rewrite (get_recently_expired_plan_licenses_eq env u0 uu D _ Hu (Hr _)).
      cbn [snd db trace].
      by rewrite Hday.
    + rewrite <- (recently_expired_tables (db w) (db w1)) by done.
      by eapply IH.
  - destruct e; [done| |]; destruct (Hrest' _ _ _ _ Hloop); lia.
Qed.

(** With nothing left to send for any of the customers, the loop does what
    a dry run does. *)
Lemma reminders_customers_loop_nothing_to_send (env : Env) (D day : Z) (dry_run : bool)
    (uuids : list string) (ts tf : nat) (w : World) :
  (∀ tr, to_date (localized_utcnow env tr) = day) →
  (∀ tr, expiring_window_in_range (localized_utcnow env tr) D) →
  (∀ u, u ∈ uuids →
     ∃ uu, uuid_UUID env u = Some uu
       ∧ nothing_to_send
           (Reminders.expiring (db w) uu (datetime_of_date (day + D))
              (datetime_of_date (day + D + 1)))
           (db w)) →
  Reminders.customers_loop env D dry_run uuids ts tf w =
    (mkWorld (db w) (trace w ++ dry_run_events uuids), Ok (ts, tf)).
Proof.
  intros Hday Hr. revert ts tf w. induction uuids as [|u rest IH]; intros ts tf w Hnone.
  { simpl. rewrite app_nil_r. by destruct w. }
  rewrite reminders_customers_loop_cons, reminders_process_shape.
  destruct (Hnone u) as (uu & Hu & Hnone_u); [apply list_elem_of_here|].
  rewrite (process_with_nothing_to_send expiration_reminder_sent_date
             set_expiration_reminder_sent_date _ (reminders_selects env u D) _ env
             (Reminders.expiring (db w) uu (datetime_of_date (day + D))
                (datetime_of_date (day + D + 1))) u dry_run w); [|  |done].
  - rewrite IH.
    + cbn [db trace success_count failure_count]. by rewrite !Nat.add_0_r, <- app_assoc.
    + intros u' Hin. apply Hnone. by apply list_elem_of_further.
  - rewrite (get_expiring_licenses_eq env u uu D _ Hu (Hr _)). cbn [snd db trace].
    by rewrite Hday.
Qed.

Lemma plan_expiration_customers_loop_nothing_to_send (env : Env) (D day : Z) (dry_run : bool)
    (uuids : list string) (ts tf ef : nat) (w : World) :
  (∀ tr, to_date (localized_utcnow env tr) = day) →
  (∀ tr, recently_expired_window_in_range (localized_utcnow env tr) D) →
  (∀ u, u ∈ uuids →
     ∃ uu, uuid_UUID env u = Some uu
       ∧ nothing_to_send
           (PlanExpiration.recently_expired (db w) uu (datetime_of_date (day - D))
              (datetime_of_date day))
           (db w)) →
  PlanExpiration.customers_loop env D dry_run uuids ts tf ef w =
    (mkWorld (db w) (trace w ++ dry_run_events uuids), Ok (ts, tf, ef)).
Proof.
  intros Hday Hr. revert ts tf ef w.
  induction uuids as [|u rest IH]; intros ts tf ef w Hnone.
  { simpl. rewrite app_nil_r. by destruct w. }
  rewrite plan_expiration_customers_loop_cons, plan_expiration_process_shape.
  destruct (Hnone u) as (uu & Hu & Hnone_u); [apply list_elem_of_here|].
  rewrite (process_with_nothing_to_send subscription_plan_expiration_email_sent_date
             set_subscription_plan_expiration_email_sent_date _
             (plan_expiration_selects env u D) _ env
             (PlanExpiration.recently_expired (db w) uu (datetime_of_date (day - D))
                (datetime_of_date day)) u dry_run w); [|  |done].
  - rewrite IH.
    + cbn [db trace success_count failure_count]. by rewrite !Nat.add_0_r, <- app_assoc.
    + intros u' Hin. apply Hnone. by apply list_elem_of_further.
  - rewrite (get_recently_expired_plan_licenses_eq env u uu D _ Hu (Hr _)).
    cbn [snd db trace]. by rewrite Hday.
Qed.

(** A loop over at least one customer that ends with the failure count it
    started with met no [OverflowError]: the window exists. *)
Lemma reminders_customers_loop_in_range (env : Env) (D : Z) (dry_run : bool) (u : string)
    (rest : list string) (ts tf ts' : nat) (w w' : World) :
  Reminders.customers_loop env D dry_run (u :: rest) ts tf w = (w', Ok (ts', tf)) →
  expiring_window_in_range (localized_utcnow env (trace w ++ [LogProcessing u])) D.
Proof.
  intros Hloop.
  destruct (decide (expiring_window_in_range
                      (localized_utcnow env (trace w ++ [LogProcessing u])) D))
    as [Hr|Hr]; [done|exfalso].
  rewrite reminders_customers_loop_cons, reminders_process_shape in Hloop.
  rewrite (process_with_eq _ _ _ (reminders_selects env u D)) in Hloop. cbn zeta in Hloop.
  rewrite get_expiring_licenses_overflow in Hloop by done. cbn [snd] in Hloop.
  destruct (reminders_customers_loop_counts env D dry_run rest ts (tf + 1)
              (mkWorld (db w) (trace w ++ [LogProcessing u; ClockRead])))
    as (evs & _ & Hcount & _).
  rewrite Hloop in Hcount. cbn [snd] in Hcount. lia.
Qed.

Lemma plan_expiration_customers_loop_in_range (env : Env) (D : Z) (dry_run : bool)
    (u : string) (rest : list string) (ts tf ef ts' : nat) (w w' : World) :
  PlanExpiration.customers_loop env D dry_run (u :: rest) ts tf ef w
    = (w', Ok (ts', tf, ef)) →
  recently_expired_window_in_range (localized_utcnow env (trace w ++ [LogProcessing u])) D.
Proof.
  intros Hloop.
  destruct (decide (recently_expired_window_in_range
                      (localized_utcnow env (trace w ++ [LogProcessing u])) D))
    as [Hr|Hr]; [done|exfalso].
  rewrite plan_expiration_customers_loop_cons, plan_expiration_process_shape in Hloop.
  rewrite (process_with_eq _ _ _ (plan_expiration_selects env u D)) in Hloop.
  cbn zeta in Hloop.
  rewrite get_recently_expired_plan_licenses_overflow in Hloop by done. cbn [snd] in Hloop.
  destruct (plan_expiration_customers_loop_counts env D dry_run rest ts tf (ef + 1)
              (mkWorld (db w) (trace w ++ [LogProcessing u; ClockRead])))
    as (evs & _ & Hcount & _).
  rewrite Hloop in Hcount. cbn [snd] in Hcount. lia.
Qed.

(** Whether the window exists depends on the day of the clock only. *)
Lemma expiring_window_in_range_day (now now' D : Z) :
  to_date now' = to_date now →
  expiring_window_in_range now D → expiring_window_in_range now' D.
Proof. unfold expiring_window_in_range. by intros ->. Qed.

Lemma recently_expired_window_in_range_day (now now' N_ : Z) :
  to_date now' = to_date now →
  recently_expired_window_in_range now N_ → recently_expired_window_in_range now' N_.
Proof. unfold recently_expired_window_in_range. by intros ->. Qed.

(** X17. After a run of either email command that returned normally, a
    second run with the same arguments on the same UTC day finds nothing to
    send: it does exactly what a dry run does. *)
Theorem rerun_after_success_sends_nothing (env env' : Env) (s : string) (D day : Z)
    (w : World) :
  (∀ tr, to_date (localized_utcnow env tr) = day) →
  (∀ tr, to_date (localized_utcnow env' tr) = day) →
  (∀ u, uuid_UUID env' u = uuid_UUID env u) →
  ((Reminders.handle env (mkOptions s D false) w).2 = Ok tt →
   Reminders.handle env' (mkOptions s D false) (Reminders.handle env (mkOptions s D false) w).1
   = Reminders.handle env' (mkOptions s D true)
       (Reminders.handle env (mkOptions s D false) w).1)
  ∧ ((PlanExpiration.handle env (mkOptions s D false) w).2 = Ok tt →
     PlanExpiration.handle env' (mkOptions s D false)
       (PlanExpiration.handle env (mkOptions s D false) w).1
     = PlanExpiration.handle env' (mkOptions s D true)
         (PlanExpiration.handle env (mkOptions s D false) w).1).
Proof.
  intros Hday Hday' Hsame. split; intros Hok.
  - unfold Reminders.handle in *. cbn [opt_enterprise_customer_uuid opt_days opt_dry_run] in *.
    rewrite (parse_same_uuids env env' s Hsame).
    destruct (_parse_enterprise_customer_uuids env s) as [[|u uuids]|e] eqn:Hparse;
      [done| |done].
    pose proof (parse_valid env s _ Hparse) as Hvalid.
    unfold mbind, M_bind in Hok |- *.
    destruct (Reminders.customers_loop env D false (u :: uuids) 0 0 w)
      as [w1 [[ts tf]|e]] eqn:Hloop; [|done].
    cbn [fst snd] in *. case_bool_decide; [done|].
    assert (tf = 0%nat) as -> by lia.
    unfold mret at 1, M_ret at 1. cbn [fst].
    pose proof (reminders_customers_loop_in_range env D false u uuids 0 0 ts w w1 Hloop)
      as Hr0.
    assert (∀ tr, expiring_window_in_range (localized_utcnow env tr) D) as Hr
      by (intros tr; eapply expiring_window_in_range_day; [|exact Hr0];
          by rewrite !Hday).
    assert (∀ tr, expiring_window_in_range (localized_utcnow env' tr) D) as Hr'
      by (intros tr; eapply expiring_window_in_range_day; [|exact Hr0];
          by rewrite Hday, Hday').
    rewrite (reminders_customers_loop_dry_run env' D (u :: uuids) 0 0 _ Hr').
    2: { eapply Forall_impl; [exact Hvalid|]. intros u' Hu'. by rewrite Hsame. }
    rewrite (reminders_customers_loop_nothing_to_send env' D day false (u :: uuids) 0 0 w1
               Hday' Hr'); [done|].
    intros u' Hin. destruct (proj1 (Forall_forall _ _) Hvalid u' Hin) as [uu Hu].
    exists uu. rewrite Hsame. split; [done|].
    destruct (reminders_customers_loop_marks env D false (u :: uuids) 0 0 w)
      as (evs & _ & Hp & Ha & _).
    rewrite Hloop in Hp, Ha. cbn [fst] in Hp, Ha.
    rewrite (expiring_tables (db w) (db w1)) by done.
    exact (reminders_customers_loop_settles env D day (u :: uuids) 0 0 ts w w1
             Hday Hr Hvalid Hloop u' uu Hin Hu).
  - unfold PlanExpiration.handle in *.
    cbn [opt_enterprise_customer_uuid opt_days opt_dry_run] in *.
    rewrite (parse_same_uuids env env' s Hsame).
    destruct (_parse_enterprise_customer_uuids env s) as [[|u uuids]|e] eqn:Hparse;
      [done| |done].
    pose proof (parse_valid env s _ Hparse) as Hvalid.
    unfold mbind, M_bind in Hok |- *.
    destruct (PlanExpiration.customers_loop env D false (u :: uuids) 0 0 0 w)
      as [w1 [[[ts tf] ef]|e]] eqn:Hloop; [|done].
    cbn [fst snd] in *. case_bool_decide; [done|].
    assert (tf = 0%nat ∧ ef = 0%nat) as [-> ->] by lia.
    unfold mret at 1, M_ret at 1. cbn [fst].
    pose proof (plan_expiration_customers_loop_in_range env D false u uuids 0 0 0 ts w w1
                  Hloop) as Hr0.
    assert (∀ tr, recently_expired_window_in_range (localized_utcnow env tr) D) as Hr
      by (intros tr; eapply recently_expired_window_in_range_day; [|exact Hr0];
          by rewrite !Hday).
    assert (∀ tr, recently_expired_window_in_range (localized_utcnow env' tr) D) as Hr'
      by (intros tr; eapply recently_expired_window_in_range_day; [|exact Hr0];
          by rewrite Hday, Hday').
    rewrite (plan_expiration_customers_loop_dry_run env' D (u :: uuids) 0 0 0 _ Hr').
    2: { eapply Forall_impl; [exact Hvalid|]. intros u' Hu'. by rewrite Hsame. }
    rewrite (plan_expiration_customers_loop_nothing_to_send env' D day false (u :: uuids)
               0 0 0 w1 Hday' Hr'); [done|].
    intros u' Hin. destruct (proj1 (Forall_forall _ _) Hvalid u' Hin) as [uu Hu].
    exists uu. rewrite Hsame. split; [done|].
    destruct (plan_expiration_customers_loop_marks env D false (u :: uuids) 0 0 0 w)
      as (evs & _ & Hp & Ha & _).
    rewrite Hloop in Hp, Ha. cbn [fst] in Hp, Ha.
    rewrite (recently_expired_tables (db w) (db w1)) by done.
    exact (plan_expiration_customers_loop_settles env D day (u :: uuids) 0 0 0 ts w w1
             Hday Hr Hvalid Hloop u' uu Hin Hu).
Qed.

(** ** Only selected licenses are sent an email *)

Section Emailed.

Context (marker : License → option Z) (mark : option Z → License → License).
Context (select : M (list (Z * License))).
Hypothesis select_ok : selects marker select.
Context (campaign : option string) (env : Env).

(** A license that was sent an email while a customer was processed is
    one of the rows the selection returned. *)
Lemma process_with_emailed_selected (u : string) (dry_run : bool) (w : World) (pk : Z) :
  emails_sent pk (trace (process_with select campaign mark env u dry_run w).1)
    ≠ emails_sent pk (trace w) →
  ∃ rows l, (select (mkWorld (db w) (trace w ++ [LogProcessing u]))).2 = Ok rows
            ∧ (pk, l) ∈ rows.
Proof.
  rewrite (process_with_eq marker mark select select_ok). cbn zeta.
  destruct (select_ok (mkWorld (db w) (trace w ++ [LogProcessing u])))
    as (r & Hsel & Hrows).
  rewrite Hsel. cbn [db trace snd] in *.
  assert (emails_sent pk (trace w ++ [LogProcessing u; ClockRead]) = emails_sent pk (trace w))
    as Hquiet by (rewrite emails_sent_app; cbn; lia).
  destruct r as [[|row rows]|e]; cbn [fst trace]; try done.
  destruct dry_run; [done|].
  destruct (Hrows (row :: rows) eq_refl) as [Hnd Hstored].
  destruct (get_enterprise_customer_data env _ u) as [ec|e].
  - set (w3 := mkWorld (db w) (_ ++ [EnterpriseApiCall u None])).
    destruct (send_loop_effect mark campaign env ec (row :: rows) 0 0 w3 Hnd)
      as (evs & Htr & _ & _ & _ & Hpk & _).
    { intros pk' Hin. apply list_elem_of_fmap in Hin as ([pk'' l] & -> & Hin).
      apply Hstored in Hin as [Hin _]. by exists l. }
    rewrite Htr. subst w3. cbn [trace]. rewrite !emails_sent_app.
    change (emails_sent pk [LogProcessing u; ClockRead]) with 0%nat.
    change (emails_sent pk [EnterpriseApiCall u None]) with 0%nat.
    destruct (Hpk pk) as [(_ & -> & _)|(Hin & _)]; [lia|]. intros _.
    apply list_elem_of_fmap in Hin as ([pk' l] & -> & Hin).
    by exists (row :: rows), l.
  - cbn [fst trace]. rewrite !emails_sent_app.
    change (emails_sent pk [LogProcessing u; ClockRead]) with 0%nat.
    change (emails_sent pk [EnterpriseApiCall u (Some e)]) with 0%nat. lia.
Qed.

End Emailed.

(** X18. With a clock that stays on one UTC day, every license a run of
    either email command sends an email to is a license of the table the
    run started from that passes the filter of the command's selection for
    some enterprise customer: it is ACTIVATED, its plan expires in the
    window, and its marker was null. *)
Theorem only_selected_licenses_are_emailed (env : Env) (options : Options) (day : Z)
    (w : World) (pk : Z) :
  (∀ tr, to_date (localized_utcnow env tr) = day) →
  (emails_sent pk (trace (Reminders.handle env options w).1) ≠ emails_sent pk (trace w) →
   ∃ l u uu,
     licenses (db w) !! pk = Some l
     ∧ uuid_UUID env u = Some uu
     ∧ Reminders.expiring (db w) uu
         (datetime_of_date (day + opt_days options))
         (datetime_of_date (day + opt_days options + 1)) l = true)
  ∧ (emails_sent pk (trace (PlanExpiration.handle env options w).1)
       ≠ emails_sent pk (trace w) →
     ∃ l u uu,
       licenses (db w) !! pk = Some l
       ∧ uuid_UUID env u = Some uu
       ∧ PlanExpiration.recently_expired (db w) uu
           (datetime_of_date (day - opt_days options)) (datetime_of_date day) l = true).
Proof.
  intros Hday. split.
  - revert pk.
    assert (marked_exactly_the_emailed expiration_reminder_sent_date
              set_expiration_reminder_sent_date w (Reminders.handle env options w).1
            ∧ ∀ pk,
                emails_sent pk (trace (Reminders.handle env options w).1)
                  ≠ emails_sent pk (trace w) →
                ∃ l u uu,
                  licenses (db w) !! pk = Some l
                  ∧ uuid_UUID env u = Some uu
                  ∧ Reminders.expiring (db w) uu
                      (datetime_of_date (day + opt_days options))
                      (datetime_of_date (day + opt_days options + 1)) l = true) as [_ H];
      [|exact H].
    apply (reminders_handle_preserves
             (λ w', marked_exactly_the_emailed expiration_reminder_sent_date
                      set_expiration_reminder_sent_date w w'
                    ∧ ∀ pk,
                        emails_sent pk (trace w') ≠ emails_sent pk (trace w) →
                        ∃ l u uu,
                          licenses (db w) !! pk = Some l
                          ∧ uuid_UUID env u = Some uu
                          ∧ Reminders.expiring (db w) uu
                              (datetime_of_date (day + opt_days options))
                              (datetime_of_date (day + opt_days options + 1)) l = true)).
    + intros u w1 [Hmarks Helig]. rewrite reminders_process_shape. split.
      { eapply marked_exactly_the_emailed_trans; [done|exact Hmarks|].
        apply process_with_marks_the_emailed, reminders_selects. }
      intros pk Hne.
      destruct (decide (emails_sent pk (trace w1) = emails_sent pk (trace w))) as [Hsame|Hold];
        [|by apply Helig].
      rewrite <- Hsame in Hne.
      destruct (process_with_emailed_selected expiration_reminder_sent_date
                  set_expiration_reminder_sent_date _
                  (reminders_selects env u (opt_days options)) _ env u
                  (opt_dry_run options) w1 pk Hne) as (rows & l1 & Hrows & Hin).
      apply get_expiring_licenses_inv in Hrows as (uu & Hu & _ & Hrows).
      cbn [db trace] in Hrows. rewrite Hday in Hrows. subst rows.
      apply table_filter_spec in Hin as [Hl1 Hexp].
      destruct Hmarks as (evs & _ & Hp & Ha & Hrow).
      rewrite (expiring_tables (db w) (db w1)) in Hexp by done.
      destruct (Hrow pk) as [[Heq _]|(l & t & Hl & _ & Hnew & _)].
      * exists l1, u, uu. by rewrite <- Heq.
      * rewrite Hl1 in Hnew. injection Hnew as ->. by rewrite expiring_marked in Hexp.
    + split; [apply marked_exactly_the_emailed_refl|]. by intros pk.
  - revert pk.
    assert (marked_exactly_the_emailed subscription_plan_expiration_email_sent_date
              set_subscription_plan_expiration_email_sent_date w
              (PlanExpiration.handle env options w).1
            ∧ ∀ pk,
                emails_sent pk (trace (PlanExpiration.handle env options w).1)
                  ≠ emails_sent pk (trace w) →
                ∃ l u uu,
                  licenses (db w) !! pk = Some l
                  ∧ uuid_UUID env u = Some uu
                  ∧ PlanExpiration.recently_expired (db w) uu
                      (datetime_of_date (day - opt_days options))
                      (datetime_of_date day) l = true) as [_ H];
      [|exact H].
    apply (plan_expiration_handle_preserves
             (λ w', marked_exactly_the_emailed subscription_plan_expiration_email_sent_date
                      set_subscription_plan_expiration_email_sent_date w w'
                    ∧ ∀ pk,
                        emails_sent pk (trace w') ≠ emails_sent pk (trace w) →
                        ∃ l u uu,
                          licenses (db w) !! pk = Some l
                          ∧ uuid_UUID env u = Some uu
                          ∧ PlanExpiration.recently_expired (db w) uu
                              (datetime_of_date (day - opt_days options))
                              (datetime_of_date day) l = true)).
    + intros u w1 [Hmarks Helig]. rewrite plan_expiration_process_shape. split.
      { eapply marked_exactly_the_emailed_trans; [done|exact Hmarks|].
        apply process_with_marks_the_emailed, plan_expiration_selects. }
      intros pk Hne.
      destruct (decide (emails_sent pk (trace w1) = emails_sent pk (trace w))) as [Hsame|Hold];
        [|by apply Helig].
      rewrite <- Hsame in Hne.
      destruct (process_with_emailed_selected subscription_plan_expiration_email_sent_date
                  set_subscription_plan_expiration_email_sent_date _
                  (plan_expiration_selects env u (opt_days options)) _ env u
                  (opt_dry_run options) w1 pk Hne) as (rows & l1 & Hrows & Hin).
      apply get_recently_expired_plan_licenses_inv in Hrows as (uu & Hu & _ & Hrows).
      cbn [db trace] in Hrows. rewrite Hday in Hrows. subst rows.
      apply table_filter_spec in Hin as [Hl1 Hexp].
      destruct Hmarks as (evs & _ & Hp & Ha & Hrow).
      rewrite (recently_expired_tables (db w) (db w1)) in Hexp by done.
      destruct (Hrow pk) as [[Heq _]|(l & t & Hl & _ & Hnew & _)].
      * exists l1, u, uu. by rewrite <- Heq.
      * rewrite Hl1 in Hnew. injection Hnew as ->. by rewrite recently_expired_marked in Hexp.
    + split; [apply marked_exactly_the_emailed_refl|]. by intros pk.
Qed.

(** ** Concrete instances of the further properties *)

(** X1, at the example data: Braze refuses the campaign message, the
    command ends with the exception of the end of the run, and one call
    raised; when Braze accepts it, the command returns normally and no call
    raised. *)
Lemma exit_status_reports_failed_calls_witness :
  expiring_window_in_range (timedelta 19870) 30
  ∧ (Reminders.handle (example_env_braze_refuses (timedelta 19870))
       (mkOptions example_uuid_string 30 false) (example_world example_activated)).2
    = Raise Exception_
  ∧ (0 < failed_calls
           (trace (Reminders.handle (example_env_braze_refuses (timedelta 19870))
                     (mkOptions example_uuid_string 30 false)
                     (example_world example_activated)).1))%nat
  ∧ (Reminders.handle (example_env (timedelta 19870))
       (mkOptions example_uuid_string 30 false) (example_world example_activated)).2
    = Ok tt
  ∧ failed_calls
      (trace (Reminders.handle (example_env (timedelta 19870))
                (mkOptions example_uuid_string 30 false)
                (example_world example_activated)).1) = 0%nat.
Proof.
  assert (expiring_window_in_range (timedelta 19870) 30) as Hrange by in_range.
  destruct (exit_status_reports_failed_calls (example_env_braze_refuses (timedelta 19870))
              (mkOptions example_uuid_string 30 false) (example_world example_activated))
    as [(evs & Htr & _ & _ & Hcond) _].
  destruct (exit_status_reports_failed_calls (example_env (timedelta 19870))
              (mkOptions example_uuid_string 30 false) (example_world example_activated))
    as [(evs' & Htr' & Hok & _) _].
  destruct (Hcond (λ _, Hrange)) as [Hraised _].
  cbn [example_world trace app] in Htr, Htr'.
  split; [exact Hrange|]. split; [reflexivity|].
  split; [rewrite Htr; by apply Hraised|].
  split; [reflexivity|]. rewrite Htr'. by apply Hok.
Defined.

(** X12, at the example data: two UUIDs put together with a comma and an
    em space. *)
Lemma parse_of_concatenation_witness :
  all_sep (chars ("," +:+ example_em_space)) = true
  ∧ "," +:+ example_em_space ≠ ""
  ∧ _parse_enterprise_customer_uuids (example_env 0)
      (example_uuid_string +:+ ("," +:+ example_em_space) +:+ example_uuid_string)
    = Ok [example_uuid_string; example_uuid_string].
Proof.
  assert ("," +:+ example_em_space ≠ "") as Hne by discriminate.
  split; [reflexivity|]. split; [exact Hne|].
  rewrite (parse_of_concatenation (example_env 0) example_uuid_string
             ("," +:+ example_em_space) example_uuid_string eq_refl Hne).
  reflexivity.
Defined.

(** X13, at the example data. *)
Lemma parse_join_commas_round_trip_witness :
  _parse_enterprise_customer_uuids (example_env 0)
    (example_no_break_space +:+ example_uuid_string +:+ " , " +:+ example_em_space
     +:+ example_uuid_string)
  = Ok [example_uuid_string; example_uuid_string]
  ∧ _parse_enterprise_customer_uuids (example_env 0)
      (example_uuid_string +:+ "," +:+ example_uuid_string)
    = Ok [example_uuid_string; example_uuid_string].
Proof.
  split; [reflexivity|].
  exact (parse_join_commas_round_trip (example_env 0)
           (example_no_break_space +:+ example_uuid_string +:+ " , " +:+ example_em_space
            +:+ example_uuid_string)
           [example_uuid_string; example_uuid_string] eq_refl).
Defined.

(** X8, at the example data: the plan expires at one o'clock, the command
    runs at two o'clock thirty days earlier, and the email announces 29
    days. *)
Lemma reminder_announces_days_or_one_less_witness :
  (Reminders._get_expiring_licenses (example_env (timedelta 19870 + 7200000000))
     example_uuid_string 30 (example_world example_activated)).2
  = Ok [(1, example_activated)]
  ∧ plan_of (db (example_world example_activated)) example_activated = Some example_plan
  ∧ days_until_expiration (expiration_date example_plan) (timedelta 19870 + 7200000000) = 29.
Proof.
  assert ((Reminders._get_expiring_licenses (example_env (timedelta 19870 + 7200000000))
             example_uuid_string 30 (example_world example_activated)).2
          = Ok [(1, example_activated)]) as Hrows by (vm_compute; reflexivity).
  split; [exact Hrows|]. split; [reflexivity|].
  destruct (reminder_announces_days_or_one_less (example_env (timedelta 19870 + 7200000000))
              example_uuid_string 30 (example_world example_activated)
              [(1, example_activated)] 1 example_activated example_plan
              (timedelta 19870 + 7200000000) Hrows (list_elem_of_here _ _) eq_refl eq_refl)
    as [[Hlo Hhi] Hsame].
  assert (days_until_expiration (expiration_date example_plan)
            (timedelta 19870 + 7200000000) ≠ 30) as Hne.
  { intros H30. apply Hsame in H30. vm_compute in H30. by apply H30. }
  lia.
Defined.

(** X9, at the example data: three days after the plan expired. *)
Lemma plan_expiration_announces_one_to_days_witness :
  (PlanExpiration._get_recently_expired_plan_licenses (example_env (timedelta 19903 + 500))
     example_uuid_string 7 (example_world example_activated)).2
  = Ok [(1, example_activated)]
  ∧ plan_of (db (example_world example_activated)) example_activated = Some example_plan
  ∧ 1 ≤ days_since_expiration (expiration_date example_plan) (timedelta 19903 + 500) ≤ 7.
Proof.
  assert ((PlanExpiration._get_recently_expired_plan_licenses
             (example_env (timedelta 19903 + 500))
             example_uuid_string 7 (example_world example_activated)).2
          = Ok [(1, example_activated)]) as Hrows by (vm_compute; reflexivity).
  split; [exact Hrows|]. split; [reflexivity|].
  exact (plan_expiration_announces_one_to_days (example_env (timedelta 19903 + 500))
           example_uuid_string 7 (example_world example_activated)
           [(1, example_activated)] 1 example_activated example_plan
           (timedelta 19903 + 500) Hrows (list_elem_of_here _ _) eq_refl eq_refl).
Defined.

(** X10, at the example data: on the day the plan expires the license is
    selected for a reminder zero days ahead, and not for the plan
    expiration email. *)
Lemma reminder_and_expiration_selections_are_disjoint_witness :
  (Reminders._get_expiring_licenses (example_env (timedelta 19900 + 500))
     example_uuid_string 0 (example_world example_activated)).2
  = Ok [(1, example_activated)]
  ∧ (PlanExpiration._get_recently_expired_plan_licenses (example_env (timedelta 19900 + 900))
       example_uuid_string 7 (example_world example_activated)).2
    = Ok []
  ∧ bool_decide (1 ∈ ([] : list (Z * License)).*1) = false.
Proof.
  assert ((Reminders._get_expiring_licenses (example_env (timedelta 19900 + 500))
             example_uuid_string 0 (example_world example_activated)).2
          = Ok [(1, example_activated)]) as Hrows1 by (vm_compute; reflexivity).
  assert ((PlanExpiration._get_recently_expired_plan_licenses
             (example_env (timedelta 19900 + 900))
             example_uuid_string 7 (example_world example_activated)).2
          = Ok []) as Hrows2 by (vm_compute; reflexivity).
  split; [exact Hrows1|]. split; [exact Hrows2|].
  apply bool_decide_eq_false.
  apply (reminder_and_expiration_selections_are_disjoint
           (example_env (timedelta 19900 + 500)) (example_env (timedelta 19900 + 900))
           example_uuid_string example_uuid_string 0 7
           (example_world example_activated) (example_world example_activated)
           [(1, example_activated)] [] 1 eq_refl).
  - vm_compute. intros H; discriminate H.
  - exact Hrows1.
  - exact Hrows2.
  - apply list_elem_of_here.
Defined.

(** X11, at the example data: with a look back of zero days nothing is
    selected three days after the example plan expired, and a run is a dry
    run; with a look back of minus 3000000 days the window would start past
    the year 9999, and the selection raises. *)
Lemma nonpositive_days_since_expiration_selects_nothing_witness :
  0 ≤ 0
  ∧ -3000000 ≤ 0
  ∧ is_Some (uuid_UUID (example_env (timedelta 19903)) example_uuid_string)
  ∧ (PlanExpiration._get_recently_expired_plan_licenses (example_env (timedelta 19903))
       example_uuid_string 0 (example_world example_activated)).2 = Ok []
  ∧ (PlanExpiration._get_recently_expired_plan_licenses (example_env (timedelta 19903))
       example_uuid_string (-3000000) (example_world example_activated)).2
    = Raise Exception_
  ∧ PlanExpiration.handle (example_env (timedelta 19903)) (mkOptions example_uuid_string 0 false)
      (example_world example_activated)
    = PlanExpiration.handle (example_env (timedelta 19903))
        (mkOptions example_uuid_string 0 true) (example_world example_activated).
Proof.
  assert (is_Some (uuid_UUID (example_env (timedelta 19903)) example_uuid_string)) as Hvalid
    by (by eexists).
  destruct (nonpositive_days_since_expiration_selects_nothing (example_env (timedelta 19903))
              example_uuid_string 0 false (example_world example_activated) ltac:(lia))
    as (Hsel & Heq & _).
  destruct (nonpositive_days_since_expiration_selects_nothing (example_env (timedelta 19903))
              example_uuid_string (-3000000) false (example_world example_activated)
              ltac:(lia))
    as (Hfar & _ & _).
  split; [lia|]. split; [lia|]. split; [exact Hvalid|].
  split; [|split; [|exact Heq]].
  - apply (Hsel example_uuid_string (example_world example_activated) Hvalid). in_range.
  - apply (Hfar example_uuid_string (example_world example_activated) Hvalid).
    intros Hrange. apply (bool_decide_eq_true_2 _) in Hrange.
    vm_compute in Hrange. discriminate Hrange.
Defined.

(** X7, at the example data: the campaign setting is missing, the first
    of two customers raises [ValueError], and the second is not
    processed. *)
Lemma value_error_ends_the_run_witness :
  _parse_enterprise_customer_uuids (example_env_unconfigured (timedelta 19870))
    (example_uuid_string +:+ "," +:+ example_uuid_string)
  = Ok ([] ++ example_uuid_string :: [example_uuid_string])
  ∧ (Reminders._process_enterprise_customer (example_env_unconfigured (timedelta 19870))
       example_uuid_string 30 false (example_world example_activated)).2
    = Raise ValueError
  ∧ processed
      (trace (Reminders.handle (example_env_unconfigured (timedelta 19870))
                (mkOptions (example_uuid_string +:+ "," +:+ example_uuid_string) 30 false)
                (example_world example_activated)).1)
    = [example_uuid_string].
Proof.
  assert ((Reminders._process_enterprise_customer (example_env_unconfigured (timedelta 19870))
             example_uuid_string 30 false (example_world example_activated)).2
          = Raise ValueError) as Hraise by (vm_compute; reflexivity).
  split; [reflexivity|]. split; [exact Hraise|].
  destruct (value_error_ends_the_run (example_env_unconfigured (timedelta 19870))
              (example_uuid_string +:+ "," +:+ example_uuid_string) 30 false
              (example_world example_activated) [] [example_uuid_string] example_uuid_string
              eq_refl) as [Hreminders _].
  destruct Hreminders as [_ Hprocessed].
  - intros Hin. by apply elem_of_nil in Hin.
  - exact Hraise.
  - exact Hprocessed.
Defined.

(** X14, at the example data: the revoked license, a hundred days after
    its plan expired. *)
Lemma nothing_left_to_retire_witness :
  licenses (db (Retire.handle (example_env (timedelta 20000))
                  (example_world example_revoked)).1) !! 1
  = Some (mkLicense 1003%N REVOKED None None (Some (timedelta 19600))
            (Some (timedelta 20000)) None None 1)
  ∧ Retire.expired_for_retirement
      (db (Retire.handle (example_env (timedelta 20000)) (example_world example_revoked)).1)
      (to_date (timedelta 20000) - DAYS_TO_RETIRE)
      (mkLicense 1003%N REVOKED None None (Some (timedelta 19600))
         (Some (timedelta 20000)) None None 1) = false.
Proof.
  assert (licenses (db (Retire.handle (example_env (timedelta 20000))
                          (example_world example_revoked)).1) !! 1
          = Some (mkLicense 1003%N REVOKED None None (Some (timedelta 19600))
                    (Some (timedelta 20000)) None None 1)) as Hl by (vm_compute; reflexivity).
  split; [exact Hl|].
  destruct (nothing_left_to_retire (example_env (timedelta 20000))
              (example_world example_revoked) 1 _ Hl) as (Hexp & _ & _).
  exact Hexp.
Defined.

(** X16, at the example data: two runs on the same day. *)
Lemma retire_again_changes_nothing_witness :
  to_date (timedelta 20000 + 500) ≤ to_date (timedelta 20000)
  ∧ licenses
      (db (Retire.handle (example_env (timedelta 20000 + 500))
             (Retire.handle (example_env (timedelta 20000))
                (example_world example_assigned)).1).1) !! 1
    = licenses (db (Retire.handle (example_env (timedelta 20000))
                      (example_world example_assigned)).1) !! 1.
Proof.
  assert (to_date (timedelta 20000 + 500) ≤ to_date (timedelta 20000)) as Hday
    by (vm_compute; intros H; discriminate H).
  split; [exact Hday|].
  by rewrite (retire_again_changes_nothing (example_env (timedelta 20000))
                (example_env (timedelta 20000 + 500)) (example_world example_assigned) Hday).
Defined.

(** X3, at the example data. *)
Lemma unconfigured_campaign_sends_nothing_witness :
  unconfigured
    (BRAZE_LICENSE_EXPIRATION_REMINDER_CAMPAIGN (example_env_unconfigured (timedelta 19870)))
  ∧ (Reminders.handle (example_env_unconfigured (timedelta 19870))
       (mkOptions example_uuid_string 30 false) (example_world example_activated)).2
    = Raise ValueError
  ∧ db (Reminders.handle (example_env_unconfigured (timedelta 19870))
          (mkOptions example_uuid_string 30 false) (example_world example_activated)).1
    = db (example_world example_activated).
Proof.
  assert (unconfigured
            (BRAZE_LICENSE_EXPIRATION_REMINDER_CAMPAIGN
               (example_env_unconfigured (timedelta 19870)))) as Hun by (by left).
  split; [exact Hun|]. split; [vm_compute; reflexivity|].
  destruct (unconfigured_campaign_sends_nothing (example_env_unconfigured (timedelta 19870))
              (mkOptions example_uuid_string 30 false) (example_world example_activated))
    as [Hreminders _].
  destruct (Hreminders Hun) as [Hdb _]. exact Hdb.
Defined.

(** X4, at the example data: the enterprise API is down. *)
Lemma enterprise_api_failure_skips_the_customer_witness :
  (Reminders._process_enterprise_customer (example_env_api_down (timedelta 19870))
     example_uuid_string 30 false (example_world example_activated)).2
  = Raise Exception_
  ∧ db (Reminders._process_enterprise_customer (example_env_api_down (timedelta 19870))
          example_uuid_string 30 false (example_world example_activated)).1
    = db (example_world example_activated).
Proof.
  destruct (enterprise_api_failure_skips_the_customer (example_env_api_down (timedelta 19870))
              example_uuid_string 30 false (example_world example_activated))
    as [(evs & Htr & Hapi) _].
  assert (EnterpriseApiCall example_uuid_string (Some Exception_) ∈ evs) as Hin.
  { change (trace (example_world example_activated) ++ evs) with evs in Htr.
    rewrite <- Htr. vm_compute. do 2 apply list_elem_of_further. apply list_elem_of_here. }
  destruct (Hapi Exception_ Hin) as (Hdb & _ & Hres). split; [exact Hres|exact Hdb].
Defined.

(** X5, at the example data: one license, one accepted message. *)
Lemma customer_counts_match_the_events_witness :
  (Reminders._process_enterprise_customer (example_env (timedelta 19870))
     example_uuid_string 30 false (example_world example_activated)).2
  = Ok (mkCounts 1 0)
  ∧ ∃ evs,
      trace (Reminders._process_enterprise_customer (example_env (timedelta 19870))
               example_uuid_string 30 false (example_world example_activated)).1
      = trace (example_world example_activated) ++ evs
      ∧ accepted evs = 1%nat ∧ failed_calls evs = 0%nat.
Proof.
  assert ((Reminders._process_enterprise_customer (example_env (timedelta 19870))
             example_uuid_string 30 false (example_world example_activated)).2
          = Ok (mkCounts 1 0)) as Hres by (vm_compute; reflexivity).
  split; [exact Hres|].
  destruct (customer_counts_match_the_events (example_env (timedelta 19870))
              example_uuid_string 30 (example_world example_activated))
    as [(evs & Htr & Hcounts) _].
  destruct (Hcounts _ Hres) as (Hs & Hf & _).
  exists evs. split; [exact Htr|]. split; [by rewrite <- Hs|by rewrite <- Hf].
Defined.

(** X17, at the example data: the second run logs the customer, reads
    the clock and stops. *)
Lemma rerun_after_success_sends_nothing_witness :
  (Reminders.handle (example_env (timedelta 19870)) (mkOptions example_uuid_string 30 false)
     (example_world example_activated)).2 = Ok tt
  ∧ trace (Reminders.handle (example_env (timedelta 19870 + 500))
             (mkOptions example_uuid_string 30 false)
             (Reminders.handle (example_env (timedelta 19870))
                (mkOptions example_uuid_string 30 false)
                (example_world example_activated)).1).1
    = trace (Reminders.handle (example_env (timedelta 19870))
               (mkOptions example_uuid_string 30 false)
               (example_world example_activated)).1
      ++ [LogProcessing example_uuid_string; ClockRead].
Proof.
  assert ((Reminders.handle (example_env (timedelta 19870))
             (mkOptions example_uuid_string 30 false)
             (example_world example_activated)).2 = Ok tt) as Hok by (vm_compute; reflexivity).
  split; [exact Hok|].
  destruct (rerun_after_success_sends_nothing (example_env (timedelta 19870))
              (example_env (timedelta 19870 + 500)) example_uuid_string 30 19870
              (example_world example_activated)) as [Hreminders _].
  - intros tr. vm_compute. reflexivity.
  - intros tr. vm_compute. reflexivity.
  - intros u. reflexivity.
  - rewrite (Hreminders Hok). vm_compute. reflexivity.
Defined.

(** X18, at the example data. *)
Lemma only_selected_licenses_are_emailed_witness :
  emails_sent 1
    (trace (Reminders.handle (example_env (timedelta 19870))
              (mkOptions example_uuid_string 30 false)
              (example_world example_activated)).1) = 1%nat
  ∧ ∃ l u uu,
      licenses (db (example_world example_activated)) !! 1 = Some l
      ∧ uuid_UUID (example_env (timedelta 19870)) u = Some uu
      ∧ Reminders.expiring (db (example_world example_activated)) uu
          (datetime_of_date (19870 + 30)) (datetime_of_date (19870 + 30 + 1)) l = true.
Proof.
  assert (emails_sent 1
            (trace (Reminders.handle (example_env (timedelta 19870))
                      (mkOptions example_uuid_string 30 false)
                      (example_world example_activated)).1) = 1%nat) as Hsent
    by (vm_compute; reflexivity).
  split; [exact Hsent|].
  destruct (only_selected_licenses_are_emailed (example_env (timedelta 19870))
              (mkOptions example_uuid_string 30 false) 19870
              (example_world example_activated) 1) as [Hreminders _].
  - intros tr. vm_compute. reflexivity.
  - apply Hreminders. rewrite Hsent. discriminate.
Defined.

(** ** The model at work *)

Local Open Scope string_scope.

Example re_split_example :
  re_split (chars ",a,,b ,") = [[]; ["a"]; ["b"]; []] ∧ re_split (chars "") = [[]].
Proof. split; reflexivity. Qed.

Example parse_example :
  _parse_enterprise_customer_uuids (example_env 0)
    (" " +:+ example_uuid_string +:+ ", ," +:+ example_uuid_string)
  = Ok [example_uuid_string; example_uuid_string]
  ∧ _parse_enterprise_customer_uuids (example_env 0) (example_uuid_string +:+ " uuid2")
    = Raise ValueError
  ∧ _parse_enterprise_customer_uuids (example_env 0) " , " = Ok [].
Proof. repeat split; vm_compute; reflexivity. Qed.

(** Whitespace of more than one byte separates as a space does: two UUIDs
    with an em space in between, and a no-break space at the end. *)
Example parse_unicode_whitespace_example :
  chars ("a" +:+ example_em_space +:+ "b" +:+ example_no_break_space)
  = ["a"; example_em_space; "b"; example_no_break_space]
  ∧ _parse_enterprise_customer_uuids (example_env 0)
      (example_uuid_string +:+ example_em_space +:+ example_uuid_string
       +:+ example_no_break_space)
    = Ok [example_uuid_string; example_uuid_string].
Proof. split; vm_compute; reflexivity. Qed.

(** One run of the reminder command thirty days before the example plan
    expires: the events, in order, and the outcome; a second run finds
    nothing to send. *)
Example reminders_run_example :
  trace (Reminders.handle (example_env (timedelta 19870))
           (mkOptions example_uuid_string 30 false) (example_world example_activated)).1
  = [LogProcessing example_uuid_string; ClockRead;
     EnterpriseApiCall example_uuid_string None;
     ClockRead; BrazeAliasCall 1 None; CampaignMessage 1 None; ClockRead]
  ∧ (Reminders.handle (example_env (timedelta 19870))
       (mkOptions example_uuid_string 30 false) (example_world example_activated)).2
    = Ok tt
  ∧ trace (runs Reminders.handle
             [(example_env (timedelta 19870), mkOptions example_uuid_string 30 false);
              (example_env (timedelta 19870), mkOptions example_uuid_string 30 false)]
             (example_world example_activated))
    = [LogProcessing example_uuid_string; ClockRead;
       EnterpriseApiCall example_uuid_string None;
       ClockRead; BrazeAliasCall 1 None; CampaignMessage 1 None; ClockRead;
       LogProcessing example_uuid_string; ClockRead].
Proof. repeat split; vm_compute; reflexivity. Qed.

(** A run of the plan expiration command on the day the plan expires
    selects nothing: today is excluded from the window. *)
Example plan_expiration_excludes_today :
  trace (PlanExpiration.handle (example_env (timedelta 19900 + 7200000000))
           (mkOptions example_uuid_string 7 false) (example_world example_activated)).1
  = [LogProcessing example_uuid_string; ClockRead]
  ∧ (PlanExpiration.handle (example_env (timedelta 19900 + 7200000000))
       (mkOptions example_uuid_string 7 false) (example_world example_activated)).2
    = Ok tt.
Proof. repeat split; vm_compute; reflexivity. Qed.
